(** * wdctl(8): show hardware watchdog status

    A shallow embedding of [sys-utils/wdctl.c] and the properties of its
    device session, option handling and report rendering.

    Integers of the C program are [Z]; [uint32_t] values are kept in
    [0, 2^32).  C strings are [string]s, the end of the string standing
    for the terminating NUL.  System calls, the standard streams and the
    process exit are effects of a small monad over a [world] that records
    every observable action in a trace. *)

From Stdlib Require Import ZArith Lia Bool List String Ascii.
From Stdlib Require QArith.QArith_base.
From stdpp Require Import base list strings.

Open Scope Z_scope.

(** ** Constants of headers that are not part of [wdctl.c]

    [linux/watchdog.h] (the [WDIOF_*] option bits), [tt.h] (the [TT_FL_*]
    table flags), [pathnames.h], [errno.h] and the version string are taken as
    parameters; the program is verified for every value of them that meets
    the hypotheses a theorem names. *)
Class headers := {
  WDIOF_CARDRESET : Z;
  WDIOF_EXTERN1 : Z;
  WDIOF_EXTERN2 : Z;
  WDIOF_FANFAULT : Z;
  WDIOF_KEEPALIVEPING : Z;
  WDIOF_MAGICCLOSE : Z;
  WDIOF_OVERHEAT : Z;
  WDIOF_POWEROVER : Z;
  WDIOF_POWERUNDER : Z;
  WDIOF_PRETIMEOUT : Z;
  WDIOF_SETTIMEOUT : Z;
  TT_FL_RAW : Z;
  TT_FL_NOHEADINGS : Z;
  TT_FL_EXPORT : Z;
  TT_FL_TRUNC : Z;
  TT_FL_RIGHT : Z;
  _PATH_WATCHDOG_DEV : string;
  UTIL_LINUX_VERSION : string;
  EBUSY : Z;
  EINTR : Z
}.

Definition EXIT_SUCCESS : Z := 0.
Definition EXIT_FAILURE : Z := 1.

(** ** 32-bit unsigned arithmetic *)

Definition UINT32_MAX : Z := 4294967295.

(** [~x] on a [uint32_t]. *)
Definition u32_not (x : Z) : Z := Z.land (Z.lnot x) UINT32_MAX.

(** ** Data model *)

Module wdflag.
Record t := mk {
  flag : Z;             (* uint32_t *)
  name : string;
  description : string
}.
End wdflag.

Module colinfo.
Record t := mk {
  name : string;                (* header *)
  whint : QArith_base.Q;        (* width hint *)
  flags : Z;                    (* TT_FL_* *)
  help : string
}.
End colinfo.

(** [struct watchdog_info] of the kernel interface. *)
Record watchdog_info := {
  options : Z;              (* __u32 *)
  firmware_version : Z;     (* __u32 *)
  identity : string
}.

Record wdinfo := {
  device : string;
  timeout : Z;
  timeleft : Z;
  pretimeout : Z;
  status : Z;
  bstatus : Z;
  ident : watchdog_info;
  has_timeout : bool;
  has_timeleft : bool;
  has_pretimeout : bool
}.

Definition set_ident (wd : wdinfo) (v : watchdog_info) : wdinfo :=
  {| device := device wd; timeout := timeout wd; timeleft := timeleft wd;
     pretimeout := pretimeout wd; status := status wd; bstatus := bstatus wd;
     ident := v; has_timeout := has_timeout wd;
     has_timeleft := has_timeleft wd; has_pretimeout := has_pretimeout wd |}.

Definition set_status (wd : wdinfo) (v : Z) : wdinfo :=
  {| device := device wd; timeout := timeout wd; timeleft := timeleft wd;
     pretimeout := pretimeout wd; status := v; bstatus := bstatus wd;
     ident := ident wd; has_timeout := has_timeout wd;
     has_timeleft := has_timeleft wd; has_pretimeout := has_pretimeout wd |}.

Definition set_bstatus (wd : wdinfo) (v : Z) : wdinfo :=
  {| device := device wd; timeout := timeout wd; timeleft := timeleft wd;
     pretimeout := pretimeout wd; status := status wd; bstatus := v;
     ident := ident wd; has_timeout := has_timeout wd;
     has_timeleft := has_timeleft wd; has_pretimeout := has_pretimeout wd |}.

Definition set_timeout (wd : wdinfo) (v : Z) : wdinfo :=
  {| device := device wd; timeout := v; timeleft := timeleft wd;
     pretimeout := pretimeout wd; status := status wd; bstatus := bstatus wd;
     ident := ident wd; has_timeout := has_timeout wd;
     has_timeleft := has_timeleft wd; has_pretimeout := has_pretimeout wd |}.

Definition set_pretimeout (wd : wdinfo) (v : Z) : wdinfo :=
  {| device := device wd; timeout := timeout wd; timeleft := timeleft wd;
     pretimeout := v; status := status wd; bstatus := bstatus wd;
     ident := ident wd; has_timeout := has_timeout wd;
     has_timeleft := has_timeleft wd; has_pretimeout := has_pretimeout wd |}.

Definition set_timeleft (wd : wdinfo) (v : Z) : wdinfo :=
  {| device := device wd; timeout := timeout wd; timeleft := v;
     pretimeout := pretimeout wd; status := status wd; bstatus := bstatus wd;
     ident := ident wd; has_timeout := has_timeout wd;
     has_timeleft := has_timeleft wd; has_pretimeout := has_pretimeout wd |}.

Definition set_has_timeout (wd : wdinfo) (v : bool) : wdinfo :=
  {| device := device wd; timeout := timeout wd; timeleft := timeleft wd;
     pretimeout := pretimeout wd; status := status wd; bstatus := bstatus wd;
     ident := ident wd; has_timeout := v;
     has_timeleft := has_timeleft wd; has_pretimeout := has_pretimeout wd |}.

Definition set_has_pretimeout (wd : wdinfo) (v : bool) : wdinfo :=
  {| device := device wd; timeout := timeout wd; timeleft := timeleft wd;
     pretimeout := pretimeout wd; status := status wd; bstatus := bstatus wd;
     ident := ident wd; has_timeout := has_timeout wd;
     has_timeleft := has_timeleft wd; has_pretimeout := v |}.

Definition set_has_timeleft (wd : wdinfo) (v : bool) : wdinfo :=
  {| device := device wd; timeout := timeout wd; timeleft := timeleft wd;
     pretimeout := pretimeout wd; status := status wd; bstatus := bstatus wd;
     ident := ident wd; has_timeout := has_timeout wd;
     has_timeleft := v; has_pretimeout := has_pretimeout wd |}.

(** [enum { COL_FLAG, COL_DESC, COL_STATUS, COL_BSTATUS }] *)
Definition COL_FLAG : Z := 0.
Definition COL_DESC : Z := 1.
Definition COL_STATUS : Z := 2.
Definition COL_BSTATUS : Z := 3.

(** ** The output table of [tt.h]

    [tt.c], the table utility of the repository, is not part of the
    sources at hand; [wdctl.c] uses five of its operations.  A table is
    modelled by what [wdctl.c] puts into it. *)

Module tt.
Record column := mk_column {
  col_name : string;
  col_whint : QArith_base.Q;
  col_flags : Z
}.

(** A line holds one data cell per defined column. *)
Definition line := list (option string).

Record table := mk_table {
  flags : Z;
  columns : list column;
  lines : list line
}.
End tt.

(** Modelled from the spec: [tt_new_table] of the generic tabular output
    utility ([tt.c] is not part of the sources).  A table is created empty.
    The operation allocates and may fail (the caller tests for NULL);
    whether it does is decided by the answer [ok]. *)
Definition tt_new_table (ok : bool) (flags : Z) : option tt.table :=
  if ok then Some (tt.mk_table flags [] []) else None.

(** Modelled from the spec: [tt_define_column] of the tabular output
    utility ([tt.c] is not part of the sources).  Columns are appended in
    the order they are defined; [ok] says whether the allocation succeeds. *)
Definition tt_define_column (ok : bool) (tb : tt.table)
    (name : string) (whint : QArith_base.Q) (flags : Z) : option tt.table :=
  if ok
  then Some (tt.mk_table (tt.flags tb)
               (tt.columns tb ++ [tt.mk_column name whint flags]) (tt.lines tb))
  else None.

(** Modelled from the spec: [tt_add_line] of the tabular output utility
    ([tt.c] is not part of the sources).  A new line is appended after the
    existing ones, with one empty cell per column; [ok] says whether the
    allocation succeeds.  Returns the table and the number of the new line,
    which stands for the [struct tt_line *] the caller gets: the line
    belongs to the table, and is updated in it. *)
Definition tt_add_line (ok : bool) (tb : tt.table) : option (tt.table * nat) :=
  if ok
  then Some (tt.mk_table (tt.flags tb) (tt.columns tb)
               (tt.lines tb ++ [replicate (length (tt.columns tb)) None]),
             length (tt.lines tb))
  else None.

(** Modelled from the spec: [tt_line_set_data] of the tabular output
    utility ([tt.c] is not part of the sources).  Sets the cell of line
    [ln] in column number [colnum]; a column number the table does not have
    changes nothing. *)
Definition tt_line_set_data (tb : tt.table) (ln : nat) (colnum : nat)
    (data : string) : tt.table :=
  match tt.lines tb !! ln with
  | Some cells =>
      tt.mk_table (tt.flags tb) (tt.columns tb)
        (<[ln := <[colnum := Some data]> cells]> (tt.lines tb))
  | None => tb
  end.

(** ** The world: kernel answers and the trace of observable actions *)

(** Result of a system call: a value, or failure with an [errno]. *)
Inductive sysres (A : Type) :=
| SysOk (a : A)
| SysErr (e : Z).
Arguments SysOk {A} a.
Arguments SysErr {A} e.

Inductive request :=
| WDIOC_GETSUPPORT
| WDIOC_GETSTATUS
| WDIOC_GETBOOTSTATUS
| WDIOC_GETTIMEOUT
| WDIOC_GETPRETIMEOUT
| WDIOC_GETTIMELEFT.

Inductive sighow := SIG_BLOCK_ALL | SIG_SETMASK_OLD.

(** How the system answers the program.  [sys_write n] is the answer to the
    [n]-th [write(2)] of the run (counted from 0); the [alloc_*] fields say
    whether the allocation behind a table operation succeeds, given how many
    columns or lines the table already has. *)
Record kernel := {
  sys_open : string -> sysres nat;       (* the new descriptor *)
  sys_getsupport : sysres watchdog_info;
  sys_getstatus : sysres Z;
  sys_getbootstatus : sysres Z;
  sys_gettimeout : sysres Z;
  sys_getpretimeout : sysres Z;
  sys_gettimeleft : sysres Z;
  sys_write : nat -> sysres unit;
  alloc_table : bool;
  alloc_column : nat -> bool;
  alloc_line : nat -> bool
}.

Inductive event :=
| Sigprocmask (how : sighow)
| Open (path : string) (ret : Z)
| Ioctl (fd : Z) (req : request) (ret : Z)
| Write (fd : Z) (buf : string) (ret : Z)
| Close (fd : Z)
| Stdout (text : string)
| Stderr (msg : string) (err : option Z)   (* warn/err give [Some errno] *)
| Usage (to_stderr : bool)
| PrintTable (tb : tt.table).

Record world := {
  errno : Z;
  nwrites : nat;
  trace : list event       (* oldest event first *)
}.

Definition world0 : world := {| errno := 0; nwrites := 0; trace := [] |}.

(** A computation returns a value, terminates the process ([exit], [err],
    [errx]), aborts on a failed [assert], or exhausts the fuel given to the
    disarm loop. *)
Inductive res (A : Type) :=
| Val (a : A)
| Exit (code : Z)
| Abort
| Fuel.
Arguments Val {A} a.
Arguments Exit {A} code.
Arguments Abort {A}.
Arguments Fuel {A}.

Definition M (A : Type) : Type := world -> res A * world.

#[global] Instance M_ret : MRet M := fun A a w => (Val a, w).

#[global] Instance M_bind : MBind M := fun A B f m w =>
  match m w with
  | (Val a, w') => f a w'
  | (Exit c, w') => (Exit c, w')
  | (Abort, w') => (Abort, w')
  | (Fuel, w') => (Fuel, w')
  end.

Definition emit (e : event) : M unit := fun w =>
  (Val tt, {| errno := errno w; nwrites := nwrites w; trace := trace w ++ [e] |}).

Definition get_errno : M Z := fun w => (Val (errno w), w).

Definition set_errno (e : Z) : M unit := fun w =>
  (Val tt, {| errno := e; nwrites := nwrites w; trace := trace w |}).

Definition exit {A} (code : Z) : M A := fun w => (Exit code, w).

Definition abort {A} : M A := fun w => (Abort, w).

Definition out_of_fuel {A} : M A := fun w => (Fuel, w).

(** [assert(b)] *)
Definition assert (b : bool) : M unit := if b then mret tt else abort.

(** [warnx], [warn], [errx], [err] of [c.h]/[err.h]: the message goes to the
    standard error; [warn] and [err] append the text of the current [errno]. *)
Definition warnx (msg : string) : M unit := emit (Stderr msg None).

Definition warn (msg : string) : M unit :=
  e ← get_errno; emit (Stderr msg (Some e)).

Definition errx {A} (code : Z) (msg : string) : M A :=
  emit (Stderr msg None);; exit code.

Definition err {A} (code : Z) (msg : string) : M A :=
  e ← get_errno; emit (Stderr msg (Some e));; exit code.

Definition printf (text : string) : M unit := emit (Stdout text).

(** A failing call returns -1 and sets [errno]. *)
Definition syscall {A} (r : sysres A) : M (option A) :=
  match r with
  | SysOk a => mret (Some a)
  | SysErr e => set_errno e;; mret None
  end.

(** ** Strings and [printf] conversions *)

Definition nl : string := String (ascii_of_nat 10) EmptyString.

Definition char_code (c : ascii) : Z := Z.of_nat (nat_of_ascii c).

(** [tolower] in the C locale. *)
Definition tolower (c : ascii) : ascii :=
  let n := char_code c in
  if (65 <=? n) && (n <=? 90) then ascii_of_nat (Z.to_nat (n + 32)) else c.

(** [strncasecmp(s1, s2, n)]: compares at most [n] characters, ignoring
    case, and stops at the end of either string. *)
Fixpoint strncasecmp (s1 s2 : string) (n : nat) {struct n} : Z :=
  match n with
  | O => 0
  | S n' =>
      match s1, s2 with
      | EmptyString, EmptyString => 0
      | EmptyString, String c2 _ => 0 - char_code (tolower c2)
      | String c1 _, EmptyString => char_code (tolower c1)
      | String c1 r1, String c2 r2 =>
          let d := char_code (tolower c1) - char_code (tolower c2) in
          if d =? 0 then strncasecmp r1 r2 n' else d
      end
  end.

(** [*(s + i)] for [i] up to the length of [s]; the terminating NUL reads
    as 0. *)
Definition char_at (s : string) (i : nat) : Z :=
  match String.get i s with
  | Some c => char_code c
  | None => 0
  end.

Fixpoint spaces (n : nat) : string :=
  match n with
  | O => EmptyString
  | S n' => String " "%char (spaces n')
  end.

(** [%-<w>s] *)
Definition fmt_ls (w : nat) (s : string) : string :=
  (s ++ spaces (w - String.length s))%string.

(** Right-justified in a field of [w] characters, as [%<w>i] does. *)
Definition pad_left (w : nat) (s : string) : string :=
  (spaces (w - String.length s) ++ s)%string.

Definition digit_char (d : Z) : ascii :=
  match String.get (Z.to_nat d) "0123456789abcdef" with
  | Some c => c
  | None => "0"%char
  end.

Fixpoint digits (base : Z) (fuel : nat) (n : Z) (acc : string) : string :=
  match fuel with
  | O => acc
  | S fuel' =>
      let acc' := String (digit_char (n mod base)) acc in
      if n / base =? 0 then acc' else digits base fuel' (n / base) acc'
  end.

(** [%i] of an [int]: at most ten digits. *)
Definition fmt_i (n : Z) : string :=
  if n <? 0 then ("-" ++ digits 10 10 (- n) "")%string else digits 10 10 n "".

(** [%x] of an [unsigned int]: at most eight digits, lower case, no prefix. *)
Definition fmt_x (n : Z) : string :=
  digits 16 8 (Z.land n UINT32_MAX) "".

(** Modelled from the spec: the length of the first name of a
    comma-separated list, as [string_to_idarray] and [string_to_bitmask] of
    [strutils.c] (not part of the sources) split it. *)
Fixpoint name_len (s : string) : nat :=
  match s with
  | EmptyString => O
  | String c r => if Ascii.eqb c ","%char then O else S (name_len r)
  end.

(** Modelled from the spec: the names of a comma-separated list as a
    [name2id] callback receives them: a pointer into the list (the rest of
    the list from the first character of the name) and the length of the
    name.  [start] says whether a name starts at the head of [s]. *)
Fixpoint names_from (start : bool) (s : string) : list (string * nat) :=
  match s with
  | EmptyString => if start then [(EmptyString, O)] else []
  | String c r =>
      (if start then [(s, name_len s)] else [])
        ++ names_from (Ascii.eqb c ","%char) r
  end.

(** Modelled from the spec: the names of a comma-separated list; an empty
    list holds one empty name. *)
Definition list_names (s : string) : list (string * nat) := names_from true s.

(** Modelled from the spec: the loop of [string_to_idarray] of [strutils.h]
    ([strutils.c] is not part of the sources).  The list is a
    comma-separated list of names; each name is converted by [name2id]; an
    unknown name (-1), a name whose id is already in the array, or more
    names than the array holds make the call fail with a negative result;
    otherwise the ids are stored in order from the start of the array and
    their number is returned. *)
Fixpoint idarray_fill (names : list (string * nat)) (ary : list Z) (n : nat)
    (arysz : nat) (name2id : string -> nat -> M Z) : M (Z * list Z) :=
  match names with
  | [] => mret (Z.of_nat n, ary)
  | (p, len) :: rest =>
      if (arysz <=? n)%nat then mret (-2, ary)
      else
        id ← name2id p len;
        if id =? -1 then mret (-1, ary)
        else if existsb (Z.eqb id) (take n ary) then mret (-1, ary)
        else idarray_fill rest (<[n := id]> ary) (S n) arysz name2id
  end.

(** Modelled from the spec: [string_to_idarray] of [strutils.h], on the
    names of the list. *)
Definition string_to_idarray (names : string) (ary : list Z) (arysz : nat)
    (name2id : string -> nat -> M Z) : M (Z * list Z) :=
  idarray_fill (list_names names) ary O arysz name2id.

(** Modelled from the spec: the loop of [string_to_bitmask] of [strutils.h]
    ([strutils.c] is not part of the sources).  The list is a
    comma-separated list of names; each name is converted by [name2flag]
    and or-ed into the mask; a name that [name2flag] rejects (negative
    result) makes the call fail with a non-zero result; 0 is returned on
    success. *)
Fixpoint bitmask_fill (names : list (string * nat)) (mask : Z)
    (name2flag : string -> nat -> M Z) : M (Z * Z) :=
  match names with
  | [] => mret (0, mask)
  | (p, len) :: rest =>
      flag ← name2flag p len;
      if flag <? 0 then mret (flag, mask)
      else bitmask_fill rest (Z.lor mask flag) name2flag
  end.

(** Modelled from the spec: [string_to_bitmask] of [strutils.h], on the
    names of the list. *)
Definition string_to_bitmask (names : string) (mask : Z)
    (name2flag : string -> nat -> M Z) : M (Z * Z) :=
  bitmask_fill (list_names names) mask name2flag.

(** [for] loops over a fixed range or table, threading the variables the
    body updates. *)
Fixpoint for_each {A S : Type} (l : list A) (body : S -> A -> M S) (s : S)
    : M S :=
  match l with
  | [] => mret s
  | a :: rest => s' ← body s a; for_each rest body s'
  end.

(** The indices [0 <= i < n] of a loop [for (i = 0; i < n; i++)]. *)
Definition upto (n : Z) : list Z := map Z.of_nat (seq 0 (Z.to_nat n)).

(** ** The program *)

Section wdctl.
Context {H : headers}.
Variable os : kernel.

Definition wdflags : list wdflag.t := [
  wdflag.mk WDIOF_CARDRESET "CARDRESET" "Card previously reset the CPU";
  wdflag.mk WDIOF_EXTERN1 "EXTERN1" "External relay 1";
  wdflag.mk WDIOF_EXTERN2 "EXTERN2" "External relay 2";
  wdflag.mk WDIOF_FANFAULT "FANFAULT" "Fan failed";
  wdflag.mk WDIOF_KEEPALIVEPING "KEEPALIVEPING" "Keep alive ping reply";
  wdflag.mk WDIOF_MAGICCLOSE "MAGICCLOSE" "Supports magic close char";
  wdflag.mk WDIOF_OVERHEAT "OVERHEAT" "Reset due to CPU overheat";
  wdflag.mk WDIOF_POWEROVER "POWEROVER" "Power over voltage";
  wdflag.mk WDIOF_POWERUNDER "POWERUNDER" "Power bad/power fault";
  wdflag.mk WDIOF_PRETIMEOUT "PRETIMEOUT" "Pretimeout (in seconds)";
  wdflag.mk WDIOF_SETTIMEOUT "SETTIMEOUT" "Set timeout (in seconds)"
].

Definition infos : list colinfo.t := [
  colinfo.mk "FLAG" (QArith_base.Qmake 14 1) 0 "flag name";
  colinfo.mk "DESCRIPTION" (QArith_base.Qmake 1 10) TT_FL_TRUNC
    "flag description";
  colinfo.mk "STATUS" (QArith_base.Qmake 1 1) TT_FL_RIGHT "flag status";
  colinfo.mk "BOOT-STATUS" (QArith_base.Qmake 1 1) TT_FL_RIGHT
    "flag boot status"
].

Definition NCOLS : Z := Z.of_nat (length infos).

(** The file-scope variables [columns] and [ncolumns]. *)
Record globals := {
  columns : list Z;
  ncolumns : Z
}.

(** converts flag name to flag bit *)
Fixpoint name2bit_from (tbl : list wdflag.t) (name : string) (namesz : nat)
    : M Z :=
  match tbl with
  | [] => warnx ("unknown flag: " ++ name);; mret (-1)
  | fl :: rest =>
      let cn := wdflag.name fl in
      if (strncasecmp name cn namesz =? 0) && (char_at cn namesz =? 0)
      then mret (wdflag.flag fl)
      else name2bit_from rest name namesz
  end.

Definition name2bit (name : string) (namesz : nat) : M Z :=
  name2bit_from wdflags name namesz.

Fixpoint column2id_from (i : Z) (tbl : list colinfo.t) (name : string)
    (namesz : nat) : M Z :=
  match tbl with
  | [] => warnx ("unknown column: " ++ name);; mret (-1)
  | ci :: rest =>
      let cn := colinfo.name ci in
      if (strncasecmp name cn namesz =? 0) && (char_at cn namesz =? 0)
      then mret i
      else column2id_from (i + 1) rest name namesz
  end.

Definition column2id (name : string) (namesz : nat) : M Z :=
  column2id_from 0 infos name namesz.

Definition get_column_id (g : globals) (num : Z) : M Z :=
  assert (Z.of_nat (length (columns g)) =? NCOLS);;
  assert (num <? ncolumns g);;
  let id := default 0 (columns g !! Z.to_nat num) in
  assert (id <? NCOLS);;
  mret id.

(** [&infos[get_column_id(num)]]; an index outside the array has no
    defined behaviour in C and stops the model. *)
Definition get_column_info (g : globals) (num : Z) : M colinfo.t :=
  id ← get_column_id g num;
  if id <? 0 then abort
  else
    match infos !! Z.to_nat id with
    | Some ci => mret ci
    | None => abort
    end.

Definition usage {A} (to_stderr : bool) : M A :=
  emit (Usage to_stderr);;
  exit (if to_stderr then EXIT_FAILURE else EXIT_SUCCESS).

Definition add_flag_line (g : globals) (tb : tt.table) (wd : wdinfo)
    (fl : wdflag.t) : M tt.table :=
  match tt_add_line (alloc_line os (length (tt.lines tb))) tb with
  | None => warn "failed to add line to output";; mret tb
  | Some (tb, line) =>
      for_each (upto (ncolumns g)) (fun tb i =>
        id ← get_column_id g i;
        let str :=
          if id =? COL_FLAG then Some (wdflag.name fl)
          else if id =? COL_DESC then Some (wdflag.description fl)
          else if id =? COL_STATUS then
            Some (if Z.land (status wd) (wdflag.flag fl) =? 0 then "0" else "1")
          else if id =? COL_BSTATUS then
            Some (if Z.land (bstatus wd) (wdflag.flag fl) =? 0 then "0" else "1")
          else None in
        match str with
        | Some str => mret (tt_line_set_data tb line (Z.to_nat i) str)
        | None => mret tb
        end) tb
  end.

(** The column-defining loop of [show_flags]; [None] is the [goto done]. *)
Fixpoint define_columns (g : globals) (nums : list Z) (tb : tt.table)
    : M (option tt.table) :=
  match nums with
  | [] => mret (Some tb)
  | i :: rest =>
      col ← get_column_info g i;
      match tt_define_column (alloc_column os (length (tt.columns tb))) tb
              (colinfo.name col) (colinfo.whint col) (colinfo.flags col) with
      | None => warnx "failed to initialize output column";; mret None
      | Some tb => define_columns g rest tb
      end
  end.

(** One iteration of the loop over [wdflags] in [show_flags]. *)
Definition show_flags_step (g : globals) (wd : wdinfo) (wanted : Z)
    (s : tt.table * Z) (fl : wdflag.t) : M (tt.table * Z) :=
  let '(tb, flags) := s in
  tb ← (if negb (wanted =? 0) && (Z.land wanted (wdflag.flag fl) =? 0)
        then mret tb (* ignore *)
        else if negb (Z.land flags (wdflag.flag fl) =? 0)
        then add_flag_line g tb wd fl
        else mret tb);
  mret (tb, Z.land flags (u32_not (wdflag.flag fl))).

Definition show_flags (g : globals) (wd : wdinfo) (tt_flags : Z) (wanted : Z)
    : M Z :=
  (* create output table *)
  match tt_new_table (alloc_table os) tt_flags with
  | None => warn "failed to initialize output table";; mret (-1)
  | Some tb =>
      (* define columns *)
      r ← define_columns g (upto (ncolumns g)) tb;
      match r with
      | None => mret (-1)
      | Some tb =>
          (* fill-in table with data
             -- one line for each supported flag (option) *)
          let flags := Z.land (options (ident wd)) UINT32_MAX in
          '(tb, flags) ← for_each wdflags (show_flags_step g wd wanted)
                           (tb, flags);
          (if negb (flags =? 0)
           then warnx (device wd ++ ": unknown flags 0x" ++ fmt_x flags ++ nl)
           else mret tt);;
          emit (PrintTable tb);;
          mret 0
      end
  end.

(** *** System calls *)

Definition open (path : string) : M Z :=
  r ← syscall (sys_open os path);
  let fd := match r with Some n => Z.of_nat n | None => -1 end in
  emit (Open path fd);;
  mret fd.

(** [ioctl(fd, req, &field)]: on success the answer is stored through
    [store] and 0 is returned; on failure the field is left alone. *)
Definition ioctl {A} (fd : Z) (req : request) (ans : sysres A)
    (store : wdinfo -> A -> wdinfo) (wd : wdinfo) : M (Z * wdinfo) :=
  r ← syscall ans;
  match r with
  | Some a => emit (Ioctl fd req 0);; mret (0, store wd a)
  | None => emit (Ioctl fd req (-1));; mret (-1, wd)
  end.

(** The kernel's answer to the next [write(2)] of the run. *)
Definition next_write : M (sysres unit) := fun w =>
  (Val (sys_write os (nwrites w)),
   {| errno := errno w; nwrites := S (nwrites w); trace := trace w |}).

Definition write (fd : Z) (buf : string) : M Z :=
  ans ← next_write;
  r ← syscall ans;
  let n := match r with
           | Some _ => Z.of_nat (String.length buf)
           | None => -1
           end in
  emit (Write fd buf n);;
  mret n.

Definition close (fd : Z) : M unit := emit (Close fd).

Definition sigprocmask (how : sighow) : M unit := emit (Sigprocmask how).

(** The disarm loop [for (;;)] of [read_watchdog]; [fuel] bounds the number
    of iterations the model follows. *)
Fixpoint disarm (fuel : nat) (wd : wdinfo) (fd : Z) : M unit :=
  match fuel with
  | O => out_of_fuel
  | S fuel' =>
      (* We just opened this to query the state, not to arm
         it hence use the magic close character *)
      r ← write fd "V";
      if 0 <=? r then mret tt
      else
        e ← get_errno;
        if negb (e =? EINTR)
        then warn (device wd ++ ": failed to disarm watchdog")
        else
          (* Let's try hard, since if we don't get this right
             the machine might end up rebooting. *)
          disarm fuel' wd fd
  end.

(** Warning: successfully opened watchdog has to be properly closed with
    magic close character otherwise the machine will be rebooted!

    [assert(wd->device)] holds of every [string]; blocking all signals and
    restoring the old mask are the two [sigprocmask] events. *)
Definition read_watchdog (fuel : nat) (wd : wdinfo) : M (Z * wdinfo) :=
  sigprocmask SIG_BLOCK_ALL;;
  fd ← open (device wd);
  (if fd <? 0
   then
     e ← get_errno;
     (if e =? EBUSY
      then errx EXIT_FAILURE
             (device wd ++ ": watchdog already in use, terminating.")
      else mret tt);;
     err EXIT_FAILURE (device wd ++ ": failed to open watchdog device")
   else mret tt);;
  '(r, wd) ← ioctl fd WDIOC_GETSUPPORT (sys_getsupport os) set_ident wd;
  wd ← (if r <? 0
        then
          warn (device wd ++ ": failed to get information about watchdog");;
          mret wd
        else
          '(_, wd) ← ioctl fd WDIOC_GETSTATUS (sys_getstatus os) set_status wd;
          '(_, wd) ← ioctl fd WDIOC_GETBOOTSTATUS (sys_getbootstatus os)
                       set_bstatus wd;
          '(r, wd) ← ioctl fd WDIOC_GETTIMEOUT (sys_gettimeout os)
                       set_timeout wd;
          let wd := if 0 <=? r then set_has_timeout wd true else wd in
          '(r, wd) ← ioctl fd WDIOC_GETPRETIMEOUT (sys_getpretimeout os)
                       set_pretimeout wd;
          let wd := if 0 <=? r then set_has_pretimeout wd true else wd in
          '(r, wd) ← ioctl fd WDIOC_GETTIMELEFT (sys_gettimeleft os)
                       set_timeleft wd;
          let wd := if 0 <=? r then set_has_timeleft wd true else wd in
          mret wd);
  disarm fuel wd fd;;
  close fd;;
  sigprocmask SIG_SETMASK_OLD;;
  mret (0, wd).

(** [printf("%-15s%2i seconds\n", label, value)] *)
Definition timeout_line (label : string) (value : Z) : string :=
  (fmt_ls 15 label ++ pad_left 2 (fmt_i value) ++ " seconds" ++ nl)%string.

Definition show_timeouts (wd : wdinfo) : M unit :=
  (if has_timeout wd
   then printf (timeout_line "Timeout:" (timeout wd)) else mret tt);;
  (if has_pretimeout wd
   then printf (timeout_line "Pre-timeout:" (pretimeout wd)) else mret tt);;
  (if has_timeleft wd
   then printf (timeout_line "Timeleft:" (timeleft wd)) else mret tt).

(** [printf("%-15s%s [version %x]\n", "Identity:", identity, version)] *)
Definition identity_line (id : watchdog_info) : string :=
  (fmt_ls 15 "Identity:" ++ identity id ++ " [version "
     ++ fmt_x (firmware_version id) ++ "]" ++ nl)%string.

(** *** [main] *)

(** The local variables of [main] that the option loop updates, with the
    file-scope [columns]/[ncolumns]. *)
Record locals := {
  wd : wdinfo;
  tt_flags : Z;
  noflags : bool;
  noident : bool;
  notimeouts : bool;
  wanted : Z;           (* uint32_t *)
  glob : globals
}.

Definition set_wd (st : locals) (v : wdinfo) : locals :=
  {| wd := v; tt_flags := tt_flags st; noflags := noflags st;
     noident := noident st; notimeouts := notimeouts st;
     wanted := wanted st; glob := glob st |}.

Definition set_tt_flags (st : locals) (v : Z) : locals :=
  {| wd := wd st; tt_flags := v; noflags := noflags st;
     noident := noident st; notimeouts := notimeouts st;
     wanted := wanted st; glob := glob st |}.

Definition set_noflags (st : locals) (v : bool) : locals :=
  {| wd := wd st; tt_flags := tt_flags st; noflags := v;
     noident := noident st; notimeouts := notimeouts st;
     wanted := wanted st; glob := glob st |}.

Definition set_noident (st : locals) (v : bool) : locals :=
  {| wd := wd st; tt_flags := tt_flags st; noflags := noflags st;
     noident := v; notimeouts := notimeouts st;
     wanted := wanted st; glob := glob st |}.

Definition set_notimeouts (st : locals) (v : bool) : locals :=
  {| wd := wd st; tt_flags := tt_flags st; noflags := noflags st;
     noident := noident st; notimeouts := v;
     wanted := wanted st; glob := glob st |}.

Definition set_wanted (st : locals) (v : Z) : locals :=
  {| wd := wd st; tt_flags := tt_flags st; noflags := noflags st;
     noident := noident st; notimeouts := notimeouts st;
     wanted := v; glob := glob st |}.

Definition set_glob (st : locals) (v : globals) : locals :=
  {| wd := wd st; tt_flags := tt_flags st; noflags := noflags st;
     noident := noident st; notimeouts := notimeouts st;
     wanted := wanted st; glob := v |}.

Definition set_device (w : wdinfo) (v : string) : wdinfo :=
  {| device := v; timeout := timeout w; timeleft := timeleft w;
     pretimeout := pretimeout w; status := status w; bstatus := bstatus w;
     ident := ident w; has_timeout := has_timeout w;
     has_timeleft := has_timeleft w; has_pretimeout := has_pretimeout w |}.

(** [struct wdinfo wd = { .device = _PATH_WATCHDOG_DEV }] and the zeroed
    statics. *)
Definition locals0 : locals :=
  {| wd := {| device := _PATH_WATCHDOG_DEV; timeout := 0; timeleft := 0;
              pretimeout := 0; status := 0; bstatus := 0;
              ident := {| options := 0; firmware_version := 0;
                          identity := "" |};
              has_timeout := false; has_timeleft := false;
              has_pretimeout := false |};
     tt_flags := 0; noflags := false; noident := false; notimeouts := false;
     wanted := 0;
     glob := {| columns := [0; 0; 0; 0]; ncolumns := 0 |} |}.

(** [columns[ncolumns++] = id] *)
Definition push_column (g : globals) (id : Z) : globals :=
  {| columns := <[Z.to_nat (ncolumns g) := id]> (columns g);
     ncolumns := ncolumns g + 1 |}.

(** The body of the [getopt_long] loop for the option character [c] with
    argument [optarg]. *)
Definition main_option (st : locals) (c : ascii) (optarg : string)
    : M locals :=
  match c with
  | "d"%char => mret (set_wd st (set_device (wd st) optarg))
  | "o"%char =>
      '(n, ary) ← string_to_idarray optarg (columns (glob st))
                    (length (columns (glob st))) column2id;
      let st := set_glob st {| columns := ary; ncolumns := n |} in
      if n <? 0 then exit EXIT_FAILURE else mret st
  | "f"%char =>
      '(rc, mask) ← string_to_bitmask optarg (wanted st) name2bit;
      let st := set_wanted st (Z.land mask UINT32_MAX) in
      if negb (rc =? 0) then exit EXIT_FAILURE else mret st
  | "V"%char => printf UTIL_LINUX_VERSION;; exit EXIT_SUCCESS
  | "h"%char => usage false
  | "F"%char => mret (set_noflags st true)
  | "I"%char => mret (set_noident st true)
  | "T"%char => mret (set_notimeouts st true)
  | "n"%char => mret (set_tt_flags st (Z.lor (tt_flags st) TT_FL_NOHEADINGS))
  | "r"%char => mret (set_tt_flags st (Z.lor (tt_flags st) TT_FL_RAW))
  | "P"%char => mret (set_tt_flags st (Z.lor (tt_flags st) TT_FL_EXPORT))
  | _ => usage true
  end.

(** One turn of the [getopt_long] loop: [o] is the option character and
    its argument. *)
Definition option_body (st : locals) (o : ascii * string) : M locals :=
  main_option st (fst o) (snd o).

(** [main], in three parts: the options ([parse_options], up to the call
    of [read_watchdog]), the device session, and the [report].  [opts] is
    what the successive calls of [getopt_long] return (option character and
    argument, ['?'] for an option it rejects); [operands] says whether
    arguments remain after the options ([optind < argc]).  The value
    returned is the exit status.  The locale set-up and the flush of the
    standard output at exit are outside the model. *)
Definition parse_options (opts : list (ascii * string)) (operands : bool)
    : M locals :=
  st ← for_each opts option_body locals0;
  (if negb (wanted st =? 0) && noflags st
   then errx EXIT_FAILURE "--flags and --noflags are mutually exclusive"
   else mret tt);;
  let g :=
    if ncolumns (glob st) =? 0
    then (* default columns *)
      push_column (push_column (push_column (push_column (glob st)
        COL_FLAG) COL_DESC) COL_STATUS) COL_BSTATUS
    else glob st in
  (if operands then usage true else mret tt);;
  mret (set_glob st g).

(** The second half of [main]: what is printed once the session is over. *)
Definition report (st : locals) (wd : wdinfo) : M unit :=
  (if negb (noident st) then printf (identity_line (ident wd))
   else mret tt);;
  (if negb (notimeouts st) then show_timeouts wd else mret tt);;
  (if negb (noflags st) && negb (noident st && notimeouts st)
   then printf nl else mret tt);;
  (if negb (noflags st)
   then show_flags (glob st) wd (tt_flags st) (wanted st);; mret tt
   else mret tt).

Definition main (fuel : nat) (opts : list (ascii * string)) (operands : bool)
    : M Z :=
  st ← parse_options opts operands;
  '(rc, wd) ← read_watchdog fuel (wd st);
  (if negb (rc =? 0) then mret tt else report st wd);;
  mret (if rc =? 0 then EXIT_SUCCESS else EXIT_FAILURE).

(** A run of the program from a fresh process state: its result and the
    final world. *)
Definition run (fuel : nat) (opts : list (ascii * string)) (operands : bool)
    : res Z * world :=
  main fuel opts operands world0.

End wdctl.

(** The exit status of a run that ends. *)
Definition exit_status (r : res Z) : option Z :=
  match r with
  | Val c => Some c
  | Exit c => Some c
  | Abort => None
  | Fuel => None
  end.

(** ** Values of the header constants on Linux

    The [WDIOF_*] bits of [linux/watchdog.h] and the error numbers of
    [errno.h]; the table flags, the device path and the version text stand
    for those of the build. *)

Definition linux : headers := {|
  WDIOF_OVERHEAT := 0x0001;
  WDIOF_FANFAULT := 0x0002;
  WDIOF_EXTERN1 := 0x0004;
  WDIOF_EXTERN2 := 0x0008;
  WDIOF_POWERUNDER := 0x0010;
  WDIOF_CARDRESET := 0x0020;
  WDIOF_POWEROVER := 0x0040;
  WDIOF_SETTIMEOUT := 0x0080;
  WDIOF_MAGICCLOSE := 0x0100;
  WDIOF_PRETIMEOUT := 0x0200;
  WDIOF_KEEPALIVEPING := 0x8000;
  TT_FL_RAW := 2;
  TT_FL_NOHEADINGS := 8;
  TT_FL_EXPORT := 16;
  TT_FL_TRUNC := 32;
  TT_FL_RIGHT := 128;
  _PATH_WATCHDOG_DEV := "/dev/watchdog";
  UTIL_LINUX_VERSION := "wdctl from util-linux";
  EBUSY := 16;
  EINTR := 4
|}.

(** The device of the specification's example: identity "WD1", firmware
    0x12, KEEPALIVEPING and MAGICCLOSE supported, KEEPALIVEPING set, a
    timeout of 30 seconds, no pretimeout and no timeleft. *)
Definition wd1 : kernel := {|
  sys_open := fun _ => SysOk 3%nat;
  sys_getsupport :=
    SysOk {| options := 0x8100; firmware_version := 0x12; identity := "WD1" |};
  sys_getstatus := SysOk 0x8000;
  sys_getbootstatus := SysOk 0;
  sys_gettimeout := SysOk 30;
  sys_getpretimeout := SysErr 95;
  sys_gettimeleft := SysErr 95;
  sys_write := fun _ => SysOk tt;
  alloc_table := true;
  alloc_column := fun _ => true;
  alloc_line := fun _ => true
|}.

(** ** Vocabulary of the properties *)

(** Actions on the watchdog device. *)
Definition is_device_io (e : event) : bool :=
  match e with
  | Open _ _ | Ioctl _ _ _ | Write _ _ _ | Close _ => true
  | _ => false
  end.

(** Text written to the standard streams. *)
Definition is_message (e : event) : bool :=
  match e with
  | Stdout _ | Stderr _ _ | Usage _ => true
  | _ => false
  end.

(** What the device session does: signal mask, device I/O, diagnostics. *)
Definition is_session (e : event) : bool :=
  match e with
  | Sigprocmask _ | Open _ _ | Ioctl _ _ _ | Write _ _ _ | Close _
  | Stderr _ _ => true
  | _ => false
  end.

Definition is_stderr (e : event) : bool :=
  match e with
  | Stderr _ _ => true
  | _ => false
  end.

Definition is_stdout (e : event) : bool :=
  match e with
  | Stdout _ => true
  | _ => false
  end.

(** [emits P m]: whatever [m] does, it only appends events satisfying [P]
    to the trace. *)
Definition emits {A} (P : event -> bool) (m : M A) : Prop :=
  forall w r w', m w = (r, w') ->
    exists evs, trace w' = trace w ++ evs /\ forallb P evs = true.

(** *** The device session, event by event *)

Definition ioctl_ret {A} (r : sysres A) : Z :=
  match r with
  | SysOk _ => 0
  | SysErr _ => -1
  end.

Definition is_ok {A} (r : sysres A) : bool :=
  match r with
  | SysOk _ => true
  | SysErr _ => false
  end.

(** The value a field holds after a query: the answer, or what it held. *)
Definition answer {A} (old : A) (r : sysres A) : A :=
  match r with
  | SysOk a => a
  | SysErr _ => old
  end.

(** The queries of a session on descriptor [fd], in order. *)
Definition query_events (os : kernel) (dev : string) (fd : Z) : list event :=
  match sys_getsupport os with
  | SysErr e =>
      [Ioctl fd WDIOC_GETSUPPORT (-1);
       Stderr (dev ++ ": failed to get information about watchdog") (Some e)]
  | SysOk _ =>
      [Ioctl fd WDIOC_GETSUPPORT 0;
       Ioctl fd WDIOC_GETSTATUS (ioctl_ret (sys_getstatus os));
       Ioctl fd WDIOC_GETBOOTSTATUS (ioctl_ret (sys_getbootstatus os));
       Ioctl fd WDIOC_GETTIMEOUT (ioctl_ret (sys_gettimeout os));
       Ioctl fd WDIOC_GETPRETIMEOUT (ioctl_ret (sys_getpretimeout os));
       Ioctl fd WDIOC_GETTIMELEFT (ioctl_ret (sys_gettimeleft os))]
  end.

(** The status record after the queries. *)
Definition queried (os : kernel) (wd : wdinfo) : wdinfo :=
  match sys_getsupport os with
  | SysErr _ => wd
  | SysOk info =>
      {| device := device wd;
         timeout := answer (timeout wd) (sys_gettimeout os);
         timeleft := answer (timeleft wd) (sys_gettimeleft os);
         pretimeout := answer (pretimeout wd) (sys_getpretimeout os);
         status := answer (status wd) (sys_getstatus os);
         bstatus := answer (bstatus wd) (sys_getbootstatus os);
         ident := info;
         has_timeout := has_timeout wd || is_ok (sys_gettimeout os);
         has_timeleft := has_timeleft wd || is_ok (sys_gettimeleft os);
         has_pretimeout := has_pretimeout wd || is_ok (sys_getpretimeout os) |}
  end.

(** The return value of a [write] of one character. *)
Definition write_ret (r : sysres unit) : Z :=
  match r with
  | SysOk _ => 1
  | SysErr _ => -1
  end.

(** The warning that follows a disarm write which failed for good. *)
Definition disarm_warning (dev : string) (r : sysres unit) : list event :=
  match r with
  | SysOk _ => []
  | SysErr e => [Stderr (dev ++ ": failed to disarm watchdog") (Some e)]
  end.

(** The timing lines a device whose queries answer [os] is due: one per
    query that succeeded, none for one that failed. *)
Definition timing_line (label : string) (r : sysres Z) : list event :=
  match r with
  | SysOk v => [Stdout (timeout_line label v)]
  | SysErr _ => []
  end.

Definition timing_lines (os : kernel) : list event :=
  timing_line "Timeout:" (sys_gettimeout os)
    ++ timing_line "Pre-timeout:" (sys_getpretimeout os)
    ++ timing_line "Timeleft:" (sys_gettimeleft os).

(** The end of [read_watchdog], from the disarm loop on. *)
Definition session_end {H : headers} (os : kernel) (fuel : nat) (wd : wdinfo) (fd : Z) : M (Z * wdinfo) :=
  disarm os fuel wd fd;;
  close fd;;
  sigprocmask SIG_SETMASK_OLD;;
  mret (0, wd).

(** The two fatal diagnostics of a failed [open]. *)
Definition busy_message (dev : string) : string :=
  (dev ++ ": watchdog already in use, terminating.")%string.

Definition open_failure_message (dev : string) : string :=
  (dev ++ ": failed to open watchdog device")%string.

(** What a failed [open] with error [e] leaves on the standard error: the
    busy message alone, or the generic message with the reason [e]. *)
Definition open_error {H : headers} (dev : string) (e : Z) : event :=
  if e =? EBUSY then Stderr (busy_message dev) None
  else Stderr (open_failure_message dev) (Some e).

(** *** The flag table *)

Section flag_vocabulary.
Context {H : headers}.

(** The union of the bits of the known flags. *)
Definition known_flags : Z :=
  fold_right Z.lor 0 (map wdflag.flag wdflags).

(** The supported-options bitmask, as the [uint32_t] it is. *)
Definition supported_options (wd : wdinfo) : Z :=
  Z.land (options (ident wd)) UINT32_MAX.

(** The supported options that are no known flag. *)
Definition unknown_flags (wd : wdinfo) : Z :=
  Z.land (supported_options wd) (Z.lnot known_flags).

Definition unknown_flags_message (wd : wdinfo) : string :=
  (device wd ++ ": unknown flags 0x" ++ fmt_x (unknown_flags wd) ++ nl)%string.

(** The warning about unknown flags, when there is any. *)
Definition unknown_flags_warning (wd : wdinfo) : list event :=
  if unknown_flags wd =? 0 then []
  else [Stderr (unknown_flags_message wd) None].

(** The complaint of [add_flag_line] about a line that cannot be added. *)
Definition is_add_line_warning (e : event) : bool :=
  match e with
  | Stderr msg (Some _) => String.eqb msg "failed to add line to output"
  | _ => false
  end.

(** No two entries of a flag table share a bit. *)
Fixpoint disjoint_flags (l : list wdflag.t) : bool :=
  match l with
  | [] => true
  | fl :: rest =>
      forallb (fun fl' => Z.land (wdflag.flag fl) (wdflag.flag fl') =? 0) rest
        && disjoint_flags rest
  end.

(** Whether the loop of [show_flags] adds a row for [fl] when the bits
    still in [flags] are [flags]. *)
Definition row_due (wanted flags : Z) (fl : wdflag.t) : bool :=
  negb (Z.land flags (wdflag.flag fl) =? 0)
    && ((wanted =? 0) || negb (Z.land wanted (wdflag.flag fl) =? 0)).

(** A known flag is due a row when the hardware supports it and, if a
    filter was given ([wanted] is not 0), the filter selects it. *)
Definition flag_selected (wd : wdinfo) (wanted : Z) (fl : wdflag.t) : bool :=
  negb (Z.land (supported_options wd) (wdflag.flag fl) =? 0)
    && ((wanted =? 0) || negb (Z.land wanted (wdflag.flag fl) =? 0)).

Definition selected_flags (wd : wdinfo) (wanted : Z) : list wdflag.t :=
  List.filter (flag_selected wd wanted) wdflags.

(** The cell of a flag's row in the column [id]. *)
Definition flag_cell (wd : wdinfo) (fl : wdflag.t) (id : Z) : option string :=
  if id =? COL_FLAG then Some (wdflag.name fl)
  else if id =? COL_DESC then Some (wdflag.description fl)
  else if id =? COL_STATUS then
    Some (if Z.land (status wd) (wdflag.flag fl) =? 0 then "0" else "1")
  else if id =? COL_BSTATUS then
    Some (if Z.land (bstatus wd) (wdflag.flag fl) =? 0 then "0" else "1")
  else None.

(** The selected output columns, in order. *)
Definition selected_columns (g : globals) : list Z :=
  take (Z.to_nat (ncolumns g)) (columns g).

(** The row of a flag: its cells in the selected columns. *)
Definition flag_row (g : globals) (wd : wdinfo) (fl : wdflag.t)
    : list (option string) :=
  map (flag_cell wd fl) (selected_columns g).

(** The selected columns are valid: between one and four ids of known
    columns, none twice, in an array of four. *)
Definition columns_ok (g : globals) : bool :=
  (length (columns g) =? 4)%nat
    && (0 <? ncolumns g) && (ncolumns g <=? 4)
    && forallb (fun id => (0 <=? id) && (id <? 4)) (selected_columns g)
    && bool_decide (NoDup (selected_columns g)).

(** What the loop of [show_flags] leaves in [flags]. *)
Definition cleared (l : list wdflag.t) (flags : Z) : Z :=
  fold_left (fun f fl => Z.land f (u32_not (wdflag.flag fl))) l flags.

(** The cells of a new line after [k] turns of the loop over the columns
    in [add_flag_line], in a table of [m] columns. *)
Definition cells_after (g : globals) (wd : wdinfo) (fl : wdflag.t)
    (m k : nat) : list (option string) :=
  map (flag_cell wd fl) (take k (columns g)) ++ replicate (m - k) None.

End flag_vocabulary.

(** *** Command lines *)

(** Nothing in a trace is an action on the watchdog device. *)
Definition no_device_io (tr : list event) : bool :=
  forallb (fun e => negb (is_device_io e)) tr.

(** Whether the option [c] is among the options of a command line. *)
Definition has_option (c : ascii) (opts : list (ascii * string)) : bool :=
  existsb (fun o => Ascii.eqb (fst o) c) opts.

(** The supported options a device reports; none when the capability
    query fails. *)
Definition reported_options (os : kernel) : Z :=
  match sys_getsupport os with
  | SysOk info => options info
  | SysErr _ => 0
  end.

(** *** What a report shows *)

(** The lines [show_timeouts] prints for a status record. *)
Definition timeout_events (wd : wdinfo) : list event :=
  (if has_timeout wd then [Stdout (timeout_line "Timeout:" (timeout wd))]
   else [])
  ++ (if has_pretimeout wd
      then [Stdout (timeout_line "Pre-timeout:" (pretimeout wd))] else [])
  ++ (if has_timeleft wd
      then [Stdout (timeout_line "Timeleft:" (timeleft wd))] else []).

(** What [report] prints above the flag table. *)
Definition report_head {H : headers} (st : locals) (wd : wdinfo)
    : list event :=
  (if noident st then [] else [Stdout (identity_line (ident wd))])
  ++ (if notimeouts st then [] else timeout_events wd)
  ++ (if negb (noflags st) && negb (noident st && notimeouts st)
      then [Stdout nl] else []).

Definition is_separator (e : event) : bool :=
  match e with
  | Stdout s => String.eqb s nl
  | _ => false
  end.

Definition is_identity_line (e : event) : bool :=
  match e with
  | Stdout s => String.prefix "Identity:" s
  | _ => false
  end.

Definition is_timeout_line (e : event) : bool :=
  match e with
  | Stdout s =>
      String.prefix "Timeout:" s || String.prefix "Pre-timeout:" s
        || String.prefix "Timeleft:" s
  | _ => false
  end.

Definition is_table (e : event) : bool :=
  match e with
  | PrintTable _ => true
  | _ => false
  end.

(** The blank separator line is on the standard output. *)
Definition separator_printed (tr : list event) : bool :=
  existsb is_separator tr.

(** The identity line or at least one timeout line is on the standard
    output. *)
Definition upper_section_printed (tr : list event) : bool :=
  existsb (fun e => is_identity_line e || is_timeout_line e) tr.

Definition flag_table_printed (tr : list event) : bool :=
  existsb is_table tr.

(** The value of a hexadecimal numeral of digits [0-9a-f], most
    significant digit first. *)
Definition hex_digit (c : ascii) : option Z :=
  let n := char_code c in
  if (48 <=? n) && (n <=? 57) then Some (n - 48)
  else if (97 <=? n) && (n <=? 102) then Some (n - 87)
  else None.

Fixpoint hex_value_from (a : Z) (s : string) : option Z :=
  match s with
  | EmptyString => Some a
  | String c r =>
      match hex_digit c with
      | Some d => hex_value_from (16 * a + d) r
      | None => None
      end
  end.

Definition hex_value (s : string) : option Z :=
  match s with
  | EmptyString => None
  | _ => hex_value_from 0 s
  end.

(** *** Names of flags and columns *)

Section name_vocabulary.
Context {H : headers}.

(** Every known flag is a non-zero [uint32_t]. *)
Definition flags_positive : bool :=
  forallb (fun fl => (0 <? wdflag.flag fl) && (wdflag.flag fl <=? UINT32_MAX))
    wdflags.

Definition is_Some_b {A} (o : option A) : bool :=
  match o with
  | Some _ => true
  | None => false
  end.

(** The comparison [column2id] makes between a name of [namesz] characters
    and the name of a column. *)
Definition column_matches (name : string) (namesz : nat) (ci : colinfo.t)
    : bool :=
  (strncasecmp name (colinfo.name ci) namesz =? 0)
    && (char_at (colinfo.name ci) namesz =? 0).

(** The number of the first column of [tbl] that a name matches, counting
    from [i]. *)
Fixpoint first_match (i : Z) (tbl : list colinfo.t) (name : string)
    (namesz : nat) : option Z :=
  match tbl with
  | [] => None
  | ci :: rest =>
      if column_matches name namesz ci then Some i
      else first_match (i + 1) rest name namesz
  end.

(** The known column a name stands for, if any. *)
Definition column_of (name : string) (namesz : nat) : option Z :=
  first_match 0 infos name namesz.

(** The columns that the names of a [-o] list stand for, in order; [None]
    for an unknown name. *)
Definition columns_named (optarg : string) : list (option Z) :=
  map (fun p => column_of (fst p) (snd p)) (list_names optarg).

(** A [-o] list to be rejected: a name is unknown, or a column is listed
    more than once. *)
Definition bad_column_list (optarg : string) : bool :=
  existsb (fun id => negb (is_Some_b id)) (columns_named optarg)
    || negb (bool_decide (NoDup (columns_named optarg))).

End name_vocabulary.

(** The state of the column selection while the options are read: the
    array has its four entries, and either nothing is selected yet or the
    selection is valid. *)
Definition columns_state_ok (g : globals) : Prop :=
  length (columns g) = 4%nat /\ (ncolumns g = 0 \/ columns_ok g = true).

(** What [show_flags] puts out: diagnostics and the table. *)
Definition is_flag_event (e : event) : bool := is_stderr e || is_table e.

(** *** Example devices and command lines *)

(** A device whose capability query fails and whose first disarm write is
    interrupted. *)
Definition wd_interrupted : kernel := {|
  sys_open := fun _ => SysOk 3%nat;
  sys_getsupport := SysErr 25;
  sys_getstatus := SysErr 25;
  sys_getbootstatus := SysErr 25;
  sys_gettimeout := SysErr 25;
  sys_getpretimeout := SysErr 25;
  sys_gettimeleft := SysErr 25;
  sys_write := fun n => match n with O => SysErr 4 | S _ => SysOk tt end;
  alloc_table := true;
  alloc_column := fun _ => true;
  alloc_line := fun _ => true
|}.

(** A device that is already in use. *)
Definition wd_busy : kernel := {|
  sys_open := fun _ => SysErr 16;
  sys_getsupport := SysErr 9;
  sys_getstatus := SysErr 9;
  sys_getbootstatus := SysErr 9;
  sys_gettimeout := SysErr 9;
  sys_getpretimeout := SysErr 9;
  sys_gettimeleft := SysErr 9;
  sys_write := fun _ => SysErr 9;
  alloc_table := true;
  alloc_column := fun _ => true;
  alloc_line := fun _ => true
|}.

(** A device that supports none of the three timing queries. *)
Definition wd_no_timers : kernel := {|
  sys_open := fun _ => SysOk 3%nat;
  sys_getsupport :=
    SysOk {| options := 0x8100; firmware_version := 0x12; identity := "WD1" |};
  sys_getstatus := SysOk 0x8000;
  sys_getbootstatus := SysOk 0;
  sys_gettimeout := SysErr 95;
  sys_getpretimeout := SysErr 95;
  sys_gettimeleft := SysErr 95;
  sys_write := fun _ => SysOk tt;
  alloc_table := true;
  alloc_column := fun _ => true;
  alloc_line := fun _ => true
|}.

(** A device that reports, with KEEPALIVEPING and MAGICCLOSE, a high
    option bit that is no known flag. *)
Definition wd_unknown : kernel := {|
  sys_open := fun _ => SysOk 3%nat;
  sys_getsupport :=
    SysOk {| options := 0x80008100; firmware_version := 0x12;
             identity := "WD1" |};
  sys_getstatus := SysOk 0x8000;
  sys_getbootstatus := SysOk 0;
  sys_gettimeout := SysOk 30;
  sys_getpretimeout := SysErr 95;
  sys_gettimeleft := SysErr 95;
  sys_write := fun _ => SysOk tt;
  alloc_table := true;
  alloc_column := fun _ => true;
  alloc_line := fun _ => true
|}.

(** The table a rendered run prints, if any. *)
Definition printed_table (tr : list event) : option tt.table :=
  match find is_table tr with
  | Some (PrintTable tb) => Some tb
  | _ => None
  end.

(** [wdctl -f CARDRESET -F -V] *)
Definition filter_noflags_version : list (ascii * string) :=
  [("f"%char, "CARDRESET"); ("F"%char, ""); ("V"%char, "")].

(** [wdctl -f CARDRESET -F] *)
Definition filter_noflags : list (ascii * string) :=
  [("f"%char, "CARDRESET"); ("F"%char, "")].

(** The identity of the specification's example device. *)
Definition wd1_ident : watchdog_info :=
  {| options := 0x8100; firmware_version := 0x12; identity := "WD1" |}.

(** All four columns, as [main] selects them without [-o]. *)
Definition default_columns : globals :=
  {| columns := [COL_FLAG; COL_DESC; COL_STATUS; COL_BSTATUS];
     ncolumns := 4 |}.

(** The status record of the example device after its session. *)
Definition wd1_status : wdinfo := queried wd1 (wd (@locals0 linux)).

(** Runs of the program on Linux. *)
Definition wd_unknown_run : res Z * world := @run linux wd_unknown 1 [] false.

Definition wd_unknown_table : tt.table :=
  match printed_table (trace (snd wd_unknown_run)) with
  | Some tb => tb
  | None => tt.mk_table 0 [] []
  end.

(** [wdctl -I] on a device without timing queries. *)
Definition no_timers_run : res Z * world :=
  @run linux wd_no_timers 1 [("I"%char, "")] false.

(** [wdctl] on the example device. *)
Definition wd1_run : res Z * world := @run linux wd1 1 [] false.

(** The locals of [main] once a command line without options is read. *)
Definition locals0_parsed {H : headers} : locals :=
  set_glob locals0
    (push_column (push_column (push_column (push_column (glob locals0)
       COL_FLAG) COL_DESC) COL_STATUS) COL_BSTATUS).

(** *** Names, ignoring case *)

(** A C string holds no NUL character. *)
Definition c_string (s : string) : bool :=
  forallb (fun c => negb (char_code c =? 0)) (list_ascii_of_string s).

(** A string in lower case. *)
Fixpoint lower (s : string) : string :=
  match s with
  | EmptyString => EmptyString
  | String c r => String (tolower c) (lower r)
  end.

(** The name of [namesz] characters at the start of [name]. *)
Definition name_text (name : string) (namesz : nat) : string :=
  substring 0 namesz name.


(** *** Further vocabulary: error paths and whole runs *)

(** The world once the events [evs] have been appended to its trace. *)
Definition after (w : world) (evs : list event) : world :=
  {| errno := errno w; nwrites := nwrites w; trace := trace w ++ evs |}.

(** The identity of a status record that no capability query filled in. *)
Definition no_identity : watchdog_info :=
  {| options := 0; firmware_version := 0; identity := "" |}.

(** The table column [show_flags] defines from an entry of [infos]. *)
Definition info_column (ci : colinfo.t) : tt.column :=
  tt.mk_column (colinfo.name ci) (colinfo.whint ci) (colinfo.flags ci).

(** The table column of the output column [id]. *)
Definition table_column {H : headers} (id : Z) : option tt.column :=
  option_map info_column (infos !! Z.to_nat id).

(** The flags the loop of [show_flags] tries to add a row for, the bits of
    each flag it passes being cleared from [flags] as it goes. *)
Fixpoint rows_due (wanted flags : Z) (l : list wdflag.t) : list wdflag.t :=
  match l with
  | [] => []
  | fl :: rest =>
      (if row_due wanted flags fl then [fl] else [])
        ++ rows_due wanted (Z.land flags (u32_not (wdflag.flag fl))) rest
  end.

(** The two diagnostics of a table that cannot be set up. *)
Definition no_table_warning (w : world) : event :=
  Stderr "failed to initialize output table" (Some (errno w)).

Definition no_column_warning : event :=
  Stderr "failed to initialize output column" None.

(** Memory for the first [n] columns of a table. *)
Definition columns_allocated (os : kernel) (n : nat) : bool :=
  forallb (alloc_column os) (seq 0 n).

(** A device whose disarm write is interrupted every time. *)
Definition wd_always_interrupted : kernel := {|
  sys_open := fun _ => SysOk 3%nat;
  sys_getsupport :=
    SysOk {| options := 0x8100; firmware_version := 0x12; identity := "WD1" |};
  sys_getstatus := SysOk 0x8000;
  sys_getbootstatus := SysOk 0;
  sys_gettimeout := SysOk 30;
  sys_getpretimeout := SysErr 95;
  sys_gettimeleft := SysErr 95;
  sys_write := fun _ => SysErr 4;
  alloc_table := true;
  alloc_column := fun _ => true;
  alloc_line := fun _ => true
|}.

(** The example device on a system without memory for the second line of a
    table. *)
Definition wd1_short_of_lines : kernel := {|
  sys_open := fun _ => SysOk 3%nat;
  sys_getsupport :=
    SysOk {| options := 0x8100; firmware_version := 0x12; identity := "WD1" |};
  sys_getstatus := SysOk 0x8000;
  sys_getbootstatus := SysOk 0;
  sys_gettimeout := SysOk 30;
  sys_getpretimeout := SysErr 95;
  sys_gettimeleft := SysErr 95;
  sys_write := fun _ => SysOk tt;
  alloc_table := true;
  alloc_column := fun _ => true;
  alloc_line := fun n => match n with O => true | S _ => false end
|}.

(** The example device on a system without memory for the third column of
    a table. *)
Definition wd1_short_of_columns : kernel := {|
  sys_open := fun _ => SysOk 3%nat;
  sys_getsupport :=
    SysOk {| options := 0x8100; firmware_version := 0x12; identity := "WD1" |};
  sys_getstatus := SysOk 0x8000;
  sys_getbootstatus := SysOk 0;
  sys_gettimeout := SysOk 30;
  sys_getpretimeout := SysErr 95;
  sys_gettimeleft := SysErr 95;
  sys_write := fun _ => SysOk tt;
  alloc_table := true;
  alloc_column := fun n => (n <? 2)%nat;
  alloc_line := fun _ => true
|}.

Definition is_open (e : event) : bool :=
  match e with
  | Open _ _ => true
  | _ => false
  end.

(** What a session does once the device is open: all but [open]. *)
Definition after_open (e : event) : bool := is_session e && negb (is_open e).

(** What [report] puts out: lines, diagnostics and the table. *)
Definition is_report (e : event) : bool := is_stdout e || is_flag_event e.

(** The device a command line names: the argument of its last [-d], the
    default device without any. *)
Definition device_option {H : headers} (opts : list (ascii * string))
    : string :=
  match find (fun o => Ascii.eqb (fst o) "d") (rev opts) with
  | Some o => snd o
  | None => _PATH_WATCHDOG_DEV
  end.

(** The table flag an option stands for. *)
Definition option_table_flag {H : headers} (c : ascii) : Z :=
  if Ascii.eqb c "n" then TT_FL_NOHEADINGS
  else if Ascii.eqb c "r" then TT_FL_RAW
  else if Ascii.eqb c "P" then TT_FL_EXPORT
  else 0.

(** The table flags a command line asks for. *)
Definition table_flags {H : headers} (opts : list (ascii * string)) : Z :=
  Z.lor (if has_option "n" opts then TT_FL_NOHEADINGS else 0)
    (Z.lor (if has_option "r" opts then TT_FL_RAW else 0)
       (if has_option "P" opts then TT_FL_EXPORT else 0)).

(** The option characters [main] has a case for. *)
Definition is_option_char (c : ascii) : bool :=
  existsb (Ascii.eqb c) (list_ascii_of_string "dofVhFITnrP").
(** ** Reasoning about computations *)

Section monad_facts.
Context {A B : Type}.

Lemma bind_unfold (m : M A) (f : A -> M B) (w : world) :
  (m ≫= f) w =
  match m w with
  | (Val a, w') => f a w'
  | (Exit c, w') => (Exit c, w')
  | (Abort, w') => (Abort, w')
  | (Fuel, w') => (Fuel, w')
  end.
Proof. reflexivity. Qed.

Lemma bind_val (m : M A) (f : A -> M B) (w w' : world) (a : A) :
  m w = (Val a, w') -> (m ≫= f) w = f a w'.
Proof. intros E. rewrite bind_unfold, E. reflexivity. Qed.

Lemma bind_exit (m : M A) (f : A -> M B) (w w' : world) (c : Z) :
  m w = (Exit c, w') -> (m ≫= f) w = (Exit c, w').
Proof. intros E. rewrite bind_unfold, E. reflexivity. Qed.

Lemma emits_ret (P : event -> bool) (a : A) : emits P (mret a : M A).
Proof.
  intros w r w' E. inversion E; subst. exists []. split; [|reflexivity].
  symmetry; apply app_nil_r.
Qed.

Lemma emits_exit (P : event -> bool) (c : Z) : emits P (exit c : M A).
Proof.
  intros w r w' E. inversion E; subst. exists []. split; [|reflexivity].
  symmetry; apply app_nil_r.
Qed.

Lemma emits_abort (P : event -> bool) : emits P (abort : M A).
Proof.
  intros w r w' E. inversion E; subst. exists []. split; [|reflexivity].
  symmetry; apply app_nil_r.
Qed.

Lemma emits_out_of_fuel (P : event -> bool) : emits P (out_of_fuel : M A).
Proof.
  intros w r w' E. inversion E; subst. exists []. split; [|reflexivity].
  symmetry; apply app_nil_r.
Qed.

Lemma emits_bind (P : event -> bool) (m : M A) (f : A -> M B) :
  emits P m -> (forall a, emits P (f a)) -> emits P (m ≫= f).
Proof.
  intros Hm Hf w r w' E. rewrite bind_unfold in E.
  destruct (m w) as [ra w1] eqn:Em.
  destruct (Hm _ _ _ Em) as (evs1 & T1 & F1).
  destruct ra as [a|c| |].
  - destruct (Hf a _ _ _ E) as (evs2 & T2 & F2).
    exists (evs1 ++ evs2). split.
    + rewrite T2, T1. symmetry; apply app_assoc.
    + rewrite forallb_app, F1, F2. reflexivity.
  - inversion E; subst. eauto.
  - inversion E; subst. eauto.
  - inversion E; subst. eauto.
Qed.

End monad_facts.

(** Unfolds the operations of the monad so that a computation applied to
    a world reduces. *)
Ltac unfold_m :=
  repeat progress
    unfold mbind, M_bind, mret, M_ret, warn, warnx, errx, err, printf,
      syscall, emit, get_errno, set_errno, exit, abort, out_of_fuel in *.

Lemma emits_emit (P : event -> bool) (e : event) :
  P e = true -> emits P (emit e).
Proof.
  intros HP w r w' E. inversion E; subst. exists [e]. simpl.
  rewrite HP. auto.
Qed.

Lemma emits_get_errno (P : event -> bool) : emits P get_errno.
Proof.
  intros w r w' E. inversion E; subst. exists []. split; [|reflexivity].
  symmetry; apply app_nil_r.
Qed.

Lemma emits_set_errno (P : event -> bool) (e : Z) : emits P (set_errno e).
Proof.
  intros w r w' E. inversion E; subst. exists []. split; [|reflexivity].
  symmetry; apply app_nil_r.
Qed.

Lemma emits_syscall {A} (P : event -> bool) (r : sysres A) :
  emits P (syscall r).
Proof.
  destruct r; simpl.
  - apply emits_ret.
  - apply emits_bind; [apply emits_set_errno|intros; apply emits_ret].
Qed.

Lemma emits_assert (P : event -> bool) (b : bool) : emits P (assert b).
Proof. destruct b; [apply emits_ret|apply emits_abort]. Qed.

Lemma emits_warnx (P : event -> bool) (msg : string) :
  (forall m e, P (Stderr m e) = true) -> emits P (warnx msg).
Proof. intros HP. apply emits_emit, HP. Qed.

Lemma emits_warn (P : event -> bool) (msg : string) :
  (forall m e, P (Stderr m e) = true) -> emits P (warn msg).
Proof.
  intros HP. apply emits_bind; [apply emits_get_errno|].
  intros. apply emits_emit, HP.
Qed.

Lemma emits_errx {A} (P : event -> bool) (c : Z) (msg : string) :
  (forall m e, P (Stderr m e) = true) -> emits P (errx c msg : M A).
Proof.
  intros HP. apply emits_bind; [apply emits_emit, HP|].
  intros. apply emits_exit.
Qed.

Lemma emits_err {A} (P : event -> bool) (c : Z) (msg : string) :
  (forall m e, P (Stderr m e) = true) -> emits P (err c msg : M A).
Proof.
  intros HP. apply emits_bind; [apply emits_get_errno|]. intros.
  apply emits_bind; [apply emits_emit, HP|]. intros. apply emits_exit.
Qed.

Lemma for_each_nil {A S} (body : S -> A -> M S) (s : S) :
  for_each [] body s = mret s.
Proof. reflexivity. Qed.

Lemma for_each_cons {A S} (a : A) (l : list A) (body : S -> A -> M S) (s : S) :
  for_each (a :: l) body s = (body s a ≫= for_each l body).
Proof. reflexivity. Qed.

Lemma for_each_app {A S} (l1 l2 : list A) (body : S -> A -> M S) :
  forall (s : S) (w : world),
    for_each (l1 ++ l2) body s w = (for_each l1 body s ≫= for_each l2 body) w.
Proof.
  induction l1 as [|a l1 IH]; intros s w.
  - reflexivity.
  - simpl app. rewrite !for_each_cons, !bind_unfold.
    destruct (body s a w) as [[s1| | |] w1]; try reflexivity.
    rewrite IH, bind_unfold. reflexivity.
Qed.

Lemma emits_for_each {A S} (P : event -> bool) (l : list A)
    (body : S -> A -> M S) :
  (forall s a, emits P (body s a)) -> forall s, emits P (for_each l body s).
Proof.
  intros Hb. induction l as [|a l IH]; intros s; simpl.
  - apply emits_ret.
  - apply emits_bind; [apply Hb|]. intros. apply IH.
Qed.

(** One step of a proof that a computation only emits events of a class. *)
Ltac emits_step :=
  first
    [ apply emits_ret | apply emits_exit | apply emits_abort
    | apply emits_out_of_fuel | apply emits_assert
    | apply emits_get_errno | apply emits_set_errno | apply emits_syscall
    | apply emits_emit; reflexivity
    | apply emits_warnx; reflexivity | apply emits_warn; reflexivity
    | apply emits_errx; reflexivity | apply emits_err; reflexivity
    | apply emits_bind; [|intros]
    | match goal with
      | |- emits _ (if ?b then _ else _) => destruct b
      | |- emits _ (match ?x with _ => _ end) => destruct x
      | |- emits _ (let '(_, _) := ?x in _) => destruct x
      end ].

Ltac emits_tac := repeat emits_step.

(** ** Option parsing touches nothing but the standard streams *)

Section parsing_is_quiet.
Context {H : headers}.

Lemma emits_name2bit_from (tbl : list wdflag.t) (name : string) (n : nat) :
  emits is_message (name2bit_from tbl name n).
Proof. induction tbl as [|fl tbl IH]; simpl; emits_tac. exact IH. Qed.

Lemma emits_column2id_from (tbl : list colinfo.t) (name : string) (n : nat) :
  forall i, emits is_message (column2id_from i tbl name n).
Proof. induction tbl as [|ci tbl IH]; intros i; simpl; emits_tac. apply IH. Qed.

Lemma emits_idarray_fill (names : list (string * nat)) (arysz : nat)
    (name2id : string -> nat -> M Z) :
  (forall p len, emits is_message (name2id p len)) ->
  forall ary n, emits is_message (idarray_fill names ary n arysz name2id).
Proof.
  intros Hn. induction names as [|[p len] names IH]; intros ary n; simpl;
    emits_tac; auto.
Qed.

Lemma emits_bitmask_fill (names : list (string * nat))
    (name2flag : string -> nat -> M Z) :
  (forall p len, emits is_message (name2flag p len)) ->
  forall mask, emits is_message (bitmask_fill names mask name2flag).
Proof.
  intros Hn. induction names as [|[p len] names IH]; intros mask; simpl;
    emits_tac; auto.
Qed.

Lemma emits_main_option (st : locals) (c : ascii) (optarg : string) :
  emits is_message (main_option st c optarg).
Proof.
  assert (Ho : emits is_message
                 (string_to_idarray optarg (columns (glob st))
                    (length (columns (glob st))) column2id)).
  { apply emits_idarray_fill. intros. apply emits_column2id_from. }
  assert (Hf : emits is_message
                 (string_to_bitmask optarg (wanted st) name2bit)).
  { apply emits_bitmask_fill. intros. apply emits_name2bit_from. }
  destruct c as [[] [] [] [] [] [] [] []]; unfold main_option, usage;
    emits_tac; assumption.
Qed.

Lemma emits_parse_options (opts : list (ascii * string)) (operands : bool) :
  emits is_message (parse_options opts operands).
Proof.
  unfold parse_options, usage. emits_tac.
  apply emits_for_each. intros. apply emits_main_option.
Qed.

(** Before the device session, nothing has been done to the device. *)
Lemma parse_options_no_device_io (opts : list (ascii * string))
    (operands : bool) (r : res locals) (w : world) :
  parse_options opts operands world0 = (r, w) ->
  forallb is_message (trace w) = true.
Proof.
  intros E. destruct (emits_parse_options opts operands _ _ _ E) as (evs & T & F).
  rewrite T. exact F.
Qed.

End parsing_is_quiet.

(** ** The device session *)

Section session.
Context {H : headers}.
Variable os : kernel.

Lemma string_app_inv_head (s a b : string) :
  (s ++ a)%string = (s ++ b)%string -> a = b.
Proof.
  induction s as [|c s IH]; simpl; intros E; [exact E|].
  inversion E. auto.
Qed.

Lemma queried_device (wd : wdinfo) : device (queried os wd) = device wd.
Proof. unfold queried. destruct (sys_getsupport os); reflexivity. Qed.

(** After a successful [open], [read_watchdog] runs the queries and arrives
    at the disarm loop whatever the queries answered. *)
Lemma read_watchdog_open_ok (fuel : nat) (wd : wdinfo) (w : world) (n : nat) :
  sys_open os (device wd) = SysOk n ->
  exists e,
    read_watchdog os fuel wd w =
    session_end os fuel (queried os wd) (Z.of_nat n)
      {| errno := e; nwrites := nwrites w;
         trace := trace w ++ [Sigprocmask SIG_BLOCK_ALL;
                              Open (device wd) (Z.of_nat n)]
                    ++ query_events os (device wd) (Z.of_nat n) |}.
Proof.
  intros Ho. unfold read_watchdog, session_end, query_events, queried.
  unfold sigprocmask, open, ioctl. rewrite Ho.
  unfold_m. simpl.
  assert (Hfd : (Z.of_nat n <? 0) = false) by (apply Z.ltb_ge; lia).
  rewrite Hfd.
  destruct (sys_getsupport os) as [info|e1]; simpl.
  2:{ eexists. rewrite <- !app_assoc. simpl. reflexivity. }
  destruct wd as [dev t tl pt st bst idt ht htl hpt]; simpl.
  destruct (sys_getstatus os), (sys_getbootstatus os), (sys_gettimeout os),
    (sys_getpretimeout os), (sys_gettimeleft os); simpl;
    rewrite ?orb_true_r, ?orb_false_r;
    eexists; rewrite <- !app_assoc; simpl; reflexivity.
Qed.

(** The disarm loop: [k] interrupted writes, then a write whose outcome [r]
    is not an interruption, ends the loop after [k + 1] writes. *)
Lemma disarm_spec (wd : wdinfo) (fd : Z) (r : sysres unit) :
  r <> SysErr EINTR ->
  forall (k fuel : nat) (w : world),
    (k < fuel)%nat ->
    (forall i, (i < k)%nat -> sys_write os (nwrites w + i) = SysErr EINTR) ->
    sys_write os (nwrites w + k) = r ->
    exists e,
      disarm os fuel wd fd w =
      (Val tt,
       {| errno := e; nwrites := nwrites w + S k;
          trace := trace w ++ replicate k (Write fd "V" (-1))
                     ++ [Write fd "V" (write_ret r)]
                     ++ disarm_warning (device wd) r |}).
Proof.
  intros Hr. induction k as [|k IH]; intros fuel w Hf Hint Hk.
  - destruct fuel as [|fuel]; [lia|].
    rewrite Nat.add_0_r in Hk. simpl. unfold write, next_write. unfold_m.
    rewrite Hk. destruct r as [[]|e]; simpl.
    + eexists. rewrite Nat.add_1_r. reflexivity.
    + assert (He : (e =? EINTR) = false)
        by (apply Z.eqb_neq; intros ->; apply Hr; reflexivity).
      rewrite He. simpl. eexists. rewrite Nat.add_1_r, <- app_assoc.
      reflexivity.
  - destruct fuel as [|fuel]; [lia|].
    assert (H0 : sys_write os (nwrites w) = SysErr EINTR).
    { rewrite <- (Nat.add_0_r (nwrites w)). apply Hint. lia. }
    simpl. unfold write, next_write. unfold_m. rewrite H0. simpl.
    rewrite Z.eqb_refl. simpl.
    destruct (IH fuel
                {| errno := EINTR; nwrites := S (nwrites w);
                   trace := trace w ++ [Write fd "V" (-1)] |})
      as (e & E).
    + lia.
    + intros i Hi. simpl. rewrite <- Nat.add_succ_r. apply Hint. lia.
    + simpl. rewrite <- Nat.add_succ_r. exact Hk.
    + exists e. unfold write, next_write in E. unfold_m. rewrite E. simpl.
      rewrite <- app_assoc.
      replace (nwrites w + S (S k))%nat with (S (nwrites w + S k))%nat by lia.
      reflexivity.
Qed.

(** The whole session after a successful [open]. *)
Lemma session_spec (fuel : nat) (wd : wdinfo) (w : world) (n k : nat)
    (r : sysres unit) :
  sys_open os (device wd) = SysOk n ->
  (forall i, (i < k)%nat -> sys_write os (nwrites w + i) = SysErr EINTR) ->
  sys_write os (nwrites w + k) = r ->
  r <> SysErr EINTR ->
  (k < fuel)%nat ->
  exists e,
    read_watchdog os fuel wd w =
    (Val (0, queried os wd),
     {| errno := e; nwrites := nwrites w + S k;
        trace := trace w
          ++ [Sigprocmask SIG_BLOCK_ALL; Open (device wd) (Z.of_nat n)]
          ++ query_events os (device wd) (Z.of_nat n)
          ++ replicate k (Write (Z.of_nat n) "V" (-1))
          ++ [Write (Z.of_nat n) "V" (write_ret r)]
          ++ disarm_warning (device wd) r
          ++ [Close (Z.of_nat n); Sigprocmask SIG_SETMASK_OLD] |}).
Proof.
  intros Ho Hint Hk Hr Hf.
  destruct (read_watchdog_open_ok fuel wd w n Ho) as (e0 & E0).
  rewrite E0. unfold session_end.
  match goal with
  | |- exists _, (_ ≫= _) ?w1 = _ =>
      destruct (disarm_spec (queried os wd) (Z.of_nat n) r Hr k fuel w1 Hf)
        as (e & E); [exact Hint|exact Hk|]
  end.
  rewrite (bind_val _ _ _ _ _ E). unfold close, sigprocmask. unfold_m.
  simpl. exists e. rewrite queried_device.
  repeat rewrite <- app_assoc. reflexivity.
Qed.

(** C1.  After a successful open the session writes the single magic-close
    character "V" once the queries are over, whatever they answered (also
    when the capability query failed); the write is repeated only after a
    failure with EINTR; its first other outcome -- success, or another error,
    which is reported by a warning that is not fatal -- ends the loop, so that
    [k] interruptions make [k + 1] writes; the descriptor is closed next and
    the session returns 0. *)
Theorem read_watchdog_disarms_once (fuel : nat) (wd : wdinfo) (w : world)
    (n k : nat) (r : sysres unit) :
  sys_open os (device wd) = SysOk n ->
  (forall i, (i < k)%nat -> sys_write os (nwrites w + i) = SysErr EINTR) ->
  sys_write os (nwrites w + k) = r ->
  r <> SysErr EINTR ->
  (k < fuel)%nat ->
  exists e wd',
    read_watchdog os fuel wd w =
    (Val (0, wd'),
     {| errno := e; nwrites := nwrites w + S k;
        trace := trace w
          ++ [Sigprocmask SIG_BLOCK_ALL; Open (device wd) (Z.of_nat n)]
          ++ query_events os (device wd) (Z.of_nat n)
          ++ replicate k (Write (Z.of_nat n) "V" (-1))
          ++ [Write (Z.of_nat n) "V" (write_ret r)]
          ++ disarm_warning (device wd) r
          ++ [Close (Z.of_nat n); Sigprocmask SIG_SETMASK_OLD] |}).
Proof.
  intros Ho Hint Hk Hr Hf.
  destruct (session_spec fuel wd w n k r Ho Hint Hk Hr Hf) as (e & E).
  exists e, (queried os wd). exact E.
Qed.

(** A failed [open] ends the process inside [read_watchdog]. *)
Lemma read_watchdog_open_fails (fuel : nat) (wd : wdinfo) (w : world) (e : Z) :
  sys_open os (device wd) = SysErr e ->
  read_watchdog os fuel wd w =
  (Exit EXIT_FAILURE,
   {| errno := e; nwrites := nwrites w;
      trace := trace w ++ [Sigprocmask SIG_BLOCK_ALL; Open (device wd) (-1);
                           open_error (device wd) e] |}).
Proof.
  intros Ho. unfold read_watchdog, sigprocmask, open, open_error.
  rewrite Ho. unfold_m. simpl.
  destruct (e =? EBUSY); simpl; repeat rewrite <- app_assoc; reflexivity.
Qed.

(** C4.  When the options are accepted and opening the device fails, the
    process ends with [EXIT_FAILURE]; the diagnostic is the busy message
    naming the device when the error is EBUSY and otherwise the generic
    message with the device and the reason; the two differ; the failed
    [open] is the only action on the device in the whole run: no query, no
    disarm write. *)
Theorem open_failure_is_fatal (fuel : nat) (opts : list (ascii * string))
    (operands : bool) (st : locals) (w1 : world) (e : Z) :
  parse_options opts operands world0 = (Val st, w1) ->
  sys_open os (device (wd st)) = SysErr e ->
  run os fuel opts operands =
    (Exit EXIT_FAILURE,
     {| errno := e; nwrites := nwrites w1;
        trace := trace w1
          ++ [Sigprocmask SIG_BLOCK_ALL; Open (device (wd st)) (-1);
              open_error (device (wd st)) e] |})
  /\ forallb is_message (trace w1) = true
  /\ open_error (device (wd st)) e =
       (if e =? EBUSY then Stderr (busy_message (device (wd st))) None
        else Stderr (open_failure_message (device (wd st))) (Some e))
  /\ busy_message (device (wd st)) <> open_failure_message (device (wd st)).
Proof.
  intros Hp Ho. repeat split.
  - unfold run, main. rewrite (bind_val _ _ _ _ _ Hp).
    rewrite (bind_exit _ _ _ _ _ (read_watchdog_open_fails fuel _ w1 e Ho)).
    reflexivity.
  - exact (parse_options_no_device_io _ _ _ _ Hp).
  - unfold busy_message, open_failure_message. intros E.
    apply string_app_inv_head in E. discriminate E.
Qed.

(** C5.  After a successful open and a successful capability query, each
    of the three timing queries decides alone whether its presence flag is
    set and whether its line is printed: [show_timeouts] prints exactly the
    lines of the queries that succeeded, with the value the driver gave
    (zero included), and nothing for a query that failed. *)
Theorem timing_queries_are_independent (fuel : nat) (wd : wdinfo) (w : world)
    (n k : nat) (r : sysres unit) (info : watchdog_info) :
  has_timeout wd = false ->
  has_pretimeout wd = false ->
  has_timeleft wd = false ->
  sys_open os (device wd) = SysOk n ->
  sys_getsupport os = SysOk info ->
  (forall i, (i < k)%nat -> sys_write os (nwrites w + i) = SysErr EINTR) ->
  sys_write os (nwrites w + k) = r ->
  r <> SysErr EINTR ->
  (k < fuel)%nat ->
  exists wd' w',
    read_watchdog os fuel wd w = (Val (0, wd'), w')
    /\ has_timeout wd' = is_ok (sys_gettimeout os)
    /\ has_pretimeout wd' = is_ok (sys_getpretimeout os)
    /\ has_timeleft wd' = is_ok (sys_gettimeleft os)
    /\ timeout wd' = answer (timeout wd) (sys_gettimeout os)
    /\ pretimeout wd' = answer (pretimeout wd) (sys_getpretimeout os)
    /\ timeleft wd' = answer (timeleft wd) (sys_gettimeleft os)
    /\ forall w2,
         show_timeouts wd' w2 =
         (Val tt,
          {| errno := errno w2; nwrites := nwrites w2;
             trace := trace w2 ++ timing_lines os |}).
Proof.
  intros Ht Hpt Htl Ho Hs Hint Hk Hr Hf.
  destruct (session_spec fuel wd w n k r Ho Hint Hk Hr Hf) as (e & E).
  eexists _, _. split; [exact E|].
  unfold queried. rewrite Hs. simpl. rewrite Ht, Hpt, Htl. simpl.
  repeat split.
  intros w2. unfold show_timeouts, timing_lines, timing_line. simpl.
  destruct (sys_gettimeout os), (sys_getpretimeout os), (sys_gettimeleft os);
    simpl; unfold_m; simpl; rewrite <- ?app_assoc, ?app_nil_r;
    destruct w2; reflexivity.
Qed.

End session.

(** ** The flag table *)

Section flag_table.
Context {H : headers}.
Variable os : kernel.

Lemma testbit_UINT32_MAX (n : Z) :
  0 <= n -> Z.testbit UINT32_MAX n = (n <? 32).
Proof.
  intros Hn. change UINT32_MAX with (Z.ones 32).
  apply Z.testbit_ones_nonneg; lia.
Qed.

(** Rewrites the bit [n] of a bitwise expression into a boolean one. *)
Ltac bits n Hn :=
  repeat first
    [ rewrite Z.land_spec | rewrite Z.lor_spec
    | rewrite Z.lnot_spec by exact Hn
    | rewrite (testbit_UINT32_MAX n Hn) ].

Lemma land_u32_not (flags f : Z) :
  Z.land flags UINT32_MAX = flags ->
  Z.land flags (u32_not f) = Z.land flags (Z.lnot f).
Proof.
  intros Hu. unfold u32_not.
  rewrite (Z.land_comm (Z.lnot f)), Z.land_assoc, Hu. reflexivity.
Qed.

Lemma cleared_spec (l : list wdflag.t) :
  forall flags,
    Z.land flags UINT32_MAX = flags ->
    cleared l flags =
    Z.land flags (Z.lnot (fold_right Z.lor 0 (map wdflag.flag l))).
Proof.
  induction l as [|fl l IH]; intros flags Hu; simpl.
  - change (Z.lnot 0) with (-1). symmetry. apply Z.land_m1_r.
  - unfold cleared in IH. rewrite IH.
    + rewrite (land_u32_not _ _ Hu).
      apply Z.bits_inj'. intros n Hn. bits n Hn.
      destruct (Z.testbit flags n), (Z.testbit (wdflag.flag fl) n),
        (Z.testbit (fold_right Z.lor 0 (map wdflag.flag l)) n); reflexivity.
    + rewrite (land_u32_not _ _ Hu), <- Z.land_assoc,
        (Z.land_comm (Z.lnot _)), Z.land_assoc, Hu. reflexivity.
Qed.

Lemma supported_options_u32 (wd : wdinfo) :
  Z.land (supported_options wd) UINT32_MAX = supported_options wd.
Proof.
  unfold supported_options. rewrite <- Z.land_assoc, Z.land_diag. reflexivity.
Qed.

Lemma cleared_wdflags (wd : wdinfo) :
  cleared wdflags (supported_options wd) = unknown_flags wd.
Proof. apply cleared_spec, supported_options_u32. Qed.

Lemma emits_get_column_id (P : event -> bool) (g : globals) (i : Z) :
  emits P (get_column_id g i).
Proof. unfold get_column_id. emits_tac. Qed.

Lemma emits_add_flag_line (g : globals) (tb : tt.table) (wd : wdinfo)
    (fl : wdflag.t) :
  emits is_add_line_warning (add_flag_line os g tb wd fl).
Proof.
  unfold add_flag_line.
  destruct (tt_add_line _ tb) as [[tb1 line]|].
  - apply emits_for_each. intros tb2 i.
    apply emits_bind; [apply emits_get_column_id|]. intros id.
    destruct (if id =? COL_FLAG then _ else _); apply emits_ret.
  - unfold warn. emits_tac.
Qed.

Lemma emits_show_flags_step (g : globals) (wd : wdinfo) (wanted : Z)
    (s : tt.table * Z) (fl : wdflag.t) :
  emits is_add_line_warning (show_flags_step os g wd wanted s fl).
Proof.
  unfold show_flags_step. destruct s as [tb flags].
  apply emits_bind; [|intros; apply emits_ret].
  destruct (negb (wanted =? 0) && _); [apply emits_ret|].
  destruct (negb _); [apply emits_add_flag_line|apply emits_ret].
Qed.

(** The value of [flags] after the loop does not depend on the filter, on
    the table or on the world. *)
Lemma show_flags_loop_flags (g : globals) (wd : wdinfo) (wanted : Z)
    (l : list wdflag.t) :
  forall tb flags w tb' flags' w',
    for_each l (show_flags_step os g wd wanted) (tb, flags) w
      = (Val (tb', flags'), w') ->
    flags' = cleared l flags.
Proof.
  induction l as [|fl l IH]; intros tb flags w tb' flags' w' E.
  - rewrite for_each_nil in E. unfold_m. inversion E. reflexivity.
  - rewrite for_each_cons, bind_unfold in E.
    destruct (show_flags_step os g wd wanted (tb, flags) fl w)
      as [[[tb1 flags1]| | |] w1] eqn:Es; try discriminate E.
    apply IH in E. subst flags'.
    unfold show_flags_step in Es. rewrite bind_unfold in Es.
    match type of Es with
    | (let (_, _) := ?m in _) = _ =>
        destruct m as [[tb2| | |] w2]; try discriminate Es
    end.
    unfold_m. inversion Es. reflexivity.
Qed.

(** Column definition leaves no trace when it succeeds. *)
Lemma define_columns_some (g : globals) (nums : list Z) :
  forall tb w tb' w',
    define_columns os g nums tb w = (Val (Some tb'), w') -> w' = w.
Proof.
  induction nums as [|i nums IH]; intros tb w tb' w' E; simpl in E.
  - unfold_m. inversion E. reflexivity.
  - rewrite bind_unfold in E.
    destruct (get_column_info g i w) as [[col| | |] w1] eqn:Ec;
      try discriminate E.
    assert (w1 = w) as ->.
    { unfold get_column_info, get_column_id, assert in Ec. unfold_m.
      repeat match type of Ec with
             | context [if ?b then _ else _] => destruct b
             | context [match ?x with Some _ => _ | None => _ end] =>
                 destruct x
             end; simpl in Ec; inversion Ec; reflexivity. }
    destruct (tt_define_column _ tb _ _ _) as [tb1|].
    + eapply IH, E.
    + unfold_m. discriminate E.
Qed.

(** When [show_flags] renders the table, what it emitted is: complaints
    about lines that could not be added, the warning about unknown flags if
    there is any, and the table. *)
Lemma show_flags_rendered (g : globals) (wd : wdinfo) (tt_flags wanted : Z)
    (w w' : world) :
  show_flags os g wd tt_flags wanted w = (Val 0, w') ->
  exists lw tb,
    trace w' = trace w ++ lw ++ unknown_flags_warning wd ++ [PrintTable tb]
    /\ forallb is_add_line_warning lw = true.
Proof.
  unfold show_flags. intros E.
  destruct (tt_new_table _ tt_flags) as [tb0|].
  2:{ unfold_m. discriminate E. }
  rewrite bind_unfold in E.
  destruct (define_columns os g _ tb0 w) as [[[tb1|]| | |] w1] eqn:Ed;
    try discriminate E.
  apply define_columns_some in Ed. subst w1.
  rewrite bind_unfold in E. fold (supported_options wd) in E.
  destruct (for_each wdflags _ _ w) as [[[tb2 flags2]| | |] w2] eqn:El;
    try discriminate E.
  pose proof (show_flags_loop_flags _ _ _ _ _ _ _ _ _ _ El) as Hfl.
  rewrite cleared_wdflags in Hfl. subst flags2.
  destruct (emits_for_each is_add_line_warning wdflags
              (show_flags_step os g wd wanted)
              (emits_show_flags_step g wd wanted) _ _ _ _ El)
    as (lw & T & F).
  exists lw, tb2. split; [|exact F].
  unfold unknown_flags_warning, unknown_flags_message.
  destruct (unknown_flags wd =? 0); unfold_m; simpl in E;
    inversion E; simpl; rewrite T; repeat rewrite <- app_assoc; reflexivity.
Qed.

Lemma testbit_union (l : list wdflag.t) (n : Z) :
  Z.testbit (fold_right Z.lor 0 (map wdflag.flag l)) n =
  existsb (fun fl => Z.testbit (wdflag.flag fl) n) l.
Proof.
  induction l as [|fl l IH]; simpl.
  - apply Z.testbit_0_l.
  - rewrite Z.lor_spec, IH. reflexivity.
Qed.

Lemma testbit_unknown_flags (wd : wdinfo) (n : Z) :
  0 <= n ->
  Z.testbit (unknown_flags wd) n =
  Z.testbit (options (ident wd)) n && (n <? 32)
    && negb (existsb (fun fl => Z.testbit (wdflag.flag fl) n) wdflags).
Proof.
  intros Hn. unfold unknown_flags, supported_options, known_flags.
  bits n Hn. rewrite testbit_union. reflexivity.
Qed.

(** The unknown flags are the bits of the supported options that no known
    flag has. *)
Lemma unknown_flags_bits (wd : wdinfo) :
  unknown_flags wd <> 0 <->
  exists n, 0 <= n < 32 /\ Z.testbit (options (ident wd)) n = true
            /\ forall fl, In fl wdflags -> Z.testbit (wdflag.flag fl) n = false.
Proof.
  split.
  - intros Hx.
    destruct (existsb (fun i => Z.testbit (unknown_flags wd) (Z.of_nat i))
                (seq 0 32)) eqn:Ex.
    + apply existsb_exists in Ex. destruct Ex as (i & Hi & Hb).
      apply in_seq in Hi.
      rewrite testbit_unknown_flags in Hb by lia.
      apply andb_prop in Hb. destruct Hb as [Hb Hk].
      apply andb_prop in Hb. destruct Hb as [Ho _].
      exists (Z.of_nat i). split; [lia|]. split; [exact Ho|].
      intros fl Hfl. apply negb_true_iff in Hk.
      destruct (Z.testbit (wdflag.flag fl) (Z.of_nat i)) eqn:Hb; [|reflexivity].
      assert (existsb (fun fl => Z.testbit (wdflag.flag fl) (Z.of_nat i))
                wdflags = true) as Hc
        by (apply existsb_exists; exists fl; split; assumption).
      rewrite Hc in Hk. discriminate Hk.
    + exfalso. apply Hx. apply Z.bits_inj'. intros n Hn.
      rewrite Z.bits_0.
      destruct (Z.ltb_spec n 32) as [Hlt|Hge].
      * destruct (Z.testbit (unknown_flags wd) n) eqn:Hb; [|reflexivity].
        assert (existsb (fun i => Z.testbit (unknown_flags wd) (Z.of_nat i))
                  (seq 0 32) = true) as Hc.
        { apply existsb_exists. exists (Z.to_nat n). split.
          - apply in_seq. lia.
          - rewrite Z2Nat.id by lia. exact Hb. }
        rewrite Hc in Ex. discriminate Ex.
      * rewrite testbit_unknown_flags by lia.
        assert ((n <? 32) = false) as -> by (apply Z.ltb_ge; lia).
        rewrite andb_false_r. reflexivity.
  - intros (n & Hn & Ho & Hk) Hx.
    assert (Z.testbit (unknown_flags wd) n = true) as Hb.
    { rewrite testbit_unknown_flags by lia. rewrite Ho.
      assert ((n <? 32) = true) as -> by (apply Z.ltb_lt; lia).
      rewrite !andb_true_l. apply negb_true_iff.
      destruct (existsb (fun fl => Z.testbit (wdflag.flag fl) n) wdflags)
        eqn:Ex; [|reflexivity].
      apply existsb_exists in Ex. destruct Ex as (fl & Hfl & Hb).
      rewrite (Hk fl Hfl) in Hb. discriminate Hb. }
    rewrite Hx, Z.bits_0 in Hb. discriminate Hb.
Qed.

(** C10.  The bits left in [flags] after the loop of [show_flags] are
    computed from the supported options and the known flags alone: for
    every filter [wanted], a rendered table is preceded by the warning about
    unknown flags exactly when the supported options have a bit that no
    known flag has; no bit of a known flag is ever left, whether its row was
    printed or not. *)
Theorem unknown_flags_ignore_the_filter (g : globals) (wd : wdinfo)
    (tt_flags wanted : Z) (w w' : world) :
  show_flags os g wd tt_flags wanted w = (Val 0, w') ->
  (exists lw tb,
     trace w' = trace w ++ lw ++ unknown_flags_warning wd ++ [PrintTable tb]
     /\ forallb is_add_line_warning lw = true)
  /\ (unknown_flags_warning wd = [Stderr (unknown_flags_message wd) None] <->
      exists n, 0 <= n < 32 /\ Z.testbit (options (ident wd)) n = true
                /\ forall fl, In fl wdflags ->
                              Z.testbit (wdflag.flag fl) n = false)
  /\ (unknown_flags_warning wd = [] <-> unknown_flags wd = 0)
  /\ forall fl, In fl wdflags -> Z.land (unknown_flags wd) (wdflag.flag fl) = 0.
Proof.
  intros E. split; [exact (show_flags_rendered g wd tt_flags wanted w w' E)|].
  split; [|split].
  - rewrite <- unknown_flags_bits. unfold unknown_flags_warning.
    destruct (Z.eqb_spec (unknown_flags wd) 0) as [E0|E0]; split;
      intros; try assumption; try discriminate; try reflexivity.
    contradiction.
  - unfold unknown_flags_warning.
    destruct (Z.eqb_spec (unknown_flags wd) 0) as [E0|E0]; split;
      intros; try assumption; try discriminate; try reflexivity.
    contradiction.
  - intros fl Hfl. apply Z.bits_inj'. intros n Hn.
    rewrite Z.land_spec, Z.bits_0, testbit_unknown_flags by exact Hn.
    destruct (Z.testbit (wdflag.flag fl) n) eqn:Hb;
      [|apply andb_false_r].
    assert (existsb (fun fl => Z.testbit (wdflag.flag fl) n) wdflags = true)
      as -> by (apply existsb_exists; exists fl; split; assumption).
    rewrite !andb_false_r. reflexivity.
Qed.

End flag_table.

(** ** The rows of the flag table *)

Section flag_rows.
Context {H : headers}.
Variable os : kernel.
Variable g : globals.
Hypothesis Hg : columns_ok g = true.

Lemma columns_ok_inv :
  length (columns g) = 4%nat
  /\ 0 < ncolumns g <= 4
  /\ (forall id, In id (selected_columns g) -> 0 <= id < 4)
  /\ NoDup (selected_columns g).
Proof.
  unfold columns_ok in Hg. rewrite !andb_true_iff in Hg.
  destruct Hg as ((((Hl & Hn0) & Hn4) & Hr) & Hd).
  apply Nat.eqb_eq in Hl. apply Z.ltb_lt in Hn0. apply Z.leb_le in Hn4.
  apply bool_decide_eq_true in Hd. rewrite forallb_forall in Hr.
  repeat split; try assumption; try lia;
    apply Hr in H0; apply andb_prop in H0; destruct H0 as [Ha Hb];
    apply Z.leb_le in Ha; apply Z.ltb_lt in Hb; lia.
Qed.

Lemma lookup_column (i : nat) :
  (i < Z.to_nat (ncolumns g))%nat ->
  exists id, columns g !! i = Some id /\ 0 <= id < 4.
Proof.
  intros Hi. destruct columns_ok_inv as (Hl & Hn & Hr & _).
  destruct (lookup_lt_is_Some_2 (columns g) i) as [id Hid]; [lia|].
  exists id. split; [exact Hid|]. apply Hr. apply list_elem_of_In.
  apply list_elem_of_lookup. exists i. unfold selected_columns.
  rewrite lookup_take_lt by exact Hi. exact Hid.
Qed.

Lemma get_column_id_ok (i : nat) (id : Z) (w : world) :
  (i < Z.to_nat (ncolumns g))%nat ->
  columns g !! i = Some id ->
  get_column_id g (Z.of_nat i) w = (Val id, w).
Proof.
  intros Hi Hid. destruct columns_ok_inv as (Hl & Hn & Hr & _).
  destruct (lookup_column i Hi) as (id' & Hid' & Hrange).
  rewrite Hid in Hid'. inversion Hid'; subst id'.
  unfold get_column_id. change NCOLS with 4. rewrite Hl, Nat2Z.id, Hid.
  change (default 0 (Some id)) with id.
  assert ((Z.of_nat i <? ncolumns g) = true) as -> by (apply Z.ltb_lt; lia).
  assert ((id <? 4) = true) as -> by (apply Z.ltb_lt; lia).
  reflexivity.
Qed.

Lemma set_data_last (f : Z) (cols : list tt.column) (L : list tt.line)
    (c : tt.line) (k : nat) (s : string) :
  tt_line_set_data (tt.mk_table f cols (L ++ [c])) (length L) k s =
  tt.mk_table f cols (L ++ [<[k := Some s]> c]).
Proof.
  unfold tt_line_set_data. simpl.
  rewrite (list_lookup_middle L [] c (length L) eq_refl).
  rewrite insert_app_r_alt by lia. rewrite Nat.sub_diag. reflexivity.
Qed.

Lemma cells_step (wd : wdinfo) (fl : wdflag.t) (m k : nat) (id : Z) :
  (k < m)%nat ->
  columns g !! k = Some id ->
  cells_after g wd fl m (S k) =
  <[k := flag_cell wd fl id]> (cells_after g wd fl m k).
Proof.
  intros Hk Hid. unfold cells_after.
  assert (Hlen : length (map (flag_cell wd fl) (take k (columns g))) = k).
  { rewrite length_map, length_take_le; [reflexivity|].
    apply lookup_lt_Some in Hid. lia. }
  rewrite (take_S_r _ _ _ Hid), map_app, <- app_assoc.
  rewrite insert_app_r_alt by lia. rewrite Hlen, Nat.sub_diag.
  replace (m - k)%nat with (S (m - S k)) by lia. reflexivity.
Qed.

Lemma cells_after_lookup (wd : wdinfo) (fl : wdflag.t) (m k : nat) :
  (k < m)%nat -> (k <= length (columns g))%nat ->
  cells_after g wd fl m k !! k = Some None.
Proof.
  intros Hk Hl. unfold cells_after.
  assert (Hlen : length (map (flag_cell wd fl) (take k (columns g))) = k)
    by (rewrite length_map, length_take_le; [reflexivity|lia]).
  rewrite lookup_app_r by lia. rewrite Hlen, Nat.sub_diag.
  apply lookup_replicate_2. lia.
Qed.

Lemma cells_after_0 (wd : wdinfo) (fl : wdflag.t) (m : nat) :
  cells_after g wd fl m 0 = replicate m None.
Proof. unfold cells_after. rewrite Nat.sub_0_r. reflexivity. Qed.

(** The loop over the columns in [add_flag_line], up to its [k]-th turn. *)
Lemma add_flag_line_loop (wd : wdinfo) (fl : wdflag.t) (f : Z)
    (cols : list tt.column) (L : list tt.line) (w : world) (k : nat) :
  (k <= Z.to_nat (ncolumns g))%nat ->
  for_each (map Z.of_nat (seq 0 k))
    (fun tb i =>
       id ← get_column_id g i;
       let str :=
         if id =? COL_FLAG then Some (wdflag.name fl)
         else if id =? COL_DESC then Some (wdflag.description fl)
         else if id =? COL_STATUS then
           Some (if Z.land (status wd) (wdflag.flag fl) =? 0 then "0" else "1")
         else if id =? COL_BSTATUS then
           Some (if Z.land (bstatus wd) (wdflag.flag fl) =? 0 then "0" else "1")
         else None in
       match str with
       | Some str => mret (tt_line_set_data tb (length L) (Z.to_nat i) str)
       | None => mret tb
       end)
    (tt.mk_table f cols
       (L ++ [cells_after g wd fl (Z.to_nat (ncolumns g)) 0])) w =
  (Val (tt.mk_table f cols
          (L ++ [cells_after g wd fl (Z.to_nat (ncolumns g)) k])), w).
Proof.
  destruct columns_ok_inv as (Hl & Hn & _).
  induction k as [|k IH]; intros Hk.
  - reflexivity.
  - rewrite seq_S, map_app, for_each_app, bind_unfold, IH by lia.
    simpl map. rewrite for_each_cons, bind_unfold, bind_unfold.
    destruct (lookup_column k) as (id & Hid & _); [lia|].
    rewrite (get_column_id_ok k id w) by (lia || exact Hid).
    change (if id =? COL_FLAG then _ else _) with (flag_cell wd fl id).
    rewrite (cells_step wd fl _ k id) by (lia || exact Hid).
    destruct (flag_cell wd fl id) as [str|].
    + unfold_m. rewrite Nat2Z.id, set_data_last. reflexivity.
    + unfold_m. rewrite list_insert_id; [reflexivity|].
      apply cells_after_lookup; lia.
Qed.

Lemma add_flag_line_ok (tb : tt.table) (wd : wdinfo) (fl : wdflag.t)
    (w : world) :
  (forall n, alloc_line os n = true) ->
  length (tt.columns tb) = Z.to_nat (ncolumns g) ->
  add_flag_line os g tb wd fl w =
  (Val (tt.mk_table (tt.flags tb) (tt.columns tb)
          (tt.lines tb ++ [flag_row g wd fl])), w).
Proof.
  intros Ha Hc. unfold add_flag_line, tt_add_line. rewrite Ha, Hc.
  rewrite <- (cells_after_0 wd fl (Z.to_nat (ncolumns g))).
  etransitivity;
    [apply (add_flag_line_loop wd fl _ _ _ w (Z.to_nat (ncolumns g)));
     apply Nat.le_refl|].
  unfold cells_after, flag_row, selected_columns.
  rewrite Nat.sub_diag. simpl. rewrite app_nil_r. reflexivity.
Qed.

Lemma get_column_info_ok (i : nat) (w : world) :
  (i < Z.to_nat (ncolumns g))%nat ->
  exists col, get_column_info g (Z.of_nat i) w = (Val col, w).
Proof.
  intros Hi. destruct (lookup_column i Hi) as (id & Hid & Hr).
  unfold get_column_info. rewrite bind_unfold, (get_column_id_ok i id w Hi Hid).
  assert ((id <? 0) = false) as -> by (apply Z.ltb_ge; lia).
  destruct (lookup_lt_is_Some_2 infos (Z.to_nat id)) as [col Hcol];
    [simpl; lia|].
  rewrite Hcol. exists col. reflexivity.
Qed.

(** With memory for them, the selected columns are all defined. *)
Lemma define_columns_ok (w : world) :
  (forall n, alloc_column os n = true) ->
  forall (nums : list nat) (tb : tt.table),
    (forall i, In i nums -> (i < Z.to_nat (ncolumns g))%nat) ->
    exists tb',
      define_columns os g (map Z.of_nat nums) tb w = (Val (Some tb'), w)
      /\ length (tt.columns tb') = (length (tt.columns tb) + length nums)%nat
      /\ tt.lines tb' = tt.lines tb.
Proof.
  intros Ha. induction nums as [|i nums IH]; intros tb Hin.
  - exists tb. simpl. rewrite Nat.add_0_r. auto.
  - simpl map. simpl define_columns. rewrite bind_unfold.
    destruct (get_column_info_ok i w) as (col & Hcol);
      [apply Hin; left; reflexivity|].
    rewrite Hcol. unfold tt_define_column. rewrite Ha.
    destruct (IH (tt.mk_table (tt.flags tb)
                    (tt.columns tb ++
                       [tt.mk_column (colinfo.name col) (colinfo.whint col)
                          (colinfo.flags col)])
                    (tt.lines tb)))
      as (tb' & E & Hlen & Hlines).
    + intros j Hj. apply Hin. right. exact Hj.
    + exists tb'. split; [exact E|]. split; [|exact Hlines].
      rewrite Hlen. simpl. rewrite length_app. simpl. lia.
Qed.

Lemma land_cleared_disjoint (flags f f' : Z) :
  Z.land flags UINT32_MAX = flags ->
  Z.land f f' = 0 ->
  Z.land (Z.land flags (u32_not f)) f' = Z.land flags f'.
Proof.
  intros Hu Hd. rewrite (land_u32_not flags f Hu).
  apply Z.bits_inj'. intros n Hn.
  assert (Hb : Z.testbit (Z.land f f') n = false)
    by (rewrite Hd; apply Z.bits_0).
  rewrite Z.land_spec in Hb. rewrite !Z.land_spec, Z.lnot_spec by exact Hn.
  destruct (Z.testbit flags n), (Z.testbit f n), (Z.testbit f' n);
    try reflexivity; discriminate Hb.
Qed.

Lemma land_cleared_u32 (flags f : Z) :
  Z.land flags UINT32_MAX = flags ->
  Z.land (Z.land flags (u32_not f)) UINT32_MAX = Z.land flags (u32_not f).
Proof.
  intros Hu. unfold u32_not.
  rewrite <- !Z.land_assoc, Z.land_diag. reflexivity.
Qed.

(** With memory for the lines, the loop of [show_flags] appends the rows
    of the flags that are due one, in the order of the table. *)
Lemma show_flags_loop_ok (wd : wdinfo) (wanted : Z) (w : world) :
  (forall n, alloc_line os n = true) ->
  forall (l : list wdflag.t) (tb : tt.table) (flags : Z),
    disjoint_flags l = true ->
    Z.land flags UINT32_MAX = flags ->
    length (tt.columns tb) = Z.to_nat (ncolumns g) ->
    for_each l (show_flags_step os g wd wanted) (tb, flags) w =
    (Val (tt.mk_table (tt.flags tb) (tt.columns tb)
            (tt.lines tb
               ++ map (flag_row g wd) (List.filter (row_due wanted flags) l)),
          cleared l flags), w).
Proof.
  intros Ha. induction l as [|fl l IH]; intros tb flags Hd Hu Hc.
  - simpl. rewrite app_nil_r. destruct tb; reflexivity.
  - simpl in Hd. apply andb_prop in Hd. destruct Hd as [Hfl Hd].
    rewrite forallb_forall in Hfl.
    assert (Hsame : List.filter
                      (row_due wanted (Z.land flags (u32_not (wdflag.flag fl))))
                      l
                    = List.filter (row_due wanted flags) l).
    { apply filter_ext_in. intros fl' Hin. unfold row_due.
      rewrite land_cleared_disjoint; [reflexivity|exact Hu|].
      apply Z.eqb_eq. apply Hfl. exact Hin. }
    rewrite for_each_cons, bind_unfold.
    unfold show_flags_step at 1. rewrite bind_unfold.
    simpl List.filter. unfold row_due at 1.
    destruct (wanted =? 0), (Z.land wanted (wdflag.flag fl) =? 0),
      (Z.land flags (wdflag.flag fl) =? 0); cbn [negb andb orb];
      rewrite ?(add_flag_line_ok tb wd fl w Ha Hc);
      unfold mret, M_ret; cbv beta iota;
      (rewrite IH; [|exact Hd|apply land_cleared_u32, Hu|exact Hc]);
      rewrite Hsame; simpl; rewrite <- ?app_assoc; reflexivity.
Qed.

Lemma selected_flags_NoDup (wd : wdinfo) (wanted : Z) (l : list wdflag.t) :
  disjoint_flags l = true ->
  NoDup (map wdflag.flag (List.filter (flag_selected wd wanted) l)).
Proof.
  induction l as [|fl l IH]; intros Hd; simpl.
  - constructor.
  - simpl in Hd. apply andb_prop in Hd. destruct Hd as [Hfl Hd].
    rewrite forallb_forall in Hfl.
    destruct (flag_selected wd wanted fl) eqn:Hs; [|apply IH, Hd].
    simpl. constructor; [|apply IH, Hd].
    rewrite list_elem_of_In, in_map_iff. intros (fl' & Heq & Hin).
    apply filter_In in Hin. destruct Hin as [Hin _].
    apply Hfl, Z.eqb_eq in Hin. rewrite Heq, Z.land_diag in Hin.
    unfold flag_selected in Hs. rewrite Hin, Z.land_0_r in Hs.
    discriminate Hs.
Qed.

(** C2.  With valid selected columns, memory for the table and known flags
    that share no bit, [show_flags] renders a table whose rows are, in the
    order of the static flag table, the rows of exactly the known flags
    whose bit is set in the supported options and, when a filter was given
    ([wanted] is not 0), in the filter as well: one row for each of them,
    none twice, none dropped, none for any other flag. *)
Theorem flag_table_rows (wd : wdinfo) (tt_flags wanted : Z) (w : world) :
  alloc_table os = true ->
  (forall n, alloc_column os n = true) ->
  (forall n, alloc_line os n = true) ->
  disjoint_flags wdflags = true ->
  exists tb,
    show_flags os g wd tt_flags wanted w =
      (Val 0,
       {| errno := errno w; nwrites := nwrites w;
          trace := trace w ++ unknown_flags_warning wd ++ [PrintTable tb] |})
    /\ tt.lines tb = map (flag_row g wd) (selected_flags wd wanted)
    /\ NoDup (map wdflag.flag (selected_flags wd wanted))
    /\ forall fl,
         In fl (selected_flags wd wanted) <->
         In fl wdflags
         /\ Z.land (supported_options wd) (wdflag.flag fl) <> 0
         /\ (wanted = 0 \/ Z.land wanted (wdflag.flag fl) <> 0).
Proof.
  intros Hat Hac Hal Hd.
  destruct (define_columns_ok w Hac (seq 0 (Z.to_nat (ncolumns g)))
              (tt.mk_table tt_flags [] []))
    as (tb1 & E1 & Hlen & Hlines).
  { intros i Hi. apply in_seq in Hi. lia. }
  simpl in Hlen, Hlines. rewrite length_seq in Hlen.
  pose proof (show_flags_loop_ok wd wanted w Hal wdflags tb1
                (supported_options wd) Hd (supported_options_u32 wd) Hlen)
    as El.
  rewrite Hlines, cleared_wdflags in El. simpl app in El.
  eexists. split; [|split; [|split]].
  - unfold show_flags, tt_new_table. rewrite Hat.
    unfold upto. rewrite bind_unfold, E1, bind_unfold.
    fold (supported_options wd). rewrite El.
    unfold unknown_flags_warning, unknown_flags_message.
    destruct (unknown_flags wd =? 0); unfold_m; simpl;
      rewrite <- ?app_assoc; reflexivity.
  - reflexivity.
  - apply selected_flags_NoDup, Hd.
  - intros fl. unfold selected_flags. rewrite filter_In.
    unfold flag_selected. rewrite andb_true_iff, orb_true_iff,
      !negb_true_iff, !Z.eqb_neq, Z.eqb_eq. tauto.
Qed.

End flag_rows.

(** ** The option loop *)

Section options.
Context {H : headers}.

(** The [switch] of the option loop, case by case. *)
Lemma main_option_cases (st : locals) (c : ascii) (optarg : string) :
  (c = "d"%char
   /\ main_option st c optarg = mret (set_wd st (set_device (wd st) optarg)))
  \/ (c = "o"%char
      /\ main_option st c optarg =
         ('(n, ary) ← string_to_idarray optarg (columns (glob st))
                        (length (columns (glob st))) column2id;
          let st := set_glob st {| columns := ary; ncolumns := n |} in
          if n <? 0 then exit EXIT_FAILURE else mret st))
  \/ (c = "f"%char
      /\ main_option st c optarg =
         ('(rc, mask) ← string_to_bitmask optarg (wanted st) name2bit;
          let st := set_wanted st (Z.land mask UINT32_MAX) in
          if negb (rc =? 0) then exit EXIT_FAILURE else mret st))
  \/ (c = "V"%char
      /\ main_option st c optarg =
         (printf UTIL_LINUX_VERSION;; exit EXIT_SUCCESS))
  \/ (c = "h"%char /\ main_option st c optarg = usage false)
  \/ (c = "F"%char /\ main_option st c optarg = mret (set_noflags st true))
  \/ (c = "I"%char /\ main_option st c optarg = mret (set_noident st true))
  \/ (c = "T"%char
      /\ main_option st c optarg = mret (set_notimeouts st true))
  \/ (c = "n"%char
      /\ main_option st c optarg =
         mret (set_tt_flags st (Z.lor (tt_flags st) TT_FL_NOHEADINGS)))
  \/ (c = "r"%char
      /\ main_option st c optarg =
         mret (set_tt_flags st (Z.lor (tt_flags st) TT_FL_RAW)))
  \/ (c = "P"%char
      /\ main_option st c optarg =
         mret (set_tt_flags st (Z.lor (tt_flags st) TT_FL_EXPORT)))
  \/ main_option st c optarg = usage true.
Proof.
  destruct c as [[] [] [] [] [] [] [] []];
    try (repeat right; reflexivity);
    repeat first [left; split; reflexivity | right].
Qed.

(** *** [-f]: flag names *)

Lemma name2bit_from_inv (tbl : list wdflag.t) (name : string) (n : nat)
    (w : world) :
  (exists fl, In fl tbl /\ name2bit_from tbl name n w = (Val (wdflag.flag fl), w))
  \/ exists w', name2bit_from tbl name n w = (Val (-1), w').
Proof.
  induction tbl as [|fl tbl IH]; simpl.
  - right. unfold_m. eexists. reflexivity.
  - destruct ((strncasecmp name (wdflag.name fl) n =? 0)
              && (char_at (wdflag.name fl) n =? 0)).
    + left. exists fl. split; [left; reflexivity|reflexivity].
    + destruct IH as [(fl' & Hin & E)|(w' & E)].
      * left. exists fl'. split; [right; exact Hin|exact E].
      * right. exists w'. exact E.
Qed.

Lemma flags_positive_inv (fl : wdflag.t) :
  flags_positive = true -> In fl wdflags ->
  0 < wdflag.flag fl <= UINT32_MAX.
Proof.
  unfold flags_positive. rewrite forallb_forall. intros Hp Hin.
  apply Hp in Hin. apply andb_prop in Hin. destruct Hin as [Ha Hb].
  apply Z.ltb_lt in Ha. apply Z.leb_le in Hb. lia.
Qed.

Lemma land_u32_id (x : Z) : 0 <= x <= UINT32_MAX -> Z.land x UINT32_MAX = x.
Proof.
  intros Hx. change UINT32_MAX with (Z.ones 32).
  rewrite Z.land_ones by lia. apply Z.mod_small.
  change UINT32_MAX with (2 ^ 32 - 1) in Hx. lia.
Qed.

Lemma lor_flag_nonzero (mask f : Z) :
  0 < f <= UINT32_MAX -> Z.land (Z.lor mask f) UINT32_MAX <> 0.
Proof.
  intros Hf E. rewrite Z.land_lor_distr_l, (land_u32_id f) in E by lia.
  apply Z.lor_eq_0_iff in E. lia.
Qed.

Lemma lor_keeps_nonzero (mask f : Z) :
  Z.land mask UINT32_MAX <> 0 -> Z.land (Z.lor mask f) UINT32_MAX <> 0.
Proof.
  intros Hm E. rewrite Z.land_lor_distr_l in E.
  apply Z.lor_eq_0_iff in E. tauto.
Qed.

(** [string_to_bitmask] always returns to its caller. *)
Lemma bitmask_fill_val (names : list (string * nat)) :
  forall (mask : Z) (w : world),
    exists rc mask' w',
      bitmask_fill names mask name2bit w = (Val (rc, mask'), w').
Proof.
  induction names as [|[p len] names IH]; intros mask w; simpl.
  - eexists _, _, _. reflexivity.
  - rewrite bind_unfold. unfold name2bit.
    destruct (name2bit_from_inv wdflags p len w) as [(fl & _ & E)|(w' & E)];
      rewrite E.
    + destruct (wdflag.flag fl <? 0); [eexists _, _, _; reflexivity|apply IH].
    + eexists _, _, _. reflexivity.
Qed.

(** A [-f] list that is accepted leaves a mask that is not empty and
    leaves no trace. *)
Lemma bitmask_fill_inv (names : list (string * nat)) :
  forall (mask : Z) (w : world),
    exists rc mask' w',
      bitmask_fill names mask name2bit w = (Val (rc, mask'), w')
      /\ (rc = 0 ->
          w' = w
          /\ (flags_positive = true -> names <> [] ->
              Z.land mask' UINT32_MAX <> 0)).
Proof.
  assert (Hmono : forall names (mask : Z) (w : world) mask' w',
            bitmask_fill names mask name2bit w = (Val (0, mask'), w') ->
            Z.land mask UINT32_MAX <> 0 -> Z.land mask' UINT32_MAX <> 0).
  { clear names. induction names as [|[p len] names IH];
      intros mask w mask' w' E Hnz; simpl in E.
    - unfold_m. inversion E; subst. exact Hnz.
    - rewrite bind_unfold in E. unfold name2bit in E.
      destruct (name2bit_from_inv wdflags p len w)
        as [(fl & _ & E1)|(w1 & E1)]; rewrite E1 in E.
      + destruct (Z.ltb_spec (wdflag.flag fl) 0) as [Hneg|Hpos].
        { unfold_m. inversion E. lia. }
        eapply IH; [exact E|]. apply lor_keeps_nonzero, Hnz.
      + discriminate E. }
  induction names as [|[p len] names IH]; intros mask w.
  - exists 0, mask, w. split; [reflexivity|]. intros _.
    split; [reflexivity|]. congruence.
  - simpl bitmask_fill. rewrite bind_unfold. unfold name2bit.
    destruct (name2bit_from_inv wdflags p len w) as [(fl & Hin & E)|(w' & E)];
      rewrite E.
    + destruct (Z.ltb_spec (wdflag.flag fl) 0) as [Hneg|Hpos].
      { exists (wdflag.flag fl), mask, w. split; [reflexivity|].
        intros Hrc. lia. }
      destruct (IH (Z.lor mask (wdflag.flag fl)) w)
        as (rc & mask' & w' & E' & Hok).
      exists rc, mask', w'. split; [exact E'|]. intros Hrc.
      destruct (Hok Hrc) as (Hw & _). split; [exact Hw|].
      intros Hp _. subst rc.
      eapply Hmono; [exact E'|].
      apply lor_flag_nonzero. apply (flags_positive_inv fl Hp Hin).
    + exists (-1), mask, w'. split; [reflexivity|]. intros Hrc. discriminate Hrc.
Qed.

(** *** [-o]: column names *)

Lemma column2id_from_spec (tbl : list colinfo.t) (name : string) (n : nat)
    (w : world) :
  forall i,
    column2id_from i tbl name n w =
    match first_match i tbl name n with
    | Some id => (Val id, w)
    | None =>
        (Val (-1),
         {| errno := errno w; nwrites := nwrites w;
            trace := trace w ++ [Stderr ("unknown column: " ++ name) None] |})
    end.
Proof.
  induction tbl as [|ci tbl IH]; intros i; simpl.
  - reflexivity.
  - unfold column_matches.
    destruct ((strncasecmp name (colinfo.name ci) n =? 0)
              && (char_at (colinfo.name ci) n =? 0)); [reflexivity|apply IH].
Qed.

Lemma first_match_range (tbl : list colinfo.t) (name : string) (n : nat) :
  forall i id,
    first_match i tbl name n = Some id ->
    i <= id < i + Z.of_nat (length tbl).
Proof.
  induction tbl as [|ci tbl IH]; intros i id E; simpl in E.
  - discriminate E.
  - destruct (column_matches name n ci).
    + inversion E; subst. simpl length. lia.
    + apply IH in E. simpl length. lia.
Qed.

Lemma column_of_range (name : string) (n : nat) (id : Z) :
  column_of name n = Some id -> 0 <= id < 4.
Proof. intros E. apply first_match_range in E. simpl in E. lia. Qed.

Lemma take_S_insert (ary : list Z) (n : nat) (id : Z) :
  (n < length ary)%nat ->
  take (S n) (<[n := id]> ary) = take n ary ++ [id].
Proof.
  intros Hn. rewrite (take_S_r _ n id).
  - rewrite take_insert_ge by lia. reflexivity.
  - apply list_lookup_insert_eq. exact Hn.
Qed.

(** [string_to_idarray] always returns to its caller. *)
Lemma idarray_fill_val (names : list (string * nat)) (arysz : nat) :
  forall (ary : list Z) (n : nat) (w : world),
    exists cnt ary' w',
      idarray_fill names ary n arysz column2id w = (Val (cnt, ary'), w').
Proof.
  induction names as [|[p len] names IH]; intros ary n w; simpl.
  - eexists _, _, _. reflexivity.
  - destruct (arysz <=? n)%nat; [eexists _, _, _; reflexivity|].
    rewrite bind_unfold. unfold column2id. rewrite column2id_from_spec.
    destruct (first_match 0 infos p len) as [id|].
    + destruct (id =? -1); [eexists _, _, _; reflexivity|].
      destruct (existsb (Z.eqb id) (take n ary));
        [eexists _, _, _; reflexivity|apply IH].
    + eexists _, _, _. reflexivity.
Qed.

(** A [-o] list that is accepted: every name is a known column, no column
    is named twice, and the array holds the columns in the order of the
    list. *)
Lemma idarray_fill_ok (names : list (string * nat)) (arysz : nat) :
  forall (ary : list Z) (n : nat) (w : world) (cnt : Z) (ary' : list Z)
         (w' : world),
    (arysz <= length ary)%nat ->
    (n <= arysz)%nat ->
    idarray_fill names ary n arysz column2id w = (Val (cnt, ary'), w') ->
    0 <= cnt ->
    w' = w
    /\ cnt = Z.of_nat (n + length names)
    /\ (n + length names <= arysz)%nat
    /\ length ary' = length ary
    /\ map Some (take (n + length names) ary') =
         map Some (take n ary)
           ++ map (fun p => column_of (fst p) (snd p)) names
    /\ (NoDup (take n ary) -> NoDup (take (n + length names) ary')).
Proof.
  induction names as [|[p len] names IH];
    intros ary n w cnt ary' w' Hsz Hn E Hcnt; simpl in E.
  - unfold_m. inversion E; subst. simpl. rewrite Nat.add_0_r, app_nil_r.
    auto 10.
  - destruct (Nat.leb_spec arysz n) as [Hle|Hlt].
    { unfold_m. inversion E; subst. lia. }
    rewrite bind_unfold in E. unfold column2id in E.
    rewrite column2id_from_spec in E.
    destruct (first_match 0 infos p len) as [id|] eqn:Ef.
    2:{ unfold_m. simpl in E. inversion E; subst. lia. }
    pose proof (column_of_range p len id Ef) as Hid.
    assert ((id =? -1) = false) as Hne by (apply Z.eqb_neq; lia).
    rewrite Hne in E.
    destruct (existsb (Z.eqb id) (take n ary)) eqn:Ex.
    { unfold_m. inversion E; subst. lia. }
    apply IH in E; [|rewrite length_insert; lia|lia|exact Hcnt].
    destruct E as (Hw & Hc & Hle & Hlen & Hmap & Hnd).
    rewrite length_insert in Hlen.
    rewrite take_S_insert in Hmap, Hnd by lia.
    simpl length. rewrite Nat.add_succ_r.
    change (S n + length names)%nat with (S (n + length names)) in *.
    split; [exact Hw|]. split; [exact Hc|]. split; [exact Hle|].
    split; [exact Hlen|]. split.
    + rewrite Hmap, map_app, <- app_assoc. simpl. unfold column_of.
      rewrite Ef. reflexivity.
    + intros Hnd0. apply Hnd. apply NoDup_app. split; [exact Hnd0|].
      split; [|apply NoDup_singleton].
      intros x Hx Hx'. apply list_elem_of_singleton in Hx'. subst x.
      apply list_elem_of_In in Hx.
      assert (existsb (Z.eqb id) (take n ary) = true) as Hc'
        by (apply existsb_exists; exists id; split;
            [exact Hx|apply Z.eqb_refl]).
      rewrite Hc' in Ex. discriminate Ex.
Qed.

Lemma list_names_length (s : string) : (1 <= length (list_names s))%nat.
Proof.
  unfold list_names. destruct s; simpl; lia.
Qed.

Lemma set_device_id (w : wdinfo) : set_device w (device w) = w.
Proof. destruct w; reflexivity. Qed.

(** *** One option *)

(** [-o] with a list that is accepted. *)
Lemma main_option_o_val (st st' : locals) (optarg : string) (w w' : world) :
  length (columns (glob st)) = 4%nat ->
  main_option st "o" optarg w = (Val st', w') ->
  w' = w
  /\ st' = set_glob st (glob st')
  /\ columns_ok (glob st') = true
  /\ map Some (selected_columns (glob st')) = columns_named optarg.
Proof.
  intros Hlen E. change (main_option st "o" optarg) with
    ('(n, ary) ← string_to_idarray optarg (columns (glob st))
                   (length (columns (glob st))) column2id;
     let st := set_glob st {| columns := ary; ncolumns := n |} in
     if n <? 0 then exit EXIT_FAILURE else mret st) in E.
  rewrite bind_unfold in E. unfold string_to_idarray in E.
  destruct (idarray_fill_val (list_names optarg) (length (columns (glob st)))
              (columns (glob st)) 0 w) as (n & ary & w1 & Ef).
  rewrite Ef in E. cbv beta iota zeta in E.
  destruct (Z.ltb_spec n 0) as [Hneg|Hpos]; [discriminate E|].
  apply idarray_fill_ok in Ef; [|lia|lia|exact Hpos].
  destruct Ef as (Hw & Hn & Hle & Hl & Hmap & Hnd).
  simpl in Hn, Hle, Hmap. unfold_m. inversion E; subst st' w' w1.
  pose proof (list_names_length optarg) as Hne.
  assert (Hsel : selected_columns {| columns := ary; ncolumns := n |}
                 = take (length (list_names optarg)) ary).
  { unfold selected_columns. simpl. rewrite Hn, Nat2Z.id. reflexivity. }
  split; [reflexivity|]. split; [reflexivity|]. simpl glob. split.
  - unfold columns_ok. rewrite Hsel. simpl columns. simpl ncolumns.
    rewrite !andb_true_iff. repeat split.
    + apply Nat.eqb_eq. lia.
    + apply Z.ltb_lt. lia.
    + apply Z.leb_le. lia.
    + apply forallb_forall. intros id Hin.
      assert (In (Some id) (columns_named optarg)) as Hin'.
      { unfold columns_named. rewrite <- Hmap. apply in_map. exact Hin. }
      unfold columns_named in Hin'. apply in_map_iff in Hin'.
      destruct Hin' as ([p len] & Hc & _). apply column_of_range in Hc.
      apply andb_true_iff. split; [apply Z.leb_le|apply Z.ltb_lt]; lia.
    + apply bool_decide_eq_true. apply Hnd. constructor.
  - rewrite Hsel. exact Hmap.
Qed.

(** [-f] with a list that is accepted. *)
Lemma main_option_f_val (st st' : locals) (optarg : string) (w w' : world) :
  main_option st "f" optarg w = (Val st', w') ->
  w' = w /\ st' = set_wanted st (wanted st')
  /\ (flags_positive = true -> wanted st' <> 0).
Proof.
  intros E. change (main_option st "f" optarg) with
    ('(rc, mask) ← string_to_bitmask optarg (wanted st) name2bit;
     let st := set_wanted st (Z.land mask UINT32_MAX) in
     if negb (rc =? 0) then exit EXIT_FAILURE else mret st) in E.
  rewrite bind_unfold in E. unfold string_to_bitmask in E.
  destruct (bitmask_fill_inv (list_names optarg) (wanted st) w)
    as (rc & mask' & w1 & Ef & Hok).
  rewrite Ef in E. cbv beta iota zeta in E.
  destruct (Z.eqb_spec rc 0) as [Hrc|Hrc]; [|discriminate E].
  destruct (Hok Hrc) as (Hw & Hnz).
  unfold_m. simpl in E. inversion E; subst st' w' w1.
  split; [reflexivity|]. split; [reflexivity|]. simpl. intros Hp.
  apply (Hnz Hp).
  pose proof (list_names_length optarg) as Hl.
  destruct (list_names optarg); [simpl in Hl; lia|discriminate].
Qed.

(** What an option that lets the loop go on has done. *)
Lemma main_option_val (st st' : locals) (c : ascii) (optarg : string)
    (w w' : world) :
  length (columns (glob st)) = 4%nat ->
  main_option st c optarg w = (Val st', w') ->
  w' = w
  /\ noflags st' = noflags st || Ascii.eqb c "F"
  /\ noident st' = noident st || Ascii.eqb c "I"
  /\ notimeouts st' = notimeouts st || Ascii.eqb c "T"
  /\ wd st' = set_device (wd st) (device (wd st'))
  /\ (if Ascii.eqb c "f" then flags_positive = true -> wanted st' <> 0
      else wanted st' = wanted st)
  /\ (if Ascii.eqb c "o"
      then columns_ok (glob st') = true
           /\ map Some (selected_columns (glob st')) = columns_named optarg
      else glob st' = glob st).
Proof.
  intros Hlen E.
  destruct (main_option_cases st c optarg)
    as [(-> & Eq)|[(-> & Eq)|[(-> & Eq)|[(-> & Eq)|[(-> & Eq)|[(-> & Eq)|
       [(-> & Eq)|[(-> & Eq)|[(-> & Eq)|[(-> & Eq)|[(-> & Eq)|Eq]]]]]]]]]]].
  all: try solve
             [rewrite Eq in E; unfold usage in E; unfold_m;
              first [discriminate E
                    | inversion E; subst st' w'; simpl;
                      rewrite ?orb_false_r, ?orb_true_r, ?set_device_id;
                      auto 10]].
  - destruct (main_option_o_val st st' optarg w w' Hlen E)
      as (Hw & Hst & Hok & Hmap).
    rewrite Hst. simpl. rewrite ?orb_false_r, set_device_id. auto 10.
  - destruct (main_option_f_val st st' optarg w w' E) as (Hw & Hst & Hnz).
    rewrite Hst. simpl. rewrite ?orb_false_r, set_device_id. auto 10.
Qed.

(** An option that ends the run ends it with a failure, help and version
    apart. *)
Lemma main_option_exit (st : locals) (c : ascii) (optarg : string)
    (w w' : world) (code : Z) :
  main_option st c optarg w = (Exit code, w') ->
  code = EXIT_FAILURE
  \/ (code = EXIT_SUCCESS /\ (c = "h"%char \/ c = "V"%char)).
Proof.
  intros E.
  destruct (main_option_cases st c optarg)
    as [(-> & Eq)|[(-> & Eq)|[(-> & Eq)|[(-> & Eq)|[(-> & Eq)|[(-> & Eq)|
       [(-> & Eq)|[(-> & Eq)|[(-> & Eq)|[(-> & Eq)|[(-> & Eq)|Eq]]]]]]]]]]];
    rewrite Eq in E; clear Eq.
  all: try solve
             [unfold usage in E; unfold_m; simpl in E;
              first [discriminate E | inversion E; subst; auto]].
  - rewrite bind_unfold in E.
    destruct (string_to_idarray _ _ _ _ w) as [[[n ary]| | |] w1] eqn:Ef0;
      try discriminate E.
    + simpl in E. destruct (n <? 0); unfold_m; inversion E; auto.
    + exfalso.
      destruct (idarray_fill_val (list_names optarg)
                  (length (columns (glob st))) (columns (glob st)) 0 w)
        as (? & ? & ? & Ef).
      unfold string_to_idarray in Ef0. rewrite Ef in Ef0. discriminate Ef0.
  - rewrite bind_unfold in E.
    destruct (string_to_bitmask _ _ _ w) as [[[rc mask]| | |] w1] eqn:Ef;
      try discriminate E.
    + simpl in E. destruct (negb (rc =? 0)); unfold_m; inversion E; auto.
    + exfalso.
      destruct (bitmask_fill_val (list_names optarg) (wanted st) w)
        as (? & ? & ? & Ef').
      unfold string_to_bitmask in Ef. rewrite Ef' in Ef. discriminate Ef.
Qed.

(** An option never stops the model: it lets the loop go on or ends
    the process. *)
Lemma main_option_result (st : locals) (c : ascii) (optarg : string)
    (w : world) :
  exists w',
    (exists st', main_option st c optarg w = (Val st', w'))
    \/ (exists code, main_option st c optarg w = (Exit code, w')).
Proof.
  destruct (main_option_cases st c optarg)
    as [(-> & Eq)|[(-> & Eq)|[(-> & Eq)|[(-> & Eq)|[(-> & Eq)|[(-> & Eq)|
       [(-> & Eq)|[(-> & Eq)|[(-> & Eq)|[(-> & Eq)|[(-> & Eq)|Eq]]]]]]]]]]];
    rewrite Eq; clear Eq.
  all: try solve [unfold usage; unfold_m; eexists; eauto].
  - rewrite bind_unfold. unfold string_to_idarray.
    destruct (idarray_fill_val (list_names optarg)
                (length (columns (glob st))) (columns (glob st)) 0 w)
      as (n & ary & w1 & Ef).
    rewrite Ef. simpl. destruct (n <? 0); unfold_m; eexists; eauto.
  - rewrite bind_unfold. unfold string_to_bitmask.
    destruct (bitmask_fill_val (list_names optarg) (wanted st) w)
      as (rc & mask & w1 & Ef).
    rewrite Ef. simpl. destruct (negb (rc =? 0)); unfold_m; eexists; eauto.
Qed.

(** *** The whole loop *)

Lemma option_body_pair (st : locals) (c : ascii) (optarg : string) :
  option_body st (c, optarg) = main_option st c optarg.
Proof. reflexivity. Qed.

Lemma option_loop_val (opts : list (ascii * string)) :
  forall (st st' : locals) (w w' : world),
    columns_state_ok (glob st) ->
    for_each opts option_body st w = (Val st', w') ->
    w' = w
    /\ noflags st' = noflags st || has_option "F" opts
    /\ noident st' = noident st || has_option "I" opts
    /\ notimeouts st' = notimeouts st || has_option "T" opts
    /\ wd st' = set_device (wd st) (device (wd st'))
    /\ (flags_positive = true ->
        wanted st <> 0 \/ has_option "f" opts = true -> wanted st' <> 0)
    /\ columns_state_ok (glob st')
    /\ (glob st' = glob st
        \/ exists optarg,
             In ("o"%char, optarg) opts
             /\ map Some (selected_columns (glob st')) = columns_named optarg).
Proof.
  induction opts as [|[c optarg] opts IH]; intros st st' w w' Hg E.
  - rewrite for_each_nil in E. unfold_m. inversion E; subst. simpl.
    rewrite !orb_false_r, set_device_id.
    repeat split; try tauto; try apply Hg.
    intros _ [Hw|Hf]; [exact Hw|discriminate Hf].
  - rewrite for_each_cons, bind_unfold in E.
    rewrite option_body_pair in E.
    destruct (main_option st c optarg w) as [[st1| | |] w1] eqn:E1;
      try discriminate E.
    destruct (main_option_val st st1 c optarg w w1 (proj1 Hg) E1)
      as (-> & Hnf & Hni & Hnt & Hwd & Hwa & Hgl).
    assert (Hg1 : columns_state_ok (glob st1)).
    { destruct (Ascii.eqb c "o").
      - destruct Hgl as [Hok _]. split; [|right; exact Hok].
        unfold columns_ok in Hok. rewrite !andb_true_iff in Hok.
        apply Nat.eqb_eq. tauto.
      - rewrite Hgl. exact Hg. }
    destruct (IH st1 st' w w' Hg1 E)
      as (-> & Hnf' & Hni' & Hnt' & Hwd' & Hwa' & Hg' & Hsel').
    unfold has_option in *. simpl existsb.
    rewrite Hnf', Hni', Hnt', Hnf, Hni, Hnt, !orb_assoc.
    split; [reflexivity|]. split; [reflexivity|]. split; [reflexivity|].
    split; [reflexivity|]. split.
    { rewrite Hwd', Hwd. reflexivity. }
    split.
    { intros Hp Hw. apply (Hwa' Hp). destruct (Ascii.eqb c "f").
      - left. exact (Hwa Hp).
      - rewrite Hwa. simpl in Hw. exact Hw. }
    split; [exact Hg'|].
    destruct Hsel' as [Hsame|(oa & Hin & Hmap)].
    + destruct (Ascii.eqb_spec c "o") as [->|Hc].
      * right. exists optarg. split; [left; reflexivity|].
        rewrite Hsame. apply Hgl.
      * left. rewrite Hsame. exact Hgl.
    + right. exists oa. split; [right; exact Hin|exact Hmap].
Qed.

Lemma option_loop_exit (opts : list (ascii * string)) :
  forall (st : locals) (w w' : world) (code : Z),
    for_each opts option_body st w = (Exit code, w') ->
    code = EXIT_FAILURE
    \/ (code = EXIT_SUCCESS
        /\ (has_option "h" opts = true \/ has_option "V" opts = true)).
Proof.
  induction opts as [|[c optarg] opts IH]; intros st w w' code E.
  - rewrite for_each_nil in E. discriminate E.
  - rewrite for_each_cons, bind_unfold in E.
    rewrite option_body_pair in E.
    unfold has_option. simpl.
    destruct (main_option st c optarg w) as [[st1| | |] w1] eqn:E1;
      try discriminate E.
    + apply IH in E. unfold has_option in E.
      destruct E as [E|(E & [Hh|Hv])]; [left; exact E| |];
        right; (split; [exact E|]); rewrite ?Hh, ?Hv, ?orb_true_r; auto.
    + inversion E; subst.
      apply main_option_exit in E1.
      destruct E1 as [E1|(E1 & [-> | ->])]; [left; exact E1| |];
        right; (split; [exact E1|]); simpl; auto.
Qed.

Lemma option_loop_result (opts : list (ascii * string)) :
  forall (st : locals) (w : world),
    exists w',
      (exists st', for_each opts option_body st w = (Val st', w'))
      \/ (exists code, for_each opts option_body st w = (Exit code, w')).
Proof.
  induction opts as [|[c optarg] opts IH]; intros st w.
  - exists w. left. exists st. reflexivity.
  - rewrite for_each_cons, bind_unfold.
    rewrite !option_body_pair.
    destruct (main_option_result st c optarg w)
      as (w1 & [(st1 & E1)|(code & E1)]); rewrite E1.
    + apply IH.
    + exists w1. right. exists code. reflexivity.
Qed.

End options.

(** ** Comparing names *)

Section names.
Context {H : headers}.

Lemma char_code_inj (a b : ascii) : char_code a = char_code b -> a = b.
Proof.
  unfold char_code. intros E. apply Nat2Z.inj in E.
  rewrite <- (ascii_nat_embedding a), <- (ascii_nat_embedding b), E.
  reflexivity.
Qed.

Lemma tolower_not_nul (c : ascii) :
  char_code c <> 0 -> char_code (tolower c) <> 0.
Proof.
  intros Hc. unfold tolower.
  destruct ((65 <=? char_code c) && (char_code c <=? 90)) eqn:Hu;
    [|exact Hc].
  apply andb_prop in Hu. destruct Hu as [Ha Hb].
  apply Z.leb_le in Ha. apply Z.leb_le in Hb.
  unfold char_code at 1. rewrite nat_ascii_embedding by lia. lia.
Qed.

(** [column2id] and [name2bit] accept a name for an entry exactly when
    the two are the same text, case apart. *)
Lemma strncasecmp_same_text (n : nat) :
  forall s1 s2 : string,
    c_string s1 = true -> c_string s2 = true ->
    (n <= String.length s1)%nat ->
    (strncasecmp s1 s2 n =? 0) && (char_at s2 n =? 0) = true <->
    lower (name_text s1 n) = lower s2.
Proof.
  unfold name_text.
  induction n as [|n IH]; intros s1 s2 H1 H2 Hn.
  - cbn [strncasecmp]. change (0 =? 0) with true. rewrite andb_true_l.
    replace (substring 0 0 s1) with EmptyString by (destruct s1; reflexivity).
    destruct s2 as [|c2 r2]; simpl.
    + split; reflexivity.
    + unfold c_string in H2. simpl in H2. apply andb_prop in H2.
      destruct H2 as [Hc _]. apply negb_true_iff in Hc.
      unfold char_at. simpl. rewrite Hc. split; discriminate.
  - destruct s1 as [|c1 r1]; [simpl in Hn; lia|].
    unfold c_string in H1. simpl in H1. apply andb_prop in H1.
    destruct H1 as [Hc1 H1]. apply negb_true_iff, Z.eqb_neq in Hc1.
    pose proof (tolower_not_nul c1 Hc1) as Hl1.
    destruct s2 as [|c2 r2].
    + simpl. apply Z.eqb_neq in Hl1. rewrite Hl1. split; discriminate.
    + unfold c_string in H2. simpl in H2. apply andb_prop in H2.
      destruct H2 as [_ H2].
      change (char_at (String c2 r2) (S n)) with (char_at r2 n).
      simpl strncasecmp. simpl substring. simpl lower.
      destruct (Z.eqb_spec (char_code (tolower c1) - char_code (tolower c2)) 0)
        as [Hd|Hd].
      * assert (tolower c1 = tolower c2) as Hc
          by (apply char_code_inj; lia).
        rewrite (IH r1 r2 H1 H2) by (simpl in Hn; lia).
        rewrite Hc. split; [intros ->; reflexivity|].
        intros E. inversion E. reflexivity.
      * apply Z.eqb_neq in Hd. rewrite Hd. simpl. split; [discriminate|].
        intros E. inversion E as [[Hc Hr]]. rewrite Hc, Z.sub_diag in Hd.
        discriminate Hd.
Qed.

Lemma name_len_le (s : string) : (name_len s <= String.length s)%nat.
Proof.
  induction s as [|c r IH]; simpl; [lia|].
  destruct (Ascii.eqb c ","); simpl; lia.
Qed.

(** Each name of a list is given to the callback as a part of the list
    and a length within it. *)
Lemma names_from_inv (s : string) :
  forall (start : bool) (p : string) (len : nat),
    In (p, len) (names_from start s) ->
    (len <= String.length p)%nat /\ (c_string s = true -> c_string p = true).
Proof.
  induction s as [|c r IH]; intros start p len Hin; simpl in Hin.
  - destruct start; [|contradiction].
    destruct Hin as [E|[]]. inversion E; subst. split; [simpl; lia|auto].
  - apply in_app_or in Hin. destruct Hin as [Hin|Hin].
    + destruct start; [|contradiction].
      destruct Hin as [E|[]]. inversion E; subst.
      split; [apply (name_len_le (String c r))|auto].
    + apply IH in Hin. destruct Hin as [Hl Hc]. split; [exact Hl|].
      intros Hs. apply Hc. unfold c_string in *. simpl in Hs.
      apply andb_prop in Hs. tauto.
Qed.

Lemma infos_c_strings (ci : colinfo.t) :
  In ci infos -> c_string (colinfo.name ci) = true.
Proof.
  intros Hin. simpl in Hin.
  destruct Hin as [<-|[<-|[<-|[<-|[]]]]]; reflexivity.
Qed.

Lemma first_match_some (tbl : list colinfo.t) (name : string) (n : nat) :
  forall i id,
    first_match i tbl name n = Some id ->
    exists ci, tbl !! Z.to_nat (id - i) = Some ci
               /\ column_matches name n ci = true.
Proof.
  induction tbl as [|ci tbl IH]; intros i id E; simpl in E.
  - discriminate E.
  - destruct (column_matches name n ci) eqn:Hm.
    + inversion E; subst. exists ci. rewrite Z.sub_diag. auto.
    + pose proof (first_match_range _ _ _ _ _ E) as Hr.
      apply IH in E. destruct E as (ci' & Hl & Hm').
      exists ci'. split; [|exact Hm'].
      replace (Z.to_nat (id - i)) with (S (Z.to_nat (id - (i + 1)))) by lia.
      exact Hl.
Qed.

Lemma first_match_none (tbl : list colinfo.t) (name : string) (n : nat) :
  forall i,
    first_match i tbl name n = None ->
    forall ci, In ci tbl -> column_matches name n ci = false.
Proof.
  induction tbl as [|ci tbl IH]; intros i E ci' Hin; simpl in E.
  - contradiction.
  - destruct (column_matches name n ci) eqn:Hm; [discriminate E|].
    destruct Hin as [<-|Hin]; [exact Hm|]. eapply IH; eassumption.
Qed.

(** What [column2id] makes of a name: the column whose name is the same
    text, case apart, and no column when there is none. *)
Lemma column_of_same_text (optarg p : string) (len : nat) :
  c_string optarg = true ->
  In (p, len) (list_names optarg) ->
  (forall id,
     column_of p len = Some id ->
     exists ci, infos !! Z.to_nat id = Some ci
                /\ lower (name_text p len) = lower (colinfo.name ci))
  /\ (column_of p len = None ->
      forall ci, In ci infos ->
                 lower (name_text p len) <> lower (colinfo.name ci)).
Proof.
  intros Hs Hin. apply names_from_inv in Hin. destruct Hin as [Hl Hc].
  specialize (Hc Hs). split.
  - intros id E. apply first_match_some in E.
    destruct E as (ci & Hci & Hm). rewrite Z.sub_0_r in Hci.
    exists ci. split; [exact Hci|].
    apply (strncasecmp_same_text len p (colinfo.name ci) Hc); [|exact Hl|exact Hm].
    apply infos_c_strings. apply list_elem_of_In.
    apply list_elem_of_lookup. eauto.
  - intros E ci Hci Heq.
    pose proof (first_match_none _ _ _ _ E ci Hci) as Hm.
    apply (strncasecmp_same_text len p (colinfo.name ci) Hc) in Heq;
      [|apply infos_c_strings, Hci|exact Hl].
    unfold column_matches in Hm. rewrite Hm in Heq. discriminate Heq.
Qed.

End names.

(** ** The command line as a whole *)

Section command_line.
Context {H : headers}.
Variable os : kernel.

Lemma columns_state_ok_locals0 : columns_state_ok (glob locals0).
Proof. split; [reflexivity|left; reflexivity]. Qed.

Lemma message_is_no_device_io (tr : list event) :
  forallb is_message tr = true -> no_device_io tr = true.
Proof.
  unfold no_device_io. rewrite !forallb_forall. intros Hm e He.
  apply Hm in He. destruct e; try discriminate He; reflexivity.
Qed.

(** The columns of a run that has no valid [-o]: all four, in order. *)
Lemma default_columns_ok (g : globals) :
  length (columns g) = 4%nat -> ncolumns g = 0 ->
  let g' := push_column (push_column (push_column (push_column g
              COL_FLAG) COL_DESC) COL_STATUS) COL_BSTATUS in
  columns_ok g' = true
  /\ selected_columns g' = [COL_FLAG; COL_DESC; COL_STATUS; COL_BSTATUS].
Proof.
  destruct g as [cols n]. simpl. intros Hl ->.
  destruct cols as [|a [|b [|c [|d [|e cols]]]]]; try discriminate Hl.
  split; reflexivity.
Qed.

(** What is known when the options have been accepted. *)
Lemma parse_options_val (opts : list (ascii * string)) (operands : bool)
    (st : locals) (w w' : world) :
  parse_options opts operands w = (Val st, w') ->
  w' = w
  /\ noflags st = has_option "F" opts
  /\ noident st = has_option "I" opts
  /\ notimeouts st = has_option "T" opts
  /\ wd st = set_device (wd locals0) (device (wd st))
  /\ (flags_positive = true ->
      has_option "f" opts = true -> has_option "F" opts = false)
  /\ operands = false
  /\ columns_ok (glob st) = true
  /\ (selected_columns (glob st)
        = [COL_FLAG; COL_DESC; COL_STATUS; COL_BSTATUS]
      \/ exists optarg,
           In ("o"%char, optarg) opts
           /\ map Some (selected_columns (glob st)) = columns_named optarg).
Proof.
  unfold parse_options. intros E. rewrite bind_unfold in E.
  destruct (for_each opts option_body locals0 w) as [[st1| | |] w1] eqn:El;
    try discriminate E.
  destruct (option_loop_val opts locals0 st1 w w1 columns_state_ok_locals0 El)
    as (-> & Hnf & Hni & Hnt & Hwd & Hwa & (Hlen & Hst) & Hsel).
  rewrite bind_unfold in E.
  destruct (negb (wanted st1 =? 0) && noflags st1) eqn:Hx.
  { unfold_m. discriminate E. }
  unfold mret at 1, M_ret at 1 in E. cbv beta iota in E.
  rewrite bind_unfold in E. destruct operands.
  { unfold usage in E. unfold_m. discriminate E. }
  unfold_m. cbv beta iota in E. inversion E; subst st w'. clear E.
  simpl. simpl in Hnf, Hni, Hnt.
  split; [reflexivity|]. split; [exact Hnf|]. split; [exact Hni|].
  split; [exact Hnt|]. split; [exact Hwd|]. split.
  { intros Hp Hf. rewrite <- Hnf.
    assert (wanted st1 <> 0) as Hw by (apply (Hwa Hp); right; exact Hf).
    apply Z.eqb_neq in Hw. rewrite Hw in Hx. simpl in Hx. exact Hx. }
  split; [reflexivity|].
  destruct (Z.eqb_spec (ncolumns (glob st1)) 0) as [Hz|Hnz].
  - destruct (default_columns_ok (glob st1) Hlen Hz) as (Hok & Hdef).
    split; [exact Hok|]. left. exact Hdef.
  - destruct Hst as [Hz|Hok]; [contradiction|].
    split; [exact Hok|].
    destruct Hsel as [Hsame|Hsel]; [|right; exact Hsel].
    rewrite Hsame in Hnz. simpl in Hnz. contradiction.
Qed.

(** Option parsing ends in one of two ways: accepted options, or the end
    of the process; a process it ends with status 0 was asked for help or
    the version. *)
Lemma parse_options_result (opts : list (ascii * string)) (operands : bool)
    (w : world) :
  exists w',
    (exists st, parse_options opts operands w = (Val st, w'))
    \/ (exists code,
          parse_options opts operands w = (Exit code, w')
          /\ (code = EXIT_FAILURE
              \/ (code = EXIT_SUCCESS
                  /\ (has_option "h" opts = true
                      \/ has_option "V" opts = true)))).
Proof.
  unfold parse_options. rewrite bind_unfold.
  destruct (option_loop_result opts locals0 w)
    as (w1 & [(st1 & El)|(code & El)]); rewrite El.
  - rewrite bind_unfold.
    destruct (negb (wanted st1 =? 0) && noflags st1).
    { unfold_m. eexists. right. exists EXIT_FAILURE. auto. }
    unfold mret at 1, M_ret at 1. cbv beta iota.
    rewrite bind_unfold. destruct operands.
    { unfold usage. unfold_m. eexists. right. exists EXIT_FAILURE. auto. }
    unfold_m. eexists. left. eexists. reflexivity.
  - exists w1. right. exists code. split; [reflexivity|].
    eapply option_loop_exit, El.
Qed.

(** C3 (amended).  A command line with both [-f] and [-F] never reaches
    the device: the process ends while the options are read.  Its exit
    status is [EXIT_FAILURE], unless [-h] or [-V] is on the command line as
    well, the only way to status 0.  When the option loop runs to its end,
    the process ends with the message that the two options are mutually
    exclusive and nothing else. *)
Theorem flags_and_noflags_are_rejected (fuel : nat)
    (opts : list (ascii * string)) (operands : bool) :
  flags_positive = true ->
  has_option "f" opts = true ->
  has_option "F" opts = true ->
  (exists code w',
     run os fuel opts operands = (Exit code, w')
     /\ no_device_io (trace w') = true
     /\ (code = EXIT_FAILURE
         \/ (code = EXIT_SUCCESS
             /\ (has_option "h" opts = true \/ has_option "V" opts = true))))
  /\ (forall st w1,
        for_each opts option_body locals0 world0 = (Val st, w1) ->
        run os fuel opts operands =
        (Exit EXIT_FAILURE,
         {| errno := 0; nwrites := 0;
            trace := [Stderr "--flags and --noflags are mutually exclusive"
                        None] |})).
Proof.
  intros Hp Hf HF. split.
  - destruct (parse_options_result opts operands world0)
      as (w' & [(st & E)|(code & E & Hcode)]).
    + apply parse_options_val in E.
      destruct E as (_ & _ & _ & _ & _ & Hx & _).
      rewrite (Hx Hp Hf) in HF. discriminate HF.
    + exists code, w'. split; [|split; [|exact Hcode]].
      * unfold run, main. apply bind_exit. exact E.
      * apply message_is_no_device_io.
        apply (parse_options_no_device_io opts operands _ _ E).
  - intros st w1 El.
    destruct (option_loop_val opts locals0 st world0 w1
                columns_state_ok_locals0 El)
      as (-> & Hnf & _ & _ & _ & Hwa & _).
    assert (wanted st <> 0) as Hw by (apply (Hwa Hp); right; exact Hf).
    apply Z.eqb_neq in Hw. simpl in Hnf. rewrite HF in Hnf.
    unfold run, main. apply bind_exit. unfold parse_options.
    rewrite (bind_val _ _ _ _ _ El), bind_unfold, Hw, Hnf. reflexivity.
Qed.

Lemma columns_ok_NoDup (g : globals) :
  columns_ok g = true -> NoDup (selected_columns g).
Proof. intros Hok. apply (columns_ok_inv g Hok). Qed.

Lemma bad_column_list_inv (optarg : string) (l : list Z) :
  bad_column_list optarg = true ->
  map Some l = columns_named optarg ->
  NoDup l -> False.
Proof.
  unfold bad_column_list. intros Hbad Hmap Hnd. rewrite <- Hmap in Hbad.
  apply orb_true_iff in Hbad. destruct Hbad as [Hex|Hdup].
  - apply existsb_exists in Hex. destruct Hex as (o & Hin & Ho).
    apply in_map_iff in Hin. destruct Hin as (id & <- & _). discriminate Ho.
  - apply negb_true_iff, bool_decide_eq_false in Hdup. apply Hdup.
    apply (NoDup_fmap_2 Some). exact Hnd.
Qed.

(** C8.  When the option loop comes to a [-o] whose list has an unknown
    column name or names a column twice, the process ends there with
    [EXIT_FAILURE], and no action on the device is in its trace.
    Options that are accepted leave selected columns that are valid: at
    least one and at most four ids of known columns, none twice -- all
    four in order without [-o], and with it the columns of a [-o] list, in
    the order of the list.  A name of the list is unknown exactly when it
    is the text of none of the four column names, case apart. *)
Theorem bad_column_list_is_rejected :
  (forall (fuel : nat) (pre post : list (ascii * string)) (optarg : string)
          (operands : bool) (st : locals) (w1 : world),
     bad_column_list optarg = true ->
     for_each pre option_body locals0 world0 = (Val st, w1) ->
     exists w',
       run os fuel (pre ++ ("o"%char, optarg) :: post) operands
         = (Exit EXIT_FAILURE, w')
       /\ no_device_io (trace w') = true)
  /\ (forall (opts : list (ascii * string)) (operands : bool) (st : locals)
             (w1 : world),
        parse_options opts operands world0 = (Val st, w1) ->
        columns_ok (glob st) = true
        /\ (selected_columns (glob st)
              = [COL_FLAG; COL_DESC; COL_STATUS; COL_BSTATUS]
            \/ exists optarg,
                 In ("o"%char, optarg) opts
                 /\ bad_column_list optarg = false
                 /\ map Some (selected_columns (glob st))
                      = columns_named optarg))
  /\ (forall (optarg p : string) (len : nat),
        c_string optarg = true ->
        In (p, len) (list_names optarg) ->
        (column_of p len = None <->
         forall ci, In ci infos ->
                    lower (name_text p len) <> lower (colinfo.name ci))).
Proof.
  split; [|split].
  - intros fuel pre post optarg operands st w1 Hbad Epre.
    destruct (option_loop_val pre locals0 st world0 w1
                columns_state_ok_locals0 Epre)
      as (-> & _ & _ & _ & _ & _ & (Hlen & _) & _).
    assert (Eo : exists w',
               main_option st "o" optarg world0 = (Exit EXIT_FAILURE, w')).
    { destruct (main_option_result st "o" optarg world0)
        as (w' & [(st' & E)|(code & E)]).
      - exfalso.
        destruct (main_option_o_val st st' optarg world0 w' Hlen E)
          as (_ & _ & Hok & Hmap).
        apply (bad_column_list_inv optarg _ Hbad Hmap).
        apply columns_ok_NoDup, Hok.
      - exists w'. pose proof (main_option_exit _ _ _ _ _ _ E) as Hc.
        destruct Hc as [->|(_ & [Hc|Hc])]; [exact E| |]; discriminate Hc. }
    destruct Eo as (w' & Eo). exists w'.
    assert (Ep : parse_options (pre ++ ("o"%char, optarg) :: post) operands
                   world0 = (Exit EXIT_FAILURE, w')).
    { unfold parse_options. apply bind_exit.
      rewrite for_each_app, (bind_val _ _ _ _ _ Epre), for_each_cons.
      apply bind_exit. exact Eo. }
    split.
    + unfold run, main. apply bind_exit. exact Ep.
    + apply message_is_no_device_io.
      apply (parse_options_no_device_io _ _ _ _ Ep).
  - intros opts operands st w1 E. apply parse_options_val in E.
    destruct E as (_ & _ & _ & _ & _ & _ & _ & Hok & Hsel).
    split; [exact Hok|].
    destruct Hsel as [Hdef|(optarg & Hin & Hmap)]; [left; exact Hdef|].
    right. exists optarg. split; [exact Hin|]. split; [|exact Hmap].
    destruct (bad_column_list optarg) eqn:Hbad; [|reflexivity].
    exfalso. apply (bad_column_list_inv optarg _ Hbad Hmap).
    apply columns_ok_NoDup, Hok.
  - intros optarg p len Hs Hin.
    destruct (column_of_same_text optarg p len Hs Hin) as [Hsome Hnone].
    split; [exact Hnone|]. intros Hall.
    destruct (column_of p len) as [id|] eqn:E; [|reflexivity].
    destruct (Hsome id eq_refl) as (ci & Hci & Heq).
    exfalso. apply (Hall ci); [|exact Heq].
    apply list_elem_of_In, list_elem_of_lookup. eauto.
Qed.

End command_line.

(** ** A whole run *)

Section whole_run.
Context {H : headers}.
Variable os : kernel.

Lemma emits_next_write (P : event -> bool) : emits P (next_write os).
Proof.
  intros w r w' E. inversion E; subst. exists []. simpl.
  rewrite app_nil_r. auto.
Qed.

Lemma emits_disarm (fuel : nat) (wd : wdinfo) (fd : Z) :
  emits is_session (disarm os fuel wd fd).
Proof.
  induction fuel as [|fuel IH]; simpl.
  - apply emits_out_of_fuel.
  - unfold write. apply emits_bind.
    + apply emits_bind; [apply emits_next_write|]. intros ans. emits_tac.
    + intros r. emits_tac. exact IH.
Qed.

Lemma forallb_is_session_query_events (dev : string) (fd : Z) :
  forallb is_session (query_events os dev fd) = true.
Proof.
  unfold query_events. destruct (sys_getsupport os); reflexivity.
Qed.

(** A session that returns has opened the device, returns 0 and the status
    record of the queries, and has done nothing but device I/O, signal
    masking and diagnostics. *)
Lemma read_watchdog_val (fuel : nat) (wd wd' : wdinfo) (rc : Z)
    (w w' : world) :
  read_watchdog os fuel wd w = (Val (rc, wd'), w') ->
  rc = 0 /\ wd' = queried os wd
  /\ exists n evs,
       trace w' = trace w ++ Sigprocmask SIG_BLOCK_ALL
                    :: Open (device wd) (Z.of_nat n) :: evs
       /\ forallb is_session evs = true.
Proof.
  intros E. destruct (sys_open os (device wd)) as [n|e] eqn:Ho.
  2:{ rewrite (read_watchdog_open_fails os fuel wd w e Ho) in E.
      discriminate E. }
  destruct (read_watchdog_open_ok os fuel wd w n Ho) as (e0 & E0).
  rewrite E0 in E. clear E0. unfold session_end in E.
  rewrite bind_unfold in E.
  match type of E with
  | (let (_, _) := disarm os fuel ?wd1 ?fd ?w1 in _) = _ =>
      destruct (disarm os fuel wd1 fd w1) as [[[]| | |] w2] eqn:Ed;
        try discriminate E;
        destruct (emits_disarm fuel wd1 fd _ _ _ Ed) as (evs & T & F)
  end.
  unfold close, sigprocmask in E. unfold_m. simpl in E, T.
  inversion E; subst rc wd' w'. clear E.
  split; [reflexivity|]. split; [reflexivity|].
  exists n, (query_events os (device wd) (Z.of_nat n) ++ evs ++
               [Close (Z.of_nat n); Sigprocmask SIG_SETMASK_OLD]).
  simpl. rewrite T. split.
  - repeat rewrite <- app_assoc. reflexivity.
  - rewrite !forallb_app, forallb_is_session_query_events, F. reflexivity.
Qed.

(** A session that does not return has done nothing else either. *)
Lemma emits_read_watchdog (fuel : nat) (wd : wdinfo) :
  emits is_session (read_watchdog os fuel wd).
Proof.
  intros w r w' E. destruct (sys_open os (device wd)) as [n|e] eqn:Ho.
  - destruct (read_watchdog_open_ok os fuel wd w n Ho) as (e0 & E0).
    rewrite E0 in E. clear E0.
    assert (Hs : emits is_session
                   (session_end os fuel (queried os wd) (Z.of_nat n))).
    { unfold session_end, close, sigprocmask. emits_tac. apply emits_disarm. }
    destruct (Hs _ _ _ E) as (evs & T & F). simpl in T.
    exists ([Sigprocmask SIG_BLOCK_ALL; Open (device wd) (Z.of_nat n)]
              ++ query_events os (device wd) (Z.of_nat n) ++ evs).
    split; [rewrite T; repeat rewrite <- app_assoc; reflexivity|].
    rewrite !forallb_app, forallb_is_session_query_events, F. reflexivity.
  - rewrite (read_watchdog_open_fails os fuel wd w e Ho) in E.
    inversion E; subst. eexists. split; [reflexivity|].
    unfold open_error. destruct (e =? EBUSY); reflexivity.
Qed.

Lemma show_timeouts_spec (wd : wdinfo) (w : world) :
  show_timeouts wd w =
  (Val tt, {| errno := errno w; nwrites := nwrites w;
              trace := trace w ++ timeout_events wd |}).
Proof.
  unfold show_timeouts, timeout_events.
  destruct (has_timeout wd), (has_pretimeout wd), (has_timeleft wd);
    unfold_m; simpl; rewrite <- ?app_assoc, ?app_nil_r;
    destruct w; reflexivity.
Qed.

(** What [report] prints before the flag table, and how it goes on. *)
Lemma report_spec (st : locals) (wd : wdinfo) (w : world) :
  report os st wd w =
  let w1 := {| errno := errno w; nwrites := nwrites w;
               trace := trace w ++ report_head st wd |} in
  if noflags st then (Val tt, w1)
  else (show_flags os (glob st) wd (tt_flags st) (wanted st);; mret tt) w1.
Proof.
  unfold report, report_head. rewrite bind_unfold.
  assert (Hid : forall w0,
            (if negb (noident st) then printf (identity_line (ident wd))
             else mret tt) w0 =
            (Val tt, {| errno := errno w0; nwrites := nwrites w0;
                        trace := trace w0 ++
                          (if noident st then []
                           else [Stdout (identity_line (ident wd))]) |})).
  { intros w0. destruct (noident st); unfold_m; simpl;
      rewrite ?app_nil_r; destruct w0; reflexivity. }
  rewrite Hid. rewrite bind_unfold.
  assert (Hti : forall w0,
            (if negb (notimeouts st) then show_timeouts wd else mret tt) w0 =
            (Val tt, {| errno := errno w0; nwrites := nwrites w0;
                        trace := trace w0 ++
                          (if notimeouts st then [] else timeout_events wd)
                     |})).
  { intros w0. destruct (notimeouts st); simpl.
    - unfold_m. rewrite app_nil_r. destruct w0; reflexivity.
    - apply show_timeouts_spec. }
  rewrite Hti. rewrite bind_unfold. simpl.
  destruct (noflags st); simpl.
  - unfold_m. simpl. rewrite app_nil_r, <- !app_assoc. reflexivity.
  - destruct (negb (noident st && notimeouts st)); unfold_m; simpl;
      rewrite ?app_nil_r, <- ?app_assoc; reflexivity.
Qed.

Lemma emits_define_columns (g : globals) (nums : list Z) :
  forall tb, emits is_stderr (define_columns os g nums tb).
Proof.
  induction nums as [|i nums IH]; intros tb; simpl.
  - apply emits_ret.
  - apply emits_bind.
    + unfold get_column_info, get_column_id. emits_tac.
    + intros col. destruct (tt_define_column _ tb _ _ _); [apply IH|].
      emits_tac.
Qed.

Lemma add_line_warning_is_stderr (e : event) :
  is_add_line_warning e = true -> is_stderr e = true.
Proof. destruct e; try discriminate; reflexivity. Qed.

(** [show_flags] either renders the table, after the complaints about
    lines and the warning about unknown flags, and returns 0, or leaves
    nothing but diagnostics. *)
Lemma show_flags_inv (g : globals) (wd : wdinfo) (tt_flags wanted : Z)
    (w w' : world) (r : res Z) :
  show_flags os g wd tt_flags wanted w = (r, w') ->
  exists evs,
    trace w' = trace w ++ evs
    /\ ((r = Val 0
         /\ exists lw tb,
              evs = lw ++ unknown_flags_warning wd ++ [PrintTable tb]
              /\ forallb is_add_line_warning lw = true)
        \/ forallb is_stderr evs = true).
Proof.
  intros E. unfold show_flags in E.
  destruct (tt_new_table (alloc_table os) tt_flags) as [tb0|].
  2:{ unfold_m. inversion E; subst. simpl. eexists. split; [reflexivity|].
      right. reflexivity. }
  rewrite bind_unfold in E.
  destruct (define_columns os g (upto (ncolumns g)) tb0 w) as [r1 w1] eqn:Ed.
  destruct (emits_define_columns g _ tb0 _ _ _ Ed) as (evs1 & T1 & F1).
  destruct r1 as [[tb1|]| | |].
  2-5: unfold_m; inversion E; subst; exists evs1; split;
    [exact T1|right; exact F1].
  apply define_columns_some in Ed. subst w1.
  rewrite bind_unfold in E. fold (supported_options wd) in E.
  destruct (for_each wdflags (show_flags_step os g wd wanted)
              (tb1, supported_options wd) w) as [r2 w2] eqn:El.
  destruct (emits_for_each is_add_line_warning wdflags
              (show_flags_step os g wd wanted)
              (emits_show_flags_step os g wd wanted) _ _ _ _ El)
    as (lw & T2 & F2).
  assert (Fs : forallb is_stderr lw = true).
  { rewrite forallb_forall in *. intros e He.
    apply add_line_warning_is_stderr. auto. }
  destruct r2 as [[tb2 flags2]| | |].
  2-4: inversion E; subst; exists lw; split; [exact T2|right; exact Fs].
  pose proof (show_flags_loop_flags _ _ _ _ _ _ _ _ _ _ _ El) as Hfl.
  rewrite cleared_wdflags in Hfl. subst flags2.
  exists (lw ++ unknown_flags_warning wd ++ [PrintTable tb2]).
  unfold unknown_flags_warning, unknown_flags_message.
  destruct (unknown_flags wd =? 0); unfold_m; simpl in E;
    inversion E; subst; simpl; rewrite T2; repeat rewrite <- app_assoc;
    (split; [reflexivity|]); left; (split; [reflexivity|]);
    exists lw, tb2; auto.
Qed.

Lemma forallb_is_stdout_report_head (st : locals) (wd : wdinfo) :
  forallb is_stdout (report_head st wd) = true.
Proof.
  unfold report_head, timeout_events.
  destruct (noident st), (notimeouts st), (noflags st), (has_timeout wd),
    (has_pretimeout wd), (has_timeleft wd); reflexivity.
Qed.

Lemma forallb_not_In (P : event -> bool) (tr : list event) (e : event) :
  forallb P tr = true -> P e = false -> ~ In e tr.
Proof.
  rewrite forallb_forall. intros HP He Hin. apply HP in Hin. congruence.
Qed.

(** A run that returns from [main]: the options were accepted, the session
    returned, and the report was printed. *)
Lemma run_val (fuel : nat) (opts : list (ascii * string)) (operands : bool)
    (c : Z) (w' : world) :
  run os fuel opts operands = (Val c, w') ->
  exists st w2,
    parse_options opts operands world0 = (Val st, world0)
    /\ read_watchdog os fuel (wd st) world0
         = (Val (0, queried os (wd st)), w2)
    /\ report os st (queried os (wd st)) w2 = (Val tt, w')
    /\ c = EXIT_SUCCESS.
Proof.
  unfold run, main. intros E. rewrite bind_unfold in E.
  destruct (parse_options opts operands world0) as [[st| | |] w1] eqn:Ep;
    try discriminate E.
  pose proof (parse_options_val opts operands st world0 w1 Ep) as (-> & _).
  rewrite bind_unfold in E.
  destruct (read_watchdog os fuel (wd st) world0)
    as [[[rc wd']| | |] w2] eqn:Er; try discriminate E.
  destruct (read_watchdog_val fuel _ _ _ _ _ Er) as (-> & -> & _).
  cbv beta iota in E. rewrite bind_unfold in E.
  change (negb (0 =? 0)) with false in E. cbv iota in E.
  destruct (report os st (queried os (wd st)) w2) as [[[]| | |] w3] eqn:Erep;
    try discriminate E.
  unfold_m. simpl in E. inversion E; subst.
  exists st, w2. auto.
Qed.

Lemma existsb_false_of_forallb (P Q : event -> bool) (tr : list event) :
  forallb P tr = true -> (forall e, P e = true -> Q e = false) ->
  existsb Q tr = false.
Proof.
  intros HP HPQ. induction tr as [|e tr IH]; [reflexivity|].
  simpl in *. apply andb_prop in HP. destruct HP as [He Htr].
  rewrite (HPQ e He), (IH Htr). reflexivity.
Qed.

Lemma separator_printed_report_head (st : locals) (wd : wdinfo) :
  separator_printed (report_head st wd) =
  negb (noflags st) && negb (noident st && notimeouts st).
Proof.
  unfold separator_printed, report_head, timeout_events.
  rewrite !existsb_app.
  destruct (noident st), (notimeouts st), (noflags st), (has_timeout wd),
    (has_pretimeout wd), (has_timeleft wd); reflexivity.
Qed.

(** What a run that returns has on its trace: the session, what [report]
    prints above the table, and what [show_flags] puts out. *)
Lemma run_val_trace (fuel : nat) (opts : list (ascii * string))
    (operands : bool) (c : Z) (w' : world) :
  run os fuel opts operands = (Val c, w') ->
  exists st n evs fevs,
    parse_options opts operands world0 = (Val st, world0)
    /\ c = EXIT_SUCCESS
    /\ trace w' =
         (Sigprocmask SIG_BLOCK_ALL
            :: Open (device (wd st)) (Z.of_nat n) :: evs)
         ++ report_head st (queried os (wd st)) ++ fevs
    /\ forallb is_session evs = true
    /\ forallb is_flag_event fevs = true
    /\ (noflags st = true -> fevs = []).
Proof.
  intros E. destruct (run_val fuel opts operands c w' E)
    as (st & w2 & Ep & Er & Erep & ->).
  destruct (read_watchdog_val fuel _ _ _ _ _ Er) as (_ & _ & n & evs & T & F).
  simpl in T. rewrite report_spec in Erep. cbv zeta in Erep.
  exists st, n, evs. destruct (noflags st) eqn:Hnf.
  - inversion Erep; subst w'. simpl. exists []. rewrite T, app_nil_r. auto 10.
  - rewrite bind_unfold in Erep.
    match type of Erep with
    | (let (_, _) := show_flags os ?g ?wd1 ?tf ?wa ?w1 in _) = _ =>
        destruct (show_flags os g wd1 tf wa w1) as [rs w4] eqn:Es;
        destruct (show_flags_inv g wd1 tf wa w1 w4 rs Es) as (fevs & T4 & Hf)
    end.
    destruct rs as [v| | |]; try discriminate Erep.
    unfold_m. inversion Erep; subst w'. simpl in T4.
    exists fevs. rewrite T4, T, <- app_assoc.
    split; [exact Ep|]. split; [reflexivity|]. split; [reflexivity|].
    split; [exact F|]. split; [|discriminate].
    destruct Hf as [(_ & lw & tb & -> & Flw)|Fs].
    + rewrite !forallb_app. unfold is_flag_event.
      assert (forallb (fun e => is_stderr e || is_table e) lw = true) as ->.
      { rewrite forallb_forall in *. intros e He.
        rewrite (add_line_warning_is_stderr e (Flw e He)). reflexivity. }
      unfold unknown_flags_warning. destruct (unknown_flags _ =? 0);
        reflexivity.
    + rewrite forallb_forall in *. intros e He. unfold is_flag_event.
      rewrite (Fs e He). reflexivity.
Qed.

(** C7 (amended).  In a run that returns, the blank separator line is
    printed exactly when the flag table is not suppressed (no [-F]) and the
    identity line and the timeouts are not both suppressed (not [-I] and
    [-T] together) -- whether or not any line is printed above it. *)
Theorem separator_follows_the_options (fuel : nat)
    (opts : list (ascii * string)) (operands : bool) (c : Z) (w' : world) :
  run os fuel opts operands = (Val c, w') ->
  separator_printed (trace w') =
  negb (has_option "F" opts)
    && negb (has_option "I" opts && has_option "T" opts).
Proof.
  intros E. destruct (run_val_trace fuel opts operands c w' E)
    as (st & n & evs & fevs & Ep & _ & T & F & Ff & _).
  destruct (parse_options_val opts operands st _ _ Ep)
    as (_ & Hnf & Hni & Hnt & _).
  rewrite T, <- Hnf, <- Hni, <- Hnt.
  unfold separator_printed. rewrite !existsb_app.
  fold (separator_printed (report_head st (queried os (wd st)))).
  rewrite separator_printed_report_head.
  assert (existsb is_separator fevs = false) as ->.
  { apply (existsb_false_of_forallb is_flag_event); [exact Ff|].
    intros e He. destruct e; try discriminate He; reflexivity. }
  assert (existsb is_separator evs = false) as Hs.
  { apply (existsb_false_of_forallb is_session); [exact F|].
    intros e He. destruct e; try discriminate He; reflexivity. }
  simpl. rewrite Hs, orb_false_r. reflexivity.
Qed.

(** *** Hexadecimal *)

Lemma hex_digit_char (d : Z) :
  0 <= d < 16 -> hex_digit (digit_char d) = Some d.
Proof.
  intros Hd.
  assert (d = 0 \/ d = 1 \/ d = 2 \/ d = 3 \/ d = 4 \/ d = 5 \/ d = 6
          \/ d = 7 \/ d = 8 \/ d = 9 \/ d = 10 \/ d = 11 \/ d = 12
          \/ d = 13 \/ d = 14 \/ d = 15) as Hc by lia.
  repeat destruct Hc as [->|Hc]; try reflexivity. subst d. reflexivity.
Qed.

Lemma digits_hex_value (fuel : nat) :
  forall (n : Z) (acc : string),
    0 <= n < 16 ^ Z.of_nat fuel ->
    hex_value_from 0 (digits 16 fuel n acc) = hex_value_from n acc.
Proof.
  induction fuel as [|fuel IH]; intros n acc Hn.
  - simpl in *. replace n with 0 by lia. reflexivity.
  - rewrite Nat2Z.inj_succ, Z.pow_succ_r in Hn by lia.
    assert (Hm : 0 <= n mod 16 < 16) by (apply Z.mod_pos_bound; lia).
    pose proof (Z.div_mod n 16 ltac:(lia)) as Hdm.
    simpl digits. destruct (Z.eqb_spec (n / 16) 0) as [Hz|Hnz].
    + simpl. rewrite (hex_digit_char _ Hm). f_equal. lia.
    + rewrite IH.
      * simpl. rewrite (hex_digit_char _ Hm). f_equal. lia.
      * split; [apply Z.div_pos; lia|].
        apply Z.div_lt_upper_bound; lia.
Qed.

Lemma digits_cons (fuel : nat) :
  forall (n : Z) (acc : string),
    exists c s, digits 16 (S fuel) n acc = String c s.
Proof.
  induction fuel as [|fuel IH]; intros n acc.
  - simpl. destruct (n / 16 =? 0); eauto.
  - change (digits 16 (S (S fuel)) n acc) with
      (let acc' := String (digit_char (n mod 16)) acc in
       if n / 16 =? 0 then acc' else digits 16 (S fuel) (n / 16) acc').
    cbv zeta. destruct (n / 16 =? 0); [eauto|apply IH].
Qed.

(** [%x] prints the hexadecimal numeral of the value, in digits [0-9a-f]
    alone. *)
Lemma fmt_x_hex_value (v : Z) :
  hex_value (fmt_x v) = Some (v mod 2 ^ 32).
Proof.
  unfold fmt_x. destruct (digits_cons 7 (Z.land v UINT32_MAX) "") as (c & s & E).
  unfold hex_value. rewrite E, <- E. rewrite digits_hex_value.
  - simpl. change UINT32_MAX with (Z.ones 32). rewrite Z.land_ones by lia.
    reflexivity.
  - change UINT32_MAX with (Z.ones 32). rewrite Z.land_ones by lia.
    change (16 ^ Z.of_nat 8) with (2 ^ 32). apply Z.mod_pos_bound. lia.
Qed.

Lemma identity_line_eq (id : watchdog_info) :
  identity_line id =
  ("Identity:      " ++ identity id ++ " [version "
     ++ fmt_x (firmware_version id) ++ "]" ++ nl)%string.
Proof. reflexivity. Qed.

(** C9 (amended).  When the identity line is not suppressed, a run that
    returns prints it with the identity the device reported and its
    firmware version as [%x] formats it: the hexadecimal numeral of the
    version in lower-case digits, with no [0x] before it; version 0x12 is
    shown as [12]. *)
Theorem identity_line_shows_bare_hex :
  (forall (fuel : nat) (opts : list (ascii * string)) (operands : bool)
          (c : Z) (w' : world),
     run os fuel opts operands = (Val c, w') ->
     has_option "I" opts = false ->
     exists id,
       In (Stdout (identity_line id)) (trace w')
       /\ forall info, sys_getsupport os = SysOk info -> id = info)
  /\ (forall id,
        identity_line id =
          ("Identity:      " ++ identity id ++ " [version "
             ++ fmt_x (firmware_version id) ++ "]" ++ nl)%string
        /\ hex_value (fmt_x (firmware_version id))
             = Some (firmware_version id mod 2 ^ 32))
  /\ fmt_x 18 = "12"%string.
Proof.
  split; [|split; [|reflexivity]].
  - intros fuel opts operands c w' E HI.
    destruct (run_val_trace fuel opts operands c w' E)
      as (st & n & evs & fevs & Ep & _ & T & _).
    destruct (parse_options_val opts operands st _ _ Ep)
      as (_ & _ & Hni & _).
    exists (ident (queried os (wd st))). split.
    + rewrite T. apply in_or_app. right. apply in_or_app. left.
      unfold report_head. rewrite Hni, HI. left. reflexivity.
    + intros info Hs. unfold queried. rewrite Hs. reflexivity.
  - intros id. split; [apply identity_line_eq|apply fmt_x_hex_value].
Qed.

Lemma reported_options_queried (st : locals) :
  wd st = set_device (wd locals0) (device (wd st)) ->
  options (ident (queried os (wd st))) = reported_options os.
Proof.
  intros Hwd. unfold queried, reported_options.
  destruct (sys_getsupport os); [reflexivity|]. rewrite Hwd. reflexivity.
Qed.

(** C6.  In a run whose flag table is rendered, the warning about unknown
    flags -- the device that was opened, then the bits of the supported
    options that none of the 11 known flags has, in hexadecimal after
    [0x] -- is on the standard error whenever there is such a bit, and
    [main] returns [EXIT_SUCCESS]. *)
Theorem unknown_flags_are_reported (fuel : nat)
    (opts : list (ascii * string)) (operands : bool) (r : res Z)
    (w' : world) (tb : tt.table) :
  run os fuel opts operands = (r, w') ->
  In (PrintTable tb) (trace w') ->
  r = Val EXIT_SUCCESS
  /\ length wdflags = 11%nat
  /\ exists wd' fd,
       In (Open (device wd') fd) (trace w')
       /\ options (ident wd') = reported_options os
       /\ (unknown_flags wd' <> 0 ->
           In (Stderr (device wd' ++ ": unknown flags 0x"
                         ++ fmt_x (unknown_flags wd') ++ nl) None)
              (trace w')).
Proof.
  unfold run, main. intros E Hin. rewrite bind_unfold in E.
  destruct (parse_options opts operands world0) as [rp w1] eqn:Ep.
  pose proof (parse_options_no_device_io opts operands rp w1 Ep) as Fm.
  assert (Hno1 : ~ In (PrintTable tb) (trace w1))
    by (apply (forallb_not_In is_message); [exact Fm|reflexivity]).
  destruct rp as [st| | |]; try (inversion E; subst r w'; contradiction).
  destruct (parse_options_val opts operands st world0 w1 Ep)
    as (-> & _ & _ & _ & Hwd & _).
  rewrite bind_unfold in E.
  destruct (read_watchdog os fuel (wd st) world0) as [rr w2] eqn:Er.
  destruct (emits_read_watchdog fuel (wd st) _ _ _ Er) as (sevs & T2 & F2).
  simpl in T2.
  assert (Hno2 : ~ In (PrintTable tb) sevs)
    by (apply (forallb_not_In is_session); [exact F2|reflexivity]).
  destruct rr as [[rc wd']| | |];
    try (inversion E; subst r w'; rewrite T2 in Hin; contradiction).
  destruct (read_watchdog_val fuel _ _ _ _ _ Er)
    as (-> & -> & n & evs & T2' & _).
  simpl in T2'.
  cbv beta iota in E. rewrite bind_unfold in E.
  change (negb (0 =? 0)) with false in E. cbv iota in E.
  rewrite report_spec in E. cbv zeta in E.
  assert (Hno3 : ~ In (PrintTable tb)
                     (report_head st (queried os (wd st)))).
  { apply (forallb_not_In is_stdout);
      [apply forallb_is_stdout_report_head|reflexivity]. }
  destruct (noflags st).
  { unfold_m. simpl in E. inversion E; subst r w'. simpl in Hin.
    rewrite T2 in Hin. apply in_app_or in Hin. tauto. }
  rewrite bind_unfold in E.
  match type of E with
  | context [show_flags os ?g ?wd1 ?tf ?wa ?w3] =>
      destruct (show_flags os g wd1 tf wa w3) as [rs w4] eqn:Es;
      destruct (show_flags_inv g wd1 tf wa w3 w4 rs Es) as (fevs & T4 & Hf)
  end.
  simpl in T4.
  assert (Hw : w' = w4)
    by (destruct rs; unfold_m; simpl in E; inversion E; reflexivity).
  subst w4. rewrite T4, T2 in Hin.
  destruct Hf as [(-> & lw & tb' & -> & Flw)|Fs].
  - unfold_m. simpl in E. inversion E; subst r.
    split; [reflexivity|]. split; [reflexivity|].
    exists (queried os (wd st)), (Z.of_nat n).
    split; [|split].
    + rewrite T4, T2'. rewrite queried_device.
      apply in_or_app. left. apply in_or_app. left. right. left. reflexivity.
    + apply reported_options_queried, Hwd.
    + intros Hnz. rewrite T4.
      apply in_or_app. right. apply in_or_app. right. apply in_or_app. left.
      unfold unknown_flags_warning, unknown_flags_message.
      apply Z.eqb_neq in Hnz. rewrite Hnz. left. reflexivity.
  - exfalso.
    assert (Hno4 : ~ In (PrintTable tb) fevs)
      by (apply (forallb_not_In is_stderr); [exact Fs|reflexivity]).
    apply in_app_or in Hin. destruct Hin as [Hin|Hin]; [|contradiction].
    apply in_app_or in Hin. tauto.
Qed.

End whole_run.

(** ** The properties at work on Linux *)

(** The run of the specification's example: identity line, one timeout
    line, the separator, two rows, no warning. *)
Example wd1_run_output :
  fst wd1_run = Val EXIT_SUCCESS
  /\ List.filter is_message (trace (snd wd1_run)) =
       [Stdout ("Identity:      WD1 [version 12]" ++ nl);
        Stdout ("Timeout:       30 seconds" ++ nl);
        Stdout nl]
  /\ option_map tt.lines (printed_table (trace (snd wd1_run))) =
       Some [[Some "KEEPALIVEPING"; Some "Keep alive ping reply";
              Some "1"; Some "0"];
             [Some "MAGICCLOSE"; Some "Supports magic close char";
              Some "0"; Some "0"]]%string.
Proof. repeat split. Qed.

Example column_names :
  @columns_named linux "status,Flag,boot-status,DESCRIPTION"
    = [Some COL_STATUS; Some COL_FLAG; Some COL_BSTATUS; Some COL_DESC]
  /\ @columns_named linux "FLAG,FLA" = [Some COL_FLAG; None]
  /\ @columns_named linux "" = [None]
  /\ @bad_column_list linux "FLAG,STATUS,flag" = true
  /\ @bad_column_list linux "FLAG,STATUS" = false.
Proof. repeat split. Qed.

Lemma read_watchdog_disarms_once_witness :
  sys_open wd_interrupted (device (wd (@locals0 linux))) = SysOk 3%nat
  /\ sys_write wd_interrupted 0%nat = SysErr (@EINTR linux)
  /\ sys_write wd_interrupted 1%nat = SysOk tt
  /\ exists e wd',
       @read_watchdog linux wd_interrupted 2 (wd (@locals0 linux)) world0 =
       (Val (0, wd'),
        {| errno := e; nwrites := 2;
           trace :=
             [Sigprocmask SIG_BLOCK_ALL; Open "/dev/watchdog" 3;
              Ioctl 3 WDIOC_GETSUPPORT (-1);
              Stderr "/dev/watchdog: failed to get information about watchdog"
                (Some 25);
              Write 3 "V" (-1); Write 3 "V" 1; Close 3;
              Sigprocmask SIG_SETMASK_OLD] |}).
Proof.
  split; [reflexivity|]. split; [reflexivity|]. split; [reflexivity|].
  apply (@read_watchdog_disarms_once linux wd_interrupted 2
           (wd (@locals0 linux)) world0 3 1 (SysOk tt)).
  - reflexivity.
  - intros i Hi. destruct i as [|i]; [reflexivity|lia].
  - reflexivity.
  - discriminate.
  - lia.
Defined.

Lemma flag_table_rows_witness :
  columns_ok default_columns = true
  /\ disjoint_flags (@wdflags linux) = true
  /\ exists tb,
       @show_flags linux wd1 default_columns wd1_status 0 0x100 world0 =
         (Val 0,
          {| errno := 0; nwrites := 0;
             trace := @unknown_flags_warning linux wd1_status
                        ++ [PrintTable tb] |})
       /\ tt.lines tb =
            map (flag_row default_columns wd1_status)
              (@selected_flags linux wd1_status 0x100)
       /\ NoDup (map wdflag.flag (@selected_flags linux wd1_status 0x100))
       /\ forall fl,
            In fl (@selected_flags linux wd1_status 0x100) <->
            In fl (@wdflags linux)
            /\ Z.land (supported_options wd1_status) (wdflag.flag fl) <> 0
            /\ (0x100 = 0 \/ Z.land 0x100 (wdflag.flag fl) <> 0).
Proof.
  split; [reflexivity|]. split; [reflexivity|].
  apply (@flag_table_rows linux wd1 default_columns eq_refl wd1_status 0
           0x100 world0).
  - reflexivity.
  - intros n. reflexivity.
  - intros n. reflexivity.
  - reflexivity.
Defined.

Lemma flags_and_noflags_are_rejected_witness :
  @flags_positive linux = true
  /\ has_option "f" filter_noflags = true
  /\ has_option "F" filter_noflags = true
  /\ (exists code w',
        @run linux wd1 1 filter_noflags false = (Exit code, w')
        /\ no_device_io (trace w') = true
        /\ (code = EXIT_FAILURE
            \/ (code = EXIT_SUCCESS
                /\ (has_option "h" filter_noflags = true
                    \/ has_option "V" filter_noflags = true)))).
Proof.
  split; [reflexivity|]. split; [reflexivity|]. split; [reflexivity|].
  apply (@flags_and_noflags_are_rejected linux wd1 1 filter_noflags false);
    reflexivity.
Defined.

(** C3, as stated, fails: with [-V] after [-f] and [-F] the exit status
    is 0. *)
Lemma filter_noflags_version_exits_zero :
  has_option "f" filter_noflags_version = true
  /\ has_option "F" filter_noflags_version = true
  /\ exit_status (fst (@run linux wd1 1 filter_noflags_version false))
       = Some 0.
Proof. repeat split. Qed.

Lemma open_failure_is_fatal_witness :
  @parse_options linux [] false world0 = (Val (@locals0_parsed linux), world0)
  /\ sys_open wd_busy "/dev/watchdog" = SysErr (@EBUSY linux)
  /\ @run linux wd_busy 1 [] false =
       (Exit EXIT_FAILURE,
        {| errno := 16; nwrites := 0;
           trace := [Sigprocmask SIG_BLOCK_ALL; Open "/dev/watchdog" (-1);
                     Stderr
                       "/dev/watchdog: watchdog already in use, terminating."
                       None] |}).
Proof.
  split; [reflexivity|]. split; [reflexivity|].
  apply (@open_failure_is_fatal linux wd_busy 1 [] false
           (@locals0_parsed linux) world0 16); reflexivity.
Defined.

Lemma timing_queries_are_independent_witness :
  sys_getsupport wd1 = SysOk wd1_ident
  /\ exists wd' w',
       @read_watchdog linux wd1 1 (wd (@locals0 linux)) world0
         = (Val (0, wd'), w')
       /\ has_timeout wd' = true
       /\ has_pretimeout wd' = false
       /\ has_timeleft wd' = false
       /\ timeout wd' = 30
       /\ pretimeout wd' = 0
       /\ timeleft wd' = 0
       /\ forall w2,
            show_timeouts wd' w2 =
            (Val tt,
             {| errno := errno w2; nwrites := nwrites w2;
                trace := trace w2
                           ++ [Stdout ("Timeout:       30 seconds" ++ nl)] |}).
Proof.
  split; [reflexivity|].
  apply (@timing_queries_are_independent linux wd1 1 (wd (@locals0 linux))
           world0 3 0 (SysOk tt) wd1_ident).
  - reflexivity.
  - reflexivity.
  - reflexivity.
  - reflexivity.
  - reflexivity.
  - intros i Hi. lia.
  - reflexivity.
  - discriminate.
  - lia.
Defined.

Lemma unknown_flags_are_reported_witness :
  In (PrintTable wd_unknown_table) (trace (snd wd_unknown_run))
  /\ fst wd_unknown_run = Val EXIT_SUCCESS
  /\ In (Stderr ("/dev/watchdog: unknown flags 0x80000000" ++ nl) None)
        (trace (snd wd_unknown_run))
  /\ exists wd' fd,
       In (Open (device wd') fd) (trace (snd wd_unknown_run))
       /\ options (ident wd') = reported_options wd_unknown
       /\ (@unknown_flags linux wd' <> 0 ->
           In (Stderr (device wd' ++ ": unknown flags 0x"
                         ++ fmt_x (@unknown_flags linux wd') ++ nl) None)
              (trace (snd wd_unknown_run))).
Proof.
  assert (Hin : In (PrintTable wd_unknown_table) (trace (snd wd_unknown_run)))
    by (vm_compute; repeat first [left; reflexivity | right]).
  split; [exact Hin|].
  destruct (@unknown_flags_are_reported linux wd_unknown 1 [] false
              (fst wd_unknown_run) (snd wd_unknown_run) wd_unknown_table
              (surjective_pairing _) Hin) as (Hr & _ & Hw).
  split; [exact Hr|]. split; [|exact Hw].
  vm_compute. repeat first [left; reflexivity | right].
Defined.

(** C7, as stated, fails: with [-I] on a device without timing queries the
    separator is printed above the flag table although neither the
    identity line nor any timeout line is. *)
Lemma separator_without_upper_section :
  fst no_timers_run = Val EXIT_SUCCESS
  /\ separator_printed (trace (snd no_timers_run)) = true
  /\ upper_section_printed (trace (snd no_timers_run)) = false
  /\ flag_table_printed (trace (snd no_timers_run)) = true.
Proof. repeat split. Qed.

Lemma separator_follows_the_options_witness :
  @run linux wd_no_timers 1 [("I"%char, "")] false
    = (Val 0, snd no_timers_run)
  /\ separator_printed (trace (snd no_timers_run)) =
       negb (has_option "F" [("I"%char, "")])
         && negb (has_option "I" [("I"%char, "")]
                  && has_option "T" [("I"%char, "")]).
Proof.
  split; [reflexivity|].
  apply (@separator_follows_the_options linux wd_no_timers 1
           [("I"%char, "")] false 0).
  reflexivity.
Defined.

Lemma bad_column_list_is_rejected_witness :
  @bad_column_list linux "FLAG,FLAG" = true
  /\ exists w',
       @run linux wd1 1
         ([("n"%char, "")] ++ ("o"%char, "FLAG,FLAG") :: []) false
         = (Exit EXIT_FAILURE, w')
       /\ no_device_io (trace w') = true.
Proof.
  split; [reflexivity|].
  apply (proj1 (@bad_column_list_is_rejected linux wd1) 1%nat
           [("n"%char, "")] []
           "FLAG,FLAG" false
           (set_tt_flags (@locals0 linux) 8) world0);
    reflexivity.
Defined.

(** C9, as stated, fails: firmware version 0x12 is shown as [12], and
    [0x12] is nowhere in the identity line. *)
Lemma identity_line_has_no_0x_prefix :
  firmware_version wd1_ident = 0x12
  /\ identity_line wd1_ident = ("Identity:      WD1 [version 12]" ++ nl)%string
  /\ String.index 0%nat "0x12" (identity_line wd1_ident) = None
  /\ In (Stdout (identity_line wd1_ident)) (trace (snd wd1_run)).
Proof.
  split; [reflexivity|]. split; [reflexivity|]. split; [reflexivity|].
  vm_compute. repeat first [left; reflexivity | right].
Qed.

Lemma identity_line_shows_bare_hex_witness :
  @run linux wd1 1 [] false = (Val 0, snd wd1_run)
  /\ has_option "I" [] = false
  /\ exists id,
       In (Stdout (identity_line id)) (trace (snd wd1_run))
       /\ forall info, sys_getsupport wd1 = SysOk info -> id = info.
Proof.
  split; [reflexivity|]. split; [reflexivity|].
  apply (proj1 (@identity_line_shows_bare_hex linux wd1) 1%nat [] false 0);
    reflexivity.
Defined.

Lemma unknown_flags_ignore_the_filter_witness :
  @show_flags linux wd_unknown default_columns
     (queried wd_unknown (wd (@locals0 linux))) 0 0x100 world0
    = (Val 0,
       snd (@show_flags linux wd_unknown default_columns
              (queried wd_unknown (wd (@locals0 linux))) 0 0x100 world0))
  /\ @unknown_flags_warning linux (queried wd_unknown (wd (@locals0 linux)))
       = [Stderr ("/dev/watchdog: unknown flags 0x80000000" ++ nl) None]
  /\ exists n,
       0 <= n < 32
       /\ Z.testbit
            (options (ident (queried wd_unknown (wd (@locals0 linux))))) n
          = true
       /\ forall fl, In fl (@wdflags linux) ->
                     Z.testbit (wdflag.flag fl) n = false.
Proof.
  split; [reflexivity|]. split; [reflexivity|].
  apply (proj1 (proj1 (proj2 (@unknown_flags_ignore_the_filter linux
           wd_unknown default_columns
           (queried wd_unknown (wd (@locals0 linux))) 0 0x100 world0 _
           eq_refl)))).
  reflexivity.
Defined.

(** ** Beyond the claims: error paths of the session *)

Section session_errors.
Context {H : headers}.
Variable os : kernel.

Lemma after_nil (w : world) : after w [] = w.
Proof. unfold after. rewrite app_nil_r. destruct w; reflexivity. Qed.

Lemma after_after (w : world) (l1 l2 : list event) :
  after (after w l1) l2 = after w (l1 ++ l2).
Proof. unfold after. simpl. rewrite app_assoc. reflexivity. Qed.

(** As long as the writes are interrupted the disarm loop goes on. *)
Lemma disarm_interrupted (wd : wdinfo) (fd : Z) :
  forall (fuel : nat) (w : world),
    (forall i, (i < fuel)%nat -> sys_write os (nwrites w + i) = SysErr EINTR) ->
    exists e,
      disarm os fuel wd fd w =
      (Fuel, {| errno := e; nwrites := nwrites w + fuel;
                trace := trace w ++ replicate fuel (Write fd "V" (-1)) |}).
Proof.
  induction fuel as [|fuel IH]; intros w Hint.
  - exists (errno w). simpl. unfold_m.
    rewrite Nat.add_0_r, app_nil_r. destruct w; reflexivity.
  - assert (H0 : sys_write os (nwrites w) = SysErr EINTR).
    { rewrite <- (Nat.add_0_r (nwrites w)). apply Hint. lia. }
    simpl. unfold write, next_write. unfold_m. rewrite H0. simpl.
    rewrite Z.eqb_refl. simpl.
    destruct (IH {| errno := EINTR; nwrites := S (nwrites w);
                    trace := trace w ++ [Write fd "V" (-1)] |})
      as (e & E).
    + intros i Hi. simpl. rewrite <- Nat.add_succ_r. apply Hint. lia.
    + exists e. unfold write, next_write in E. unfold_m. rewrite E. simpl.
      rewrite <- app_assoc, Nat.add_succ_r. reflexivity.
Qed.

(** X1.  [read_watchdog] never gives up on the disarm write: while every
    write of the magic-close character fails with EINTR the loop goes on,
    so that no bound on the number of turns lets the session end; after
    [fuel] turns it has written [fuel] times and has neither closed the
    device nor restored the signal mask. *)
Theorem disarm_is_retried_without_bound (wd : wdinfo) (w : world) (n : nat) :
  sys_open os (device wd) = SysOk n ->
  (forall i, sys_write os (nwrites w + i) = SysErr EINTR) ->
  forall fuel : nat,
    exists e,
      read_watchdog os fuel wd w =
      (Fuel,
       {| errno := e; nwrites := nwrites w + fuel;
          trace := trace w
            ++ [Sigprocmask SIG_BLOCK_ALL; Open (device wd) (Z.of_nat n)]
            ++ query_events os (device wd) (Z.of_nat n)
            ++ replicate fuel (Write (Z.of_nat n) "V" (-1)) |}).
Proof.
  intros Ho Hint fuel.
  destruct (read_watchdog_open_ok os fuel wd w n Ho) as (e0 & E0).
  rewrite E0. unfold session_end.
  match goal with
  | |- exists _, (_ ≫= _) ?w1 = _ =>
      destruct (disarm_interrupted (queried os wd) (Z.of_nat n) fuel w1)
        as (e & E); [intros i _; apply Hint|]
  end.
  rewrite bind_unfold, E. simpl. exists e.
  repeat rewrite <- app_assoc. reflexivity.
Qed.

End session_errors.

(** ** Beyond the claims: the flag table without the memory it needs *)

Lemma rows_due_disjoint (wanted : Z) :
  forall (l : list wdflag.t) (flags : Z),
    disjoint_flags l = true ->
    Z.land flags UINT32_MAX = flags ->
    rows_due wanted flags l = List.filter (row_due wanted flags) l.
Proof.
  induction l as [|fl l IH]; intros flags Hd Hu.
  - reflexivity.
  - simpl in Hd. apply andb_prop in Hd. destruct Hd as [Hfl Hd].
    rewrite forallb_forall in Hfl. simpl.
    rewrite IH by (exact Hd || apply land_cleared_u32, Hu).
    assert (Hsame : List.filter
                      (row_due wanted (Z.land flags (u32_not (wdflag.flag fl))))
                      l
                    = List.filter (row_due wanted flags) l).
    { apply filter_ext_in. intros fl' Hin. unfold row_due.
      rewrite land_cleared_disjoint; [reflexivity|exact Hu|].
      apply Z.eqb_eq. apply Hfl. exact Hin. }
    rewrite Hsame. destruct (row_due wanted flags fl); reflexivity.
Qed.

Section table_errors.
Context {H : headers}.
Variable os : kernel.
Variable g : globals.
Hypothesis Hg : columns_ok g = true.

Lemma get_column_info_lookup (i : nat) (id : Z) (w : world) :
  (i < Z.to_nat (ncolumns g))%nat ->
  columns g !! i = Some id ->
  exists ci,
    infos !! Z.to_nat id = Some ci
    /\ get_column_info g (Z.of_nat i) w = (Val ci, w).
Proof.
  intros Hi Hid. destruct (lookup_column g Hg i Hi) as (id' & Hid' & Hr).
  rewrite Hid in Hid'. inversion Hid'; subst id'.
  unfold get_column_info.
  rewrite bind_unfold, (get_column_id_ok g Hg i id w Hi Hid).
  assert ((id <? 0) = false) as -> by (apply Z.ltb_ge; lia).
  destruct (lookup_lt_is_Some_2 infos (Z.to_nat id)) as [col Hcol];
    [simpl; lia|].
  rewrite Hcol. exists col. split; reflexivity.
Qed.

(** The table columns of a list of valid output columns. *)
Lemma table_columns_exist (l : list Z) :
  (forall x, In x l -> 0 <= x < 4) ->
  exists cols, map Some cols = map table_column l.
Proof.
  induction l as [|x l IH]; intros Hx.
  - exists []. reflexivity.
  - destruct IH as (cols & Hcols); [intros y Hy; apply Hx; right; exact Hy|].
    destruct (lookup_lt_is_Some_2 infos (Z.to_nat x)) as [c Hc].
    { simpl. specialize (Hx x (or_introl eq_refl)). lia. }
    exists (info_column c :: cols). simpl. rewrite Hcols.
    unfold table_column at 2. rewrite Hc. reflexivity.
Qed.

(** The column-defining loop, whatever memory there is: the columns from
    the [i0]-th selected one on are appended in order, or the first failed
    allocation ends the loop with a warning. *)
Lemma define_columns_cases (w : world) :
  forall (k i0 : nat) (tb : tt.table) (cols : list tt.column),
    (i0 + k <= Z.to_nat (ncolumns g))%nat ->
    map Some cols = map table_column (take k (drop i0 (columns g))) ->
    define_columns os g (map Z.of_nat (seq i0 k)) tb w =
    if forallb (alloc_column os) (seq (length (tt.columns tb)) k)
    then (Val (Some (tt.mk_table (tt.flags tb) (tt.columns tb ++ cols)
                       (tt.lines tb))), w)
    else (Val None, after w [no_column_warning]).
Proof.
  induction k as [|k IH]; intros i0 tb cols Hk Hcols.
  - destruct cols; [|discriminate Hcols]. simpl. rewrite app_nil_r.
    destruct tb; reflexivity.
  - destruct (lookup_column g Hg i0) as (id & Hid & _); [lia|].
    destruct (get_column_info_lookup i0 id w) as (ci & Hci & Ec);
      [lia|exact Hid|].
    rewrite (drop_S _ _ _ Hid) in Hcols. simpl in Hcols.
    destruct cols as [|c cols]; [discriminate Hcols|].
    simpl in Hcols. inversion Hcols as [[Hc Hrest]].
    unfold table_column in Hc. rewrite Hci in Hc. simpl in Hc.
    inversion Hc; subst c. clear Hc Hcols.
    simpl seq. simpl map. simpl define_columns. rewrite bind_unfold, Ec.
    unfold tt_define_column. simpl forallb.
    destruct (alloc_column os (length (tt.columns tb))); [|reflexivity].
    rewrite (IH (S i0) _ cols) by (lia || exact Hrest).
    simpl tt.columns. rewrite length_app. simpl length.
    rewrite Nat.add_1_r. simpl tt.flags. simpl tt.lines.
    rewrite <- app_assoc. reflexivity.
Qed.

(** [add_flag_line], whatever memory there is. *)
Lemma add_flag_line_cases (tb : tt.table) (wd : wdinfo) (fl : wdflag.t)
    (w : world) :
  length (tt.columns tb) = Z.to_nat (ncolumns g) ->
  add_flag_line os g tb wd fl w =
  if alloc_line os (length (tt.lines tb))
  then (Val (tt.mk_table (tt.flags tb) (tt.columns tb)
               (tt.lines tb ++ [flag_row g wd fl])), w)
  else (Val tb,
        after w [Stderr "failed to add line to output" (Some (errno w))]).
Proof.
  intros Hc. unfold add_flag_line, tt_add_line.
  destruct (alloc_line os (length (tt.lines tb))); [|reflexivity].
  rewrite Hc. rewrite <- (cells_after_0 g wd fl (Z.to_nat (ncolumns g))).
  etransitivity;
    [apply (add_flag_line_loop g Hg wd fl _ _ _ w (Z.to_nat (ncolumns g)));
     apply Nat.le_refl|].
  unfold cells_after, flag_row, selected_columns.
  rewrite Nat.sub_diag. simpl. rewrite app_nil_r. reflexivity.
Qed.

(** The loop of [show_flags] over a flag table, whatever memory there is:
    every flag that is due a row gets it or is reported by a warning. *)
Lemma show_flags_loop_any (wd : wdinfo) (wanted : Z) :
  forall (l : list wdflag.t) (tb : tt.table) (flags : Z) (w : world),
    length (tt.columns tb) = Z.to_nat (ncolumns g) ->
    exists rows lw,
      for_each l (show_flags_step os g wd wanted) (tb, flags) w =
        (Val (tt.mk_table (tt.flags tb) (tt.columns tb)
                (tt.lines tb ++ rows), cleared l flags), after w lw)
      /\ sublist rows (map (flag_row g wd) (rows_due wanted flags l))
      /\ forallb is_add_line_warning lw = true
      /\ (length rows + length lw
          = length (rows_due wanted flags l))%nat.
Proof.
  induction l as [|fl l IH]; intros tb flags w Hc.
  - exists [], []. rewrite after_nil, app_nil_r. simpl.
    split; [destruct tb; reflexivity|]. split; [constructor|]. auto.
  - rewrite for_each_cons, bind_unfold.
    unfold show_flags_step at 1. rewrite bind_unfold.
    simpl rows_due. simpl cleared.
    destruct (row_due wanted flags fl) eqn:Hdue; unfold row_due in Hdue;
      destruct (wanted =? 0), (Z.land wanted (wdflag.flag fl) =? 0),
        (Z.land flags (wdflag.flag fl) =? 0);
      cbn [negb andb orb] in Hdue |- *; try discriminate Hdue.
    all: try solve
      [ unfold mret at 1 2, M_ret at 1 2; cbv beta iota;
        destruct (IH tb (Z.land flags (u32_not (wdflag.flag fl))) w Hc)
          as (rows & lw & E & Hs & Hw & Hn);
        exists rows, lw; rewrite E; simpl; auto ].
    all: rewrite (add_flag_line_cases tb wd fl w Hc);
      destruct (alloc_line os (length (tt.lines tb)));
      unfold mret at 1, M_ret at 1; cbv beta iota.
    all: try solve
      [ destruct (IH (tt.mk_table (tt.flags tb) (tt.columns tb)
                        (tt.lines tb ++ [flag_row g wd fl]))
                    (Z.land flags (u32_not (wdflag.flag fl))) w Hc)
          as (rows & lw & E & Hs & Hw & Hn);
        exists (flag_row g wd fl :: rows), lw; rewrite E; simpl;
        rewrite <- app_assoc; simpl;
        split; [reflexivity|]; split; [constructor; exact Hs|];
        split; [exact Hw|]; lia ].
    all: destruct (IH tb (Z.land flags (u32_not (wdflag.flag fl)))
                     (after w [Stderr "failed to add line to output"
                                 (Some (errno w))]) Hc)
           as (rows & lw & E & Hs & Hw & Hn);
         exists rows,
           (Stderr "failed to add line to output" (Some (errno w)) :: lw);
         rewrite E, after_after; simpl;
         split; [reflexivity|]; split; [constructor; exact Hs|];
         split; [exact Hw|]; lia.
Qed.

(** [show_flags] for valid columns, whatever memory there is: without a
    table or without one of its columns it warns once and returns -1;
    otherwise it prints the table. *)
Lemma show_flags_cases (wd : wdinfo) (tt_flags wanted : Z) (w : world) :
  (alloc_table os = false
   /\ show_flags os g wd tt_flags wanted w
      = (Val (-1), after w [no_table_warning w]))
  \/ (alloc_table os = true
      /\ columns_allocated os (Z.to_nat (ncolumns g)) = false
      /\ show_flags os g wd tt_flags wanted w
         = (Val (-1), after w [no_column_warning]))
  \/ (alloc_table os = true
      /\ columns_allocated os (Z.to_nat (ncolumns g)) = true
      /\ exists cols rows lw,
           show_flags os g wd tt_flags wanted w
           = (Val 0,
              after w (lw ++ unknown_flags_warning wd
                         ++ [PrintTable (tt.mk_table tt_flags cols rows)]))
           /\ map Some cols = map table_column (selected_columns g)
           /\ sublist rows
                (map (flag_row g wd)
                   (rows_due wanted (supported_options wd) wdflags))
           /\ forallb is_add_line_warning lw = true
           /\ (length rows + length lw
               = length (rows_due wanted (supported_options wd) wdflags))%nat).
Proof.
  unfold show_flags, tt_new_table.
  destruct (alloc_table os); [right|left; split; reflexivity].
  destruct (table_columns_exist (selected_columns g)) as (cols & Hcols).
  { destruct (columns_ok_inv g Hg) as (_ & _ & Hr & _). exact Hr. }
  pose proof (define_columns_cases w (Z.to_nat (ncolumns g)) 0
                (tt.mk_table tt_flags [] []) cols) as E.
  rewrite drop_0 in E. specialize (E ltac:(lia) Hcols).
  cbn [tt.flags tt.columns tt.lines length app] in E.
  fold (columns_allocated os (Z.to_nat (ncolumns g))) in E.
  unfold upto. rewrite bind_unfold, E. clear E.
  destruct (columns_allocated os (Z.to_nat (ncolumns g))) eqn:Hac.
  - right. split; [reflexivity|]. split; [reflexivity|].
    assert (Hlen : length cols = Z.to_nat (ncolumns g)).
    { apply (f_equal (@length _)) in Hcols.
      unfold selected_columns in Hcols.
      rewrite !length_map, length_take in Hcols.
      destruct (columns_ok_inv g Hg) as (Hl & Hn & _). lia. }
    destruct (show_flags_loop_any wd wanted wdflags
                (tt.mk_table tt_flags cols []) (supported_options wd) w Hlen)
      as (rows & lw & El & Hs & Hw & Hn).
    exists cols, rows, lw. split; [|split; [|split; [|split]]]; auto.
    rewrite bind_unfold. fold (supported_options wd). rewrite El.
      rewrite cleared_wdflags. simpl.
      unfold unknown_flags_warning, unknown_flags_message.
      destruct (unknown_flags wd =? 0); unfold_m; unfold after; simpl;
        rewrite <- ?app_assoc; reflexivity.
  - left. split; [reflexivity|]. split; reflexivity.
Qed.

End table_errors.

Section flag_table_errors.
Context {H : headers}.
Variable os : kernel.
Variable g : globals.
Hypothesis Hg : columns_ok g = true.

(** X2.  When the table or one of the selected columns cannot be
    allocated, [show_flags] gives up at once: it returns -1 after a single
    diagnostic -- about the table, with the reason, or about the column --
    and prints neither a table nor the warning about unknown flags,
    whatever the device supports. *)
Theorem show_flags_without_memory (wd : wdinfo) (tt_flags wanted : Z)
    (w : world) :
  alloc_table os && columns_allocated os (Z.to_nat (ncolumns g)) = false ->
  show_flags os g wd tt_flags wanted w =
  (Val (-1),
   after w [if alloc_table os then no_column_warning
            else no_table_warning w]).
Proof.
  intros Hm.
  destruct (show_flags_cases os g Hg wd tt_flags wanted w)
    as [(Ht & E)|[(Ht & Hc & E)|(Ht & Hc & _)]];
    rewrite Ht in *; try rewrite Hc in *; try discriminate Hm; exact E.
Qed.

(** X3.  With memory for the table and its columns, [show_flags] returns
    0 and prints, as the last thing it does, a table that carries the
    table flags it was given and whose columns are the selected output
    columns, in the order of the selection, each with the header, the
    width hint and the flags of its entry in [infos]; every line of the
    table has one cell per column. *)
Theorem flag_table_columns (wd : wdinfo) (tt_flags wanted : Z) (w : world) :
  alloc_table os = true ->
  columns_allocated os (Z.to_nat (ncolumns g)) = true ->
  exists tb evs,
    show_flags os g wd tt_flags wanted w
      = (Val 0, after w (evs ++ [PrintTable tb]))
    /\ forallb is_stderr evs = true
    /\ tt.flags tb = tt_flags
    /\ map Some (tt.columns tb) = map table_column (selected_columns g)
    /\ Forall (fun cells => length cells = length (tt.columns tb))
         (tt.lines tb).
Proof.
  intros Hat Hac.
  destruct (show_flags_cases os g Hg wd tt_flags wanted w)
    as [(Ht & _)|[(_ & Hc & _)|(_ & _ & cols & rows & lw & E & Hcols & Hs
                                   & Hw & _)]];
    [rewrite Hat in Ht; discriminate Ht
    |rewrite Hac in Hc; discriminate Hc|].
  exists (tt.mk_table tt_flags cols rows), (lw ++ unknown_flags_warning wd).
  rewrite <- app_assoc. split; [exact E|]. split.
  { rewrite forallb_app. apply andb_true_intro. split.
    - rewrite forallb_forall in Hw |- *. intros e He. apply Hw in He.
      destruct e; try discriminate He. reflexivity.
    - unfold unknown_flags_warning.
      destruct (unknown_flags wd =? 0); reflexivity. }
  split; [reflexivity|]. split; [exact Hcols|]. simpl.
  assert (Hlen : length cols = length (selected_columns g)).
  { apply (f_equal (@length _)) in Hcols. rewrite !length_map in Hcols.
    exact Hcols. }
  rewrite Forall_forall. intros cells Hin.
  pose proof (sublist_submseteq _ _ Hs) as Hsub.
  pose proof (elem_of_submseteq _ _ _ Hin Hsub) as Hel.
  apply list_elem_of_In in Hel. apply in_map_iff in Hel.
  destruct Hel as (fl & <- & _). unfold flag_row.
  rewrite length_map. symmetry. exact Hlen.
Qed.

(** X4.  [add_flag_line] drops a row it has no memory for and says so:
    with a table set up, valid columns and known flags that share no bit,
    the rows of the table [show_flags] prints are, in the order of the flag
    table, rows of flags that are due one, none twice and none for another
    flag; each row that is missing was reported by one warning, and
    [show_flags] still returns 0. *)
Theorem lost_rows_are_reported (wd : wdinfo) (tt_flags wanted : Z)
    (w : world) :
  alloc_table os = true ->
  columns_allocated os (Z.to_nat (ncolumns g)) = true ->
  disjoint_flags wdflags = true ->
  exists tb lw,
    show_flags os g wd tt_flags wanted w
      = (Val 0,
         after w (lw ++ unknown_flags_warning wd ++ [PrintTable tb]))
    /\ sublist (tt.lines tb)
         (map (flag_row g wd) (selected_flags wd wanted))
    /\ forallb is_add_line_warning lw = true
    /\ (length (tt.lines tb) + length lw
        = length (selected_flags wd wanted))%nat.
Proof.
  intros Hat Hac Hd.
  destruct (show_flags_cases os g Hg wd tt_flags wanted w)
    as [(Ht & _)|[(_ & Hc & _)|(_ & _ & cols & rows & lw & E & Hcols & Hs
                                   & Hw & Hn)]];
    [rewrite Hat in Ht; discriminate Ht
    |rewrite Hac in Hc; discriminate Hc|].
  rewrite (rows_due_disjoint wanted wdflags (supported_options wd) Hd
             (supported_options_u32 wd)) in Hs, Hn.
  exists (tt.mk_table tt_flags cols rows), lw.
  split; [exact E|]. split; [exact Hs|]. split; [exact Hw|exact Hn].
Qed.

End flag_table_errors.

(** ** Beyond the claims: looking up names *)

Section name_lookup.
Context {H : headers}.

Lemma wdflags_c_strings (fl : wdflag.t) :
  In fl wdflags -> c_string (wdflag.name fl) = true.
Proof.
  intros Hin. simpl in Hin.
  repeat (destruct Hin as [<-|Hin]; [reflexivity|]). contradiction.
Qed.

Lemma wdflags_names_differ :
  NoDup (map (fun fl => lower (wdflag.name fl)) wdflags).
Proof. apply (bool_decide_unpack _). vm_compute. reflexivity. Qed.

Lemma infos_names_differ :
  NoDup (map (fun ci => lower (colinfo.name ci)) infos).
Proof. apply (bool_decide_unpack _). vm_compute. reflexivity. Qed.

(** The lookup of [name2bit] in a table whose names are C strings that
    differ, case apart. *)
Lemma name2bit_from_same_text (name : string) (namesz : nat) (w : world) :
  c_string name = true ->
  (namesz <= String.length name)%nat ->
  forall tbl : list wdflag.t,
    (forall fl, In fl tbl -> c_string (wdflag.name fl) = true) ->
    NoDup (map (fun fl => lower (wdflag.name fl)) tbl) ->
    (forall fl,
       In fl tbl ->
       lower (name_text name namesz) = lower (wdflag.name fl) ->
       name2bit_from tbl name namesz w = (Val (wdflag.flag fl), w))
    /\ ((forall fl, In fl tbl ->
           lower (name_text name namesz) <> lower (wdflag.name fl)) ->
        name2bit_from tbl name namesz w =
        (Val (-1), after w [Stderr ("unknown flag: " ++ name) None])).
Proof.
  intros Hs Hl. induction tbl as [|fl0 tbl IH]; intros Hc Hnd.
  - split; [intros fl []|]. intros _. reflexivity.
  - apply NoDup_cons in Hnd. destruct Hnd as [Hnew Hnd].
    destruct IH as [IHs IHn];
      [intros fl Hin; apply Hc; right; exact Hin|exact Hnd|].
    pose proof (strncasecmp_same_text namesz name (wdflag.name fl0) Hs
                  (Hc fl0 (or_introl eq_refl)) Hl) as Hsame.
    simpl name2bit_from.
    destruct ((strncasecmp name (wdflag.name fl0) namesz =? 0)
              && (char_at (wdflag.name fl0) namesz =? 0)) eqn:Hm.
    + apply proj1 in Hsame. specialize (Hsame eq_refl). split.
      * intros fl [<-|Hin] Heq; [reflexivity|].
        exfalso. apply Hnew. rewrite <- Hsame, Heq.
        apply list_elem_of_In.
        apply (in_map (fun fl => lower (wdflag.name fl))). exact Hin.
      * intros Hno. exfalso.
        apply (Hno fl0 (or_introl eq_refl)). exact Hsame.
    + split.
      * intros fl [<-|Hin] Heq.
        -- apply Hsame in Heq. discriminate Heq.
        -- apply IHs; assumption.
      * intros Hno. apply IHn. intros fl Hin. apply Hno. right. exact Hin.
Qed.

(** The lookup of [column2id], likewise, counting from [i0]. *)
Lemma column2id_from_same_text (name : string) (namesz : nat) (w : world) :
  c_string name = true ->
  (namesz <= String.length name)%nat ->
  forall (tbl : list colinfo.t) (i0 : Z),
    (forall ci, In ci tbl -> c_string (colinfo.name ci) = true) ->
    NoDup (map (fun ci => lower (colinfo.name ci)) tbl) ->
    (forall (i : nat) ci,
       tbl !! i = Some ci ->
       lower (name_text name namesz) = lower (colinfo.name ci) ->
       column2id_from i0 tbl name namesz w = (Val (i0 + Z.of_nat i), w))
    /\ ((forall ci, In ci tbl ->
           lower (name_text name namesz) <> lower (colinfo.name ci)) ->
        column2id_from i0 tbl name namesz w =
        (Val (-1), after w [Stderr ("unknown column: " ++ name) None])).
Proof.
  intros Hs Hl. induction tbl as [|ci0 tbl IH]; intros i0 Hc Hnd.
  - split; [intros i ci Hi; discriminate Hi|]. intros _. reflexivity.
  - apply NoDup_cons in Hnd. destruct Hnd as [Hnew Hnd].
    destruct (IH (i0 + 1)) as [IHs IHn];
      [intros ci Hin; apply Hc; right; exact Hin|exact Hnd|].
    pose proof (strncasecmp_same_text namesz name (colinfo.name ci0) Hs
                  (Hc ci0 (or_introl eq_refl)) Hl) as Hsame.
    simpl column2id_from.
    destruct ((strncasecmp name (colinfo.name ci0) namesz =? 0)
              && (char_at (colinfo.name ci0) namesz =? 0)) eqn:Hm.
    + apply proj1 in Hsame. specialize (Hsame eq_refl). split.
      * intros [|i] ci Hi Heq.
        -- rewrite Z.add_0_r. reflexivity.
        -- exfalso. apply Hnew. rewrite <- Hsame, Heq.
           apply list_elem_of_In.
           apply (in_map (fun ci => lower (colinfo.name ci))).
           apply list_elem_of_In, list_elem_of_lookup.
           exists i. exact Hi.
      * intros Hno. exfalso.
        apply (Hno ci0 (or_introl eq_refl)). exact Hsame.
    + split.
      * intros [|i] ci Hi Heq.
        -- inversion Hi; subst ci. apply Hsame in Heq. discriminate Heq.
        -- rewrite (IHs i ci Hi Heq). f_equal. f_equal. lia.
      * intros Hno. apply IHn. intros ci Hin. apply Hno. right. exact Hin.
Qed.

(** X5.  [name2bit] compares the [namesz] characters of the name with the
    whole name of each known flag, ignoring case: a name that is the text
    of a flag's name gives that flag's bit and no diagnostic; any other
    name -- an abbreviation, a longer name, the empty name -- gives -1 and
    the diagnostic "unknown flag: " followed by the list from that name
    on. *)
Theorem name2bit_same_text (name : string) (namesz : nat) (w : world) :
  c_string name = true ->
  (namesz <= String.length name)%nat ->
  (forall fl,
     In fl wdflags ->
     lower (name_text name namesz) = lower (wdflag.name fl) ->
     name2bit name namesz w = (Val (wdflag.flag fl), w))
  /\ ((forall fl, In fl wdflags ->
         lower (name_text name namesz) <> lower (wdflag.name fl)) ->
      name2bit name namesz w =
      (Val (-1), after w [Stderr ("unknown flag: " ++ name) None])).
Proof.
  intros Hs Hl.
  apply (name2bit_from_same_text name namesz w Hs Hl wdflags
           wdflags_c_strings wdflags_names_differ).
Qed.

(** X6.  [column2id] returns the index in [infos] of the column whose
    header is the text of the name, ignoring case, and emits nothing; for
    a name that is the text of no header it returns -1 after the
    diagnostic "unknown column: " followed by the list from that name
    on. *)
Theorem column2id_same_text (name : string) (namesz : nat) (w : world) :
  c_string name = true ->
  (namesz <= String.length name)%nat ->
  (forall (i : nat) ci,
     infos !! i = Some ci ->
     lower (name_text name namesz) = lower (colinfo.name ci) ->
     column2id name namesz w = (Val (Z.of_nat i), w))
  /\ ((forall ci, In ci infos ->
         lower (name_text name namesz) <> lower (colinfo.name ci)) ->
      column2id name namesz w =
      (Val (-1), after w [Stderr ("unknown column: " ++ name) None])).
Proof.
  intros Hs Hl.
  apply (column2id_from_same_text name namesz w Hs Hl infos 0
           infos_c_strings infos_names_differ).
Qed.

End name_lookup.

(** ** Beyond the claims: the shape of a run *)

Section run_shape.
Context {H : headers}.
Variable os : kernel.

(** The disarm loop ends with a write, or not at all. *)
Lemma disarm_shape (wd : wdinfo) (fd : Z) :
  forall (fuel : nat) (w : world) (r : res unit) (w' : world),
    disarm os fuel wd fd w = (r, w') ->
    exists evs,
      trace w' = trace w ++ evs
      /\ forallb after_open evs = true
      /\ (r = Fuel \/ (r = Val tt /\ exists wr, In (Write fd "V" wr) evs)).
Proof.
  induction fuel as [|fuel IH]; intros w r w' E.
  - simpl in E. unfold_m. inversion E; subst. exists [].
    rewrite app_nil_r. auto.
  - simpl in E. unfold write, next_write in E. unfold_m.
    destruct (sys_write os (nwrites w)) as [[]|e]; simpl in E.
    + inversion E; subst. exists [Write fd "V" 1]. simpl.
      split; [reflexivity|]. split; [reflexivity|]. right.
      split; [reflexivity|]. exists 1. left. reflexivity.
    + destruct (e =? EINTR); simpl in E.
      * apply IH in E. destruct E as (evs & T & F & R). simpl in T.
        exists (Write fd "V" (-1) :: evs). rewrite T, <- app_assoc.
        split; [reflexivity|]. split; [exact F|].
        destruct R as [->|(-> & wr & Hin)]; [left; reflexivity|].
        right. split; [reflexivity|]. exists wr. right. exact Hin.
      * inversion E; subst. simpl. eexists. rewrite <- app_assoc.
        split; [reflexivity|]. split; [reflexivity|]. right.
        split; [reflexivity|]. exists (-1). left. reflexivity.
Qed.

Lemma forallb_after_open_query_events (dev : string) (fd : Z) :
  forallb after_open (query_events os dev fd) = true.
Proof.
  unfold query_events. destruct (sys_getsupport os); reflexivity.
Qed.

(** The three ways a session goes: the device cannot be opened and the
    process ends; the disarm write is interrupted for ever; or the session
    returns after the write, the [close] and the restored signal mask. *)
Lemma read_watchdog_shape (fuel : nat) (wd : wdinfo) (w : world)
    (r : res (Z * wdinfo)) (w' : world) :
  read_watchdog os fuel wd w = (r, w') ->
  exists ret sevs,
    trace w' = trace w ++ Sigprocmask SIG_BLOCK_ALL
                 :: Open (device wd) ret :: sevs
    /\ forallb after_open sevs = true
    /\ ((r = Exit EXIT_FAILURE /\ ret = -1)
        \/ (r = Fuel /\ 0 <= ret)
        \/ (r = Val (0, queried os wd) /\ 0 <= ret
            /\ exists sevs' wr,
                 sevs = sevs' ++ [Close ret; Sigprocmask SIG_SETMASK_OLD]
                 /\ In (Write ret "V" wr) sevs')).
Proof.
  intros E. destruct (sys_open os (device wd)) as [n|e] eqn:Ho.
  - destruct (read_watchdog_open_ok os fuel wd w n Ho) as (e0 & E0).
    rewrite E0 in E. clear E0. unfold session_end in E.
    rewrite bind_unfold in E.
    match type of E with
    | (let (_, _) := disarm os fuel ?wd1 ?fd ?w1 in _) = _ =>
        destruct (disarm os fuel wd1 fd w1) as [rd w2] eqn:Ed;
          destruct (disarm_shape wd1 fd fuel w1 rd w2 Ed)
            as (evs & T & F & R)
    end.
    simpl in T. exists (Z.of_nat n).
    destruct R as [->|(-> & wr & Hin)].
    + inversion E; subst r w'.
      exists (query_events os (device wd) (Z.of_nat n) ++ evs).
      rewrite T, <- !app_assoc. split; [reflexivity|].
      rewrite forallb_app, forallb_after_open_query_events, F.
      split; [reflexivity|]. right. left. split; [reflexivity|lia].
    + unfold close, sigprocmask in E. unfold_m. simpl in E.
      inversion E; subst r w'. simpl.
      exists (query_events os (device wd) (Z.of_nat n) ++ evs
                ++ [Close (Z.of_nat n); Sigprocmask SIG_SETMASK_OLD]).
      rewrite T, <- !app_assoc. split; [reflexivity|].
      rewrite !forallb_app, forallb_after_open_query_events, F.
      split; [reflexivity|]. right. right.
      split; [reflexivity|]. split; [lia|].
      exists (query_events os (device wd) (Z.of_nat n) ++ evs), wr.
      rewrite <- app_assoc. split; [reflexivity|].
      apply in_or_app. right. exact Hin.
  - rewrite (read_watchdog_open_fails os fuel wd w e Ho) in E.
    inversion E; subst r w'. simpl.
    exists (-1), [open_error (device wd) e]. split; [reflexivity|].
    split; [|left; split; reflexivity].
    unfold open_error. destruct (e =? EBUSY); reflexivity.
Qed.

(** What [report] does with valid columns: it always returns; below the
    head comes nothing ([-F]), the one diagnostic of a table that cannot
    be set up, or the warnings and the table of [show_flags]. *)
Lemma report_cases (st : locals) (wd : wdinfo) (w : world) :
  columns_ok (glob st) = true ->
  exists fevs,
    report os st wd w = (Val tt, after w (report_head st wd ++ fevs))
    /\ forallb is_flag_event fevs = true
    /\ ((noflags st = true /\ fevs = [])
        \/ (noflags st = false
            /\ alloc_table os
                 && columns_allocated os (Z.to_nat (ncolumns (glob st)))
               = false
            /\ fevs = [if alloc_table os then no_column_warning
                       else no_table_warning w])
        \/ (noflags st = false
            /\ alloc_table os
                 && columns_allocated os (Z.to_nat (ncolumns (glob st)))
               = true
            /\ exists cols rows lw,
                 fevs = lw ++ unknown_flags_warning wd
                          ++ [PrintTable
                                (tt.mk_table (tt_flags st) cols rows)]
                 /\ forallb is_add_line_warning lw = true
                 /\ sublist rows
                      (map (flag_row (glob st) wd)
                         (rows_due (wanted st) (supported_options wd)
                            wdflags)))).
Proof.
  intros Hok. rewrite report_spec. cbv zeta.
  fold (after w (report_head st wd)).
  destruct (noflags st) eqn:Hnf.
  - exists []. rewrite app_nil_r. split; [reflexivity|].
    split; [reflexivity|]. left. auto.
  - rewrite bind_unfold.
    match goal with
    | |- context [show_flags os ?g ?wd ?f ?wa ?w1] =>
        destruct (show_flags_cases os g Hok wd f wa w1)
          as [(Ht & E)|[(Ht & Hc & E)|(Ht & Hc & cols & rows & lw & E
                                        & _ & Hs & Hw & _)]];
          rewrite E
    end.
    + eexists. unfold_m. rewrite after_after. split; [reflexivity|].
      split; [reflexivity|].
      right. left. rewrite Ht. simpl. split; [reflexivity|].
      split; reflexivity.
    + eexists. unfold_m. rewrite after_after. split; [reflexivity|].
      split; [reflexivity|].
      right. left. rewrite Ht, Hc. simpl. split; [reflexivity|].
      split; reflexivity.
    + eexists. unfold_m. rewrite after_after. split; [reflexivity|].
      split.
      { rewrite !forallb_app. simpl. rewrite andb_true_r.
        apply andb_true_intro. split.
        - rewrite forallb_forall in Hw |- *. intros ev Hev.
          apply Hw in Hev. destruct ev; try discriminate Hev. reflexivity.
        - unfold unknown_flags_warning.
          destruct (unknown_flags wd =? 0); reflexivity. }
      right. right. split; [reflexivity|]. rewrite Ht, Hc.
      split; [reflexivity|]. exists cols, rows, lw. auto.
Qed.

(** The ways a run goes: the options end the process; or they are
    accepted without a trace, and the session fails to open the device,
    never ends, or returns and is followed by the report and the exit
    status 0. *)
Lemma run_shape (fuel : nat) (opts : list (ascii * string))
    (operands : bool) (r : res Z) (w' : world) :
  run os fuel opts operands = (r, w') ->
  (exists code,
     r = Exit code
     /\ parse_options opts operands world0 = (Exit code, w')
     /\ (code = EXIT_FAILURE
         \/ (code = EXIT_SUCCESS
             /\ (has_option "h" opts = true \/ has_option "V" opts = true))))
  \/ (exists st ret sevs w2,
        parse_options opts operands world0 = (Val st, world0)
        /\ trace w2 = Sigprocmask SIG_BLOCK_ALL
                        :: Open (device (wd st)) ret :: sevs
        /\ forallb after_open sevs = true
        /\ ((r = Exit EXIT_FAILURE /\ ret = -1 /\ w' = w2)
            \/ (r = Fuel /\ 0 <= ret /\ w' = w2)
            \/ (r = Val EXIT_SUCCESS /\ 0 <= ret
                /\ (exists sevs' wr,
                      sevs = sevs' ++ [Close ret; Sigprocmask SIG_SETMASK_OLD]
                      /\ In (Write ret "V" wr) sevs')
                /\ report os st (queried os (wd st)) w2 = (Val tt, w')))).
Proof.
  unfold run, main. intros E. rewrite bind_unfold in E.
  destruct (parse_options_result opts operands world0)
    as (w1 & [(st & Ep)|(code & Ep & Hcode)]); rewrite Ep in E.
  2:{ inversion E; subst r w'. left. exists code. auto. }
  right.
  destruct (parse_options_val opts operands st world0 w1 Ep)
    as (-> & _ & _ & _ & _ & _ & _ & Hok & _).
  rewrite bind_unfold in E.
  destruct (read_watchdog os fuel (wd st) world0) as [rr w2] eqn:Er.
  destruct (read_watchdog_shape fuel (wd st) world0 rr w2 Er)
    as (ret & sevs & T & F & R).
  simpl in T. exists st, ret, sevs, w2.
  split; [exact Ep|]. split; [exact T|]. split; [exact F|].
  destruct R as [(-> & Hret)|[(-> & Hret)|(-> & Hret & Hend)]].
  - inversion E; subst r w'. left. auto.
  - inversion E; subst r w'. right. left. auto.
  - right. right. simpl in E. rewrite bind_unfold in E.
    destruct (report_cases st (queried os (wd st)) w2 Hok)
      as (fevs & Erep & _ & _).
    rewrite Erep in E. unfold_m. simpl in E.
    inversion E; subst r w'. auto.
Qed.


Lemma filter_nil_of_forallb (P Q : event -> bool) (tr : list event) :
  forallb P tr = true -> (forall e, P e = true -> Q e = false) ->
  List.filter Q tr = [].
Proof.
  intros HP HPQ. induction tr as [|e tr IH]; [reflexivity|].
  simpl in *. apply andb_prop in HP. destruct HP as [He Htr].
  rewrite (HPQ e He). apply IH, Htr.
Qed.

Lemma find_last {A} (p : A -> bool) (l : list A) (x : A) :
  find p (l ++ [x]) =
  match find p l with
  | Some y => Some y
  | None => if p x then Some x else None
  end.
Proof.
  induction l as [|a l IH]; simpl; [reflexivity|].
  destruct (p a); [reflexivity|exact IH].
Qed.

(** The table flags of a command line, option by option. *)
Lemma table_flags_cons (c : ascii) (optarg : string)
    (opts : list (ascii * string)) :
  Z.lor (option_table_flag c) (table_flags opts)
  = table_flags ((c, optarg) :: opts).
Proof.
  unfold table_flags, option_table_flag, has_option. simpl existsb.
  simpl fst.
  destruct (Ascii.eqb_spec c "n") as [->|Hn];
    [|destruct (Ascii.eqb_spec c "r") as [->|Hr];
      [|destruct (Ascii.eqb_spec c "P") as [->|HP]]];
    cbn [Ascii.eqb Bool.eqb orb andb];
    apply Z.bits_inj'; intros i Hi;
    repeat match goal with
           | |- context [existsb ?f opts] => destruct (existsb f opts)
           end;
    rewrite !Z.lor_spec, ?Z.bits_0;
    repeat match goal with
           | |- context [Z.testbit ?a i] => destruct (Z.testbit a i)
           end;
    reflexivity.
Qed.

(** What one option does to the device and the table flags. *)
Lemma main_option_fields (st st' : locals) (c : ascii) (optarg : string)
    (w w' : world) :
  length (columns (glob st)) = 4%nat ->
  main_option st c optarg w = (Val st', w') ->
  device (wd st') = (if Ascii.eqb c "d" then optarg else device (wd st))
  /\ tt_flags st' = Z.lor (tt_flags st) (option_table_flag c).
Proof.
  intros Hlen E.
  destruct (main_option_cases st c optarg)
    as [(-> & Eq)|[(-> & Eq)|[(-> & Eq)|[(-> & Eq)|[(-> & Eq)|[(-> & Eq)|
       [(-> & Eq)|[(-> & Eq)|[(-> & Eq)|[(-> & Eq)|[(-> & Eq)|Eq]]]]]]]]]]].
  all: try solve
             [rewrite Eq in E; unfold usage in E; unfold_m;
              first [discriminate E
                    | inversion E; subst st' w'; simpl;
                      rewrite ?Z.lor_0_r; auto]].
  - destruct (main_option_o_val st st' optarg w w' Hlen E)
      as (_ & Hst & _).
    rewrite Hst. simpl. rewrite Z.lor_0_r. auto.
  - destruct (main_option_f_val st st' optarg w w' E) as (_ & Hst & _).
    rewrite Hst. simpl. rewrite Z.lor_0_r. auto.
Qed.

(** What the option loop leaves in the device and the table flags. *)
Lemma option_loop_fields (opts : list (ascii * string)) :
  forall (st st' : locals) (w w' : world),
    columns_state_ok (glob st) ->
    for_each opts option_body st w = (Val st', w') ->
    device (wd st') =
      match find (fun o => Ascii.eqb (fst o) "d") (rev opts) with
      | Some o => snd o
      | None => device (wd st)
      end
    /\ tt_flags st' = Z.lor (tt_flags st) (table_flags opts).
Proof.
  induction opts as [|[c optarg] opts IH]; intros st st' w w' Hg E.
  - rewrite for_each_nil in E. unfold_m. inversion E; subst. simpl.
    unfold table_flags. simpl. rewrite Z.lor_0_r. auto.
  - pose proof E as E0.
    rewrite for_each_cons, bind_unfold in E.
    rewrite option_body_pair in E.
    destruct (main_option st c optarg w) as [[st1| | |] w1] eqn:E1;
      try discriminate E.
    destruct (main_option_fields st st1 c optarg w w1 (proj1 Hg) E1)
      as (Hdev & Hfl).
    assert (Hg1 : columns_state_ok (glob st1)).
    { assert (E2 : for_each [(c, optarg)] option_body st w = (Val st1, w1)).
      { rewrite for_each_cons, bind_unfold, option_body_pair, E1.
        reflexivity. }
      apply (option_loop_val _ _ _ _ _ Hg) in E2. tauto. }
    destruct (IH st1 st' w1 w' Hg1 E) as (Hdev' & Hfl').
    split.
    + rewrite Hdev'. simpl rev. rewrite find_last. simpl fst. simpl snd.
      destruct (find _ (rev opts)); [reflexivity|].
      rewrite Hdev. destruct (Ascii.eqb c "d"); reflexivity.
    + rewrite Hfl', Hfl, <- Z.lor_assoc, (table_flags_cons c optarg).
      reflexivity.
Qed.

Lemma parse_options_fields (opts : list (ascii * string)) (operands : bool)
    (st : locals) (w w' : world) :
  parse_options opts operands w = (Val st, w') ->
  device (wd st) = device_option opts /\ tt_flags st = table_flags opts.
Proof.
  unfold parse_options. intros E. rewrite bind_unfold in E.
  destruct (for_each opts option_body locals0 w) as [[st1| | |] w1] eqn:El;
    try discriminate E.
  destruct (option_loop_fields opts locals0 st1 w w1
              columns_state_ok_locals0 El) as (Hdev & Hfl).
  rewrite bind_unfold in E.
  destruct (negb (wanted st1 =? 0) && noflags st1).
  { unfold_m. discriminate E. }
  unfold mret at 1, M_ret at 1 in E. cbv beta iota in E.
  rewrite bind_unfold in E. destruct operands.
  { unfold usage in E. unfold_m. discriminate E. }
  unfold_m. cbv beta iota in E. inversion E; subst st w'. simpl.
  rewrite Hdev, Hfl. split; reflexivity.
Qed.

End run_shape.

(** ** Beyond the claims: whole runs *)

Section runs.
Context {H : headers}.
Variable os : kernel.

Lemma after_open_is_session (tr : list event) :
  forallb after_open tr = true -> forallb is_session tr = true.
Proof.
  rewrite !forallb_forall. intros Ha e He. apply Ha in He.
  unfold after_open in He. apply andb_prop in He. tauto.
Qed.

Lemma flag_event_is_report (tr : list event) :
  forallb is_flag_event tr = true -> forallb is_report tr = true.
Proof.
  rewrite !forallb_forall. intros Ha e He. apply Ha in He.
  unfold is_report. rewrite He. apply orb_true_r.
Qed.

Lemma stdout_is_report (tr : list event) :
  forallb is_stdout tr = true -> forallb is_report tr = true.
Proof.
  rewrite !forallb_forall. intros Ha e He. apply Ha in He.
  unfold is_report. rewrite He. reflexivity.
Qed.

(** The events of a run whose options ended the process. *)
Lemma parse_exit_trace (opts : list (ascii * string)) (operands : bool)
    (code : Z) (w' : world) :
  parse_options opts operands world0 = (Exit code, w') ->
  forallb is_message (trace w') = true.
Proof.
  intros E.
  destruct (emits_parse_options opts operands _ _ _ E) as (evs & T & F).
  rewrite T. exact F.
Qed.

(** X7.  No run of [main] stops on a failed assertion, and a run that
    ends ends with the status 0 or 1: [main] returns [EXIT_SUCCESS], or
    the process exits with [EXIT_SUCCESS] or [EXIT_FAILURE]; the only
    other course is a disarm loop that is still being interrupted. *)
Theorem run_ends_with_status_0_or_1 (fuel : nat)
    (opts : list (ascii * string)) (operands : bool) :
  fst (run os fuel opts operands) = Val EXIT_SUCCESS
  \/ fst (run os fuel opts operands) = Exit EXIT_SUCCESS
  \/ fst (run os fuel opts operands) = Exit EXIT_FAILURE
  \/ fst (run os fuel opts operands) = Fuel.
Proof.
  destruct (run os fuel opts operands) as [r w'] eqn:E. simpl.
  destruct (run_shape os fuel opts operands r w' E)
    as [(code & -> & _ & [->|(-> & _)])
       |(st & ret & sevs & w2 & _ & _ & _
           & [(-> & _)|[(-> & _)|(-> & _)]])]; auto.
Qed.

(** X8.  [main] opens at most one device, once: the one named by the last
    [-d] of the command line, or the default device when there is no
    [-d]. *)
Theorem the_named_device_is_opened (fuel : nat)
    (opts : list (ascii * string)) (operands : bool) (r : res Z)
    (w' : world) :
  run os fuel opts operands = (r, w') ->
  List.filter is_open (trace w') = []
  \/ exists ret,
       List.filter is_open (trace w') = [Open (device_option opts) ret].
Proof.
  intros E.
  destruct (run_shape os fuel opts operands r w' E)
    as [(code & _ & Ep & _)
       |(st & ret & sevs & w2 & Ep & T & F & R)].
  - left. apply (filter_nil_of_forallb is_message);
      [exact (parse_exit_trace _ _ _ _ Ep)|].
    intros e He. destruct e; try discriminate He; reflexivity.
  - right. exists ret.
    destruct (parse_options_fields opts operands st _ _ Ep) as (<- & _).
    assert (Hs : List.filter is_open sevs = []).
    { apply (filter_nil_of_forallb after_open); [exact F|].
      intros e He. unfold after_open in He. apply andb_prop in He.
      destruct He as [_ He]. apply negb_true_iff in He. exact He. }
    assert (T2 : List.filter is_open (trace w2)
                 = [Open (device (wd st)) ret]).
    { rewrite T. simpl. rewrite Hs. reflexivity. }
    destruct R as [(_ & _ & ->)|[(_ & _ & ->)|(_ & _ & _ & Er)]];
      try exact T2.
    destruct (parse_options_val opts operands st _ _ Ep)
      as (_ & _ & _ & _ & _ & _ & _ & Hok & _).
    destruct (report_cases os st (queried os (wd st)) w2 Hok)
      as (fevs & Erep & Ff & _).
    rewrite Erep in Er. inversion Er; subst w'. simpl.
    rewrite List.filter_app, T2.
    rewrite (filter_nil_of_forallb is_report is_open); [reflexivity| |].
    + rewrite forallb_app.
      rewrite (stdout_is_report _ (forallb_is_stdout_report_head _ _)).
      apply (flag_event_is_report _ Ff).
    + intros e He. destruct e; try discriminate He; reflexivity.
Qed.

(** X9.  The table [main] prints carries the table flags of the options
    [-n], [-r] and [-P] that are on the command line, and no other:
    repeating one of them or changing their order changes nothing. *)
Theorem table_flags_follow_the_options (fuel : nat)
    (opts : list (ascii * string)) (operands : bool) (r : res Z)
    (w' : world) (tb : tt.table) :
  run os fuel opts operands = (r, w') ->
  In (PrintTable tb) (trace w') ->
  tt.flags tb = table_flags opts.
Proof.
  intros E Hin.
  destruct (run_shape os fuel opts operands r w' E)
    as [(code & _ & Ep & _)
       |(st & ret & sevs & w2 & Ep & T & F & R)].
  - exfalso. revert Hin.
    apply (forallb_not_In is_message);
      [exact (parse_exit_trace _ _ _ _ Ep)|reflexivity].
  - assert (Hno : ~ In (PrintTable tb) (trace w2)).
    { rewrite T. intros [Hx|[Hx|Hx]]; try discriminate Hx. revert Hx.
      apply (forallb_not_In is_session);
        [exact (after_open_is_session _ F)|reflexivity]. }
    destruct R as [(_ & _ & ->)|[(_ & _ & ->)|(_ & _ & _ & Er)]];
      try contradiction.
    destruct (parse_options_fields opts operands st _ _ Ep) as (_ & <-).
    destruct (parse_options_val opts operands st _ _ Ep)
      as (_ & _ & _ & _ & _ & _ & _ & Hok & _).
    destruct (report_cases os st (queried os (wd st)) w2 Hok)
      as (fevs & Erep & _ & Hc).
    rewrite Erep in Er. inversion Er; subst w'. simpl in Hin.
    apply in_app_or in Hin. destruct Hin as [Hin|Hin]; [contradiction|].
    apply in_app_or in Hin. destruct Hin as [Hin|Hin].
    { exfalso. revert Hin.
      apply (forallb_not_In is_stdout);
        [apply forallb_is_stdout_report_head|reflexivity]. }
    destruct Hc as [(_ & ->)|[(_ & _ & ->)
                             |(_ & _ & cols & rows & lw & -> & Hw & _)]].
    + contradiction.
    + destruct Hin as [Hx|[]]. destruct (alloc_table os); discriminate Hx.
    + apply in_app_or in Hin. destruct Hin as [Hin|Hin].
      { exfalso. revert Hin.
        apply (forallb_not_In is_add_line_warning);
          [exact Hw|reflexivity]. }
      apply in_app_or in Hin. destruct Hin as [Hin|[Hx|[]]].
      * exfalso. unfold unknown_flags_warning in Hin.
        destruct (unknown_flags _ =? 0); [contradiction|].
        destruct Hin as [Hx|[]]. discriminate Hx.
      * inversion Hx. reflexivity.
Qed.

(** X10.  Arguments left after the options are refused: a command line
    that is accepted without operands ends, with operands, in the usage
    text on the standard error and [EXIT_FAILURE], the device untouched. *)
Theorem operands_are_rejected (fuel : nat) (opts : list (ascii * string))
    (st : locals) (w1 : world) :
  parse_options opts false world0 = (Val st, w1) ->
  run os fuel opts true = (Exit EXIT_FAILURE, after world0 [Usage true]).
Proof.
  unfold run, main, parse_options. intros E.
  rewrite bind_unfold in E. rewrite !bind_unfold.
  destruct (for_each opts option_body locals0 world0)
    as [[st1| | |] w0] eqn:El; try discriminate E.
  destruct (option_loop_val opts locals0 st1 world0 w0
              columns_state_ok_locals0 El) as (-> & _).
  rewrite bind_unfold in E.
  destruct (negb (wanted st1 =? 0) && noflags st1).
  { unfold_m. discriminate E. }
  reflexivity.
Qed.

(** X11.  [-h] and [-V] end the run where the option loop meets them:
    the usage text, respectively the version, goes to the standard output
    and the process exits with [EXIT_SUCCESS]; the options and operands
    that follow are not looked at and the device is not opened. *)
Theorem help_and_version_end_the_run (fuel : nat)
    (pre post : list (ascii * string)) (optarg : string) (operands : bool)
    (st : locals) (w1 : world) :
  for_each pre option_body locals0 world0 = (Val st, w1) ->
  run os fuel (pre ++ ("h"%char, optarg) :: post) operands
    = (Exit EXIT_SUCCESS, after world0 [Usage false])
  /\ run os fuel (pre ++ ("V"%char, optarg) :: post) operands
     = (Exit EXIT_SUCCESS, after world0 [Stdout UTIL_LINUX_VERSION]).
Proof.
  intros El.
  destruct (option_loop_val pre locals0 st world0 w1
              columns_state_ok_locals0 El) as (-> & _).
  unfold run, main, parse_options.
  split; rewrite !bind_unfold, for_each_app, bind_unfold, El,
    for_each_cons, bind_unfold, option_body_pair; reflexivity.
Qed.

(** X12.  An option character [main] has no case for -- the ['?'] of an
    option [getopt_long] rejects, for one -- ends the run where the loop
    meets it: usage text on the standard error, [EXIT_FAILURE], the device
    not opened. *)
Theorem unknown_option_is_rejected (fuel : nat)
    (pre post : list (ascii * string)) (c : ascii) (optarg : string)
    (operands : bool) (st : locals) (w1 : world) :
  is_option_char c = false ->
  for_each pre option_body locals0 world0 = (Val st, w1) ->
  run os fuel (pre ++ (c, optarg) :: post) operands
    = (Exit EXIT_FAILURE, after world0 [Usage true]).
Proof.
  intros Hc El.
  destruct (option_loop_val pre locals0 st world0 w1
              columns_state_ok_locals0 El) as (-> & _).
  unfold run, main, parse_options.
  rewrite !bind_unfold, for_each_app, bind_unfold, El,
    for_each_cons, bind_unfold, option_body_pair.
  destruct (main_option_cases st c optarg)
    as [(-> & Eq)|[(-> & Eq)|[(-> & Eq)|[(-> & Eq)|[(-> & Eq)|[(-> & Eq)|
       [(-> & Eq)|[(-> & Eq)|[(-> & Eq)|[(-> & Eq)|[(-> & Eq)|Eq]]]]]]]]]]];
    try discriminate Hc.
  rewrite Eq. reflexivity.
Qed.

End runs.
